(** * Azure Verified Modules tooling: resource matcher and README extractor

    A shallow embedding of [avm_module_finder.py] and
    [avm_module_parameter_parser.py], together with the properties of
    the two tools that are stated in the specification.

    Python values are modelled as follows.
    - [str] is [string]; a character is an [ascii], so the model covers
      texts whose code points are below 256.
    - a [dict] keyed by strings is a [gmap string _]; a dict with a fixed
      set of keys is a record, a key that may be absent is an [option].
    - [None] is [None]; Python truthiness of a string is [truthy].
    - the regular expressions of the source are terms of [Regex.regex],
      run by a backtracking matcher that follows the order in which
      Python's [re] explores alternatives. *)

From Stdlib Require Import Ascii String List Bool Arith Lia.
From stdpp Require Import base option list strings gmap fin_maps.

Local Open Scope string_scope.

(** ** Python string primitives *)

Module Py.

Definition nl : ascii := "010"%char.
Definition dquote : ascii := "034"%char.
Definition squote : ascii := "039"%char.

Definition NL : string := String nl EmptyString.
Definition DQ : string := String dquote EmptyString.

(** [bool(s)] for a string. *)
Definition truthy (s : string) : bool :=
  match s with EmptyString => false | String _ _ => true end.

(** [bool(x)] for a value that is a string or [None]. *)
Definition truthy_opt (o : option string) : bool :=
  match o with Some s => truthy s | None => false end.

(** [str.isspace] on one character (code points below 256). *)
Definition isspace (c : ascii) : bool :=
  let n := nat_of_ascii c in
  (((9 <=? n) && (n <=? 13)) || ((28 <=? n) && (n <=? 32))
   || (n =? 133) || (n =? 160))%nat.

Fixpoint mem_ascii (c : ascii) (l : list ascii) : bool :=
  match l with
  | [] => false
  | x :: l' => Ascii.eqb c x || mem_ascii c l'
  end.

(** [s.startswith(p)], returning what follows the prefix. *)
Fixpoint strip_prefix (p s : string) : option string :=
  match p with
  | EmptyString => Some s
  | String a p' =>
      match s with
      | String b s' => if Ascii.eqb a b then strip_prefix p' s' else None
      | EmptyString => None
      end
  end.

Definition startswith (p s : string) : bool :=
  match strip_prefix p s with Some _ => true | None => false end.

Fixpoint drop (n : nat) (s : string) : string :=
  match n with
  | 0 => s
  | S n' => match s with EmptyString => EmptyString | String _ s' => drop n' s' end
  end.

Fixpoint take (n : nat) (s : string) : string :=
  match n with
  | 0 => EmptyString
  | S n' =>
      match s with
      | EmptyString => EmptyString
      | String a s' => String a (take n' s')
      end
  end.

Definition endswith (p s : string) : bool :=
  String.eqb (drop (String.length s - String.length p) s) p
  && (String.length p <=? String.length s)%nat.

(** [p in s] for strings. *)
Fixpoint contains (p s : string) : bool :=
  startswith p s ||
  match s with
  | EmptyString => false
  | String _ s' => contains p s'
  end.

Fixpoint lstrip_by (f : ascii -> bool) (s : string) : string :=
  match s with
  | EmptyString => EmptyString
  | String a s' => if f a then lstrip_by f s' else s
  end.

Fixpoint rstrip_by (f : ascii -> bool) (s : string) : string :=
  match s with
  | EmptyString => EmptyString
  | String a s' =>
      match rstrip_by f s' with
      | EmptyString => if f a then EmptyString else String a EmptyString
      | r => String a r
      end
  end.

(** [s.strip()] *)
Definition strip (s : string) : string := rstrip_by isspace (lstrip_by isspace s).

(** [s.strip(chars)] *)
Definition strip_chars (chars : list ascii) (s : string) : string :=
  rstrip_by (fun c => mem_ascii c chars) (lstrip_by (fun c => mem_ascii c chars) s).

(** [s.replace(old, new)] for a non-empty [old]: occurrences are taken
    left to right and do not overlap.  [skip] counts the characters of
    the current occurrence that are still to be dropped. *)
Fixpoint replace_go (old new : string) (skip : nat) (s : string) : string :=
  match skip with
  | S k =>
      match s with
      | EmptyString => EmptyString
      | String _ s' => replace_go old new k s'
      end
  | 0 =>
      match s with
      | EmptyString => EmptyString
      | String a s' =>
          if startswith old s
          then new +:+ replace_go old new (String.length old - 1) s'
          else String a (replace_go old new 0 s')
      end
  end.

Definition replace (old new s : string) : string := replace_go old new 0 s.

(** [s.split(sep)] for a non-empty [sep]; also [re.split(sep, s)] when
    [sep] is a pattern without metacharacters.  [cur] holds the piece
    being read, reversed. *)
Fixpoint split_go (sep : string) (skip : nat) (cur : string) (s : string)
  : list string :=
  match skip with
  | S k =>
      match s with
      | EmptyString => [String.rev cur]
      | String _ s' => split_go sep k cur s'
      end
  | 0 =>
      match s with
      | EmptyString => [String.rev cur]
      | String a s' =>
          if startswith sep s
          then String.rev cur :: split_go sep (String.length sep - 1) EmptyString s'
          else split_go sep 0 (String a cur) s'
      end
  end.

Definition split (sep s : string) : list string := split_go sep 0 EmptyString s.

(** [sep.join(l)] *)
Fixpoint join (sep : string) (l : list string) : string :=
  match l with
  | [] => EmptyString
  | [x] => x
  | x :: l' => x +:+ sep +:+ join sep l'
  end.

End Py.

(** ** Regular expressions

    The fragment of Python's [re] syntax that the source uses.  A
    repetition is always over a single character class, so the matcher
    is structurally recursive.  The flags [re.DOTALL] and [re.MULTILINE]
    are part of the constructors they affect: [CDot] is [.] without
    DOTALL and [CAny] is [.] with it; [RBol] and [REol] carry the
    MULTILINE flag. *)

Module Regex.

Inductive charset : Type :=
| CAny                         (* .  under DOTALL *)
| CDot                         (* .  without DOTALL *)
| CSpace                       (* \s *)
| COneOf (l : list ascii)      (* [...] *)
| CNoneOf (l : list ascii).    (* [^...] *)

Inductive regex : Type :=
| RLit (s : string)                    (* literal text *)
| RSet (c : charset)                   (* one character *)
| RStar (lazy : bool) (c : charset)    (* c*? when lazy, c* otherwise *)
| ROpt (r : regex)                     (* (?:r)? *)
| RCat (r1 r2 : regex)
| RAlt (r1 r2 : regex)                 (* r1|r2 *)
| RGroup (n : nat) (r : regex)         (* capturing group number n *)
| RBol (multiline : bool)              (* ^ *)
| REol (multiline : bool)              (* $ *)
| REnd.                                (* \Z *)

(** [c+] and [c+?] *)
Definition RPlus (lazy : bool) (c : charset) : regex :=
  RCat (RSet c) (RStar lazy c).

Fixpoint RSeq (l : list regex) : regex :=
  match l with
  | [] => RLit EmptyString
  | [r] => r
  | r :: l' => RCat r (RSeq l')
  end.

Definition cs_mem (c : charset) (a : ascii) : bool :=
  match c with
  | CAny => true
  | CDot => negb (Ascii.eqb a Py.nl)
  | CSpace => Py.isspace a
  | COneOf l => Py.mem_ascii a l
  | CNoneOf l => negb (Py.mem_ascii a l)
  end.

(** The matcher's state: the character before the current position,
    the position, the text still to be read, and the groups captured
    so far (most recent first). *)
Record mstate : Type := MState {
  m_prev : option ascii;
  m_pos : nat;
  m_rest : string;
  m_caps : list (nat * string)
}.

Definition last_char (s : string) (d : option ascii) : option ascii :=
  match String.rev s with
  | EmptyString => d
  | String a _ => Some a
  end.

Definition at_bol (multiline : bool) (st : mstate) : bool :=
  (m_pos st =? 0)%nat ||
  (multiline && match m_prev st with Some a => Ascii.eqb a Py.nl | None => false end).

Definition at_eol (multiline : bool) (st : mstate) : bool :=
  match m_rest st with
  | EmptyString => true
  | String a EmptyString => Ascii.eqb a Py.nl
  | String a _ => multiline && Ascii.eqb a Py.nl
  end.

Definition at_end (st : mstate) : bool :=
  match m_rest st with EmptyString => true | _ => false end.

Definition or_else {A} (x : option A) (y : unit -> option A) : option A :=
  match x with Some v => Some v | None => y tt end.

(** Repetition of a character class, followed by the continuation [k].
    The lazy form tries [k] before reading a character, the greedy form
    after. *)
Fixpoint star (lazy : bool) (c : charset) (k : mstate -> option mstate)
    (prev : option ascii) (pos : nat) (caps : list (nat * string))
    (rest : string) {struct rest} : option mstate :=
  let more (_ : unit) :=
    match rest with
    | String a rest' =>
        if cs_mem c a then star lazy c k (Some a) (S pos) caps rest' else None
    | EmptyString => None
    end in
  let here (_ : unit) := k (MState prev pos rest caps) in
  if lazy then or_else (here tt) more else or_else (more tt) here.

Fixpoint rmatch (r : regex) (k : mstate -> option mstate) (st : mstate)
  : option mstate :=
  match r with
  | RLit s =>
      match Py.strip_prefix s (m_rest st) with
      | Some rest' =>
          k (MState (last_char s (m_prev st)) (m_pos st + String.length s)
               rest' (m_caps st))
      | None => None
      end
  | RSet c =>
      match m_rest st with
      | String a rest' =>
          if cs_mem c a
          then k (MState (Some a) (S (m_pos st)) rest' (m_caps st))
          else None
      | EmptyString => None
      end
  | RStar lazy c => star lazy c k (m_prev st) (m_pos st) (m_caps st) (m_rest st)
  | ROpt r1 => or_else (rmatch r1 k st) (fun _ => k st)
  | RCat r1 r2 => rmatch r1 (rmatch r2 k) st
  | RAlt r1 r2 => or_else (rmatch r1 k st) (fun _ => rmatch r2 k st)
  | RGroup n r1 =>
      rmatch r1
        (fun st' =>
           k (MState (m_prev st') (m_pos st') (m_rest st')
                ((n, Py.take (m_pos st' - m_pos st) (m_rest st)) :: m_caps st')))
        st
  | RBol ml => if at_bol ml st then k st else None
  | REol ml => if at_eol ml st then k st else None
  | REnd => if at_end st then k st else None
  end.

(** A match object: where the match starts and ends, and its groups. *)
Record rmatch_obj : Type := MatchObj {
  mo_start : nat;
  mo_end : nat;
  mo_caps : list (nat * string)
}.

(** [m.group(n)] for n >= 1; [None] when the group took no part. *)
Fixpoint assoc (n : nat) (l : list (nat * string)) : option string :=
  match l with
  | [] => None
  | (i, s) :: l' => if (i =? n)%nat then Some s else assoc n l'
  end.

Definition group (m : rmatch_obj) (n : nat) : option string := assoc n (mo_caps m).

(** The leftmost match at or after the current position. *)
Fixpoint search_from (r : regex) (prev : option ascii) (pos : nat)
    (rest : string) {struct rest} : option rmatch_obj :=
  match rmatch r Some (MState prev pos rest []) with
  | Some st => Some (MatchObj pos (m_pos st) (m_caps st))
  | None =>
      match rest with
      | String a rest' => search_from r (Some a) (S pos) rest'
      | EmptyString => None
      end
  end.

(** [re.search(r, s)] *)
Definition search (r : regex) (s : string) : option rmatch_obj :=
  search_from r None 0 s.

(** [re.finditer(r, s)]: successive non-overlapping matches.  After a
    match the scan resumes where it ended, or one character further on
    when the match was empty.  [fuel] bounds the number of matches. *)
Fixpoint finditer_from (fuel : nat) (r : regex) (prev : option ascii)
    (pos : nat) (rest : string) : list rmatch_obj :=
  match fuel with
  | 0 => []
  | S fuel' =>
      match search_from r prev pos rest with
      | None => []
      | Some m =>
          let next := Nat.max (mo_end m) (S (mo_start m)) in
          let consumed := Py.take (next - pos) rest in
          m :: (if (String.length rest <? next - pos)%nat then []
                else finditer_from fuel' r (last_char consumed prev) next
                       (Py.drop (next - pos) rest))
      end
  end.

Definition finditer (r : regex) (s : string) : list rmatch_obj :=
  finditer_from (S (String.length s)) r None 0 s.

End Regex.

(** ** POSIX path functions of [os.path] *)

Module OsPath.

(** [os.path.join(a, b)] *)
Definition join (a b : string) : string :=
  if Py.startswith "/" b then b
  else if negb (Py.truthy a) || Py.endswith "/" a then a +:+ b
  else a +:+ "/" +:+ b.

Definition join_all (a : string) (l : list string) : string := fold_left join l a.

(** The text after the last slash; [cur] is the candidate read so far,
    reversed. *)
Fixpoint basename_go (cur : string) (s : string) : string :=
  match s with
  | EmptyString => String.rev cur
  | String a s' =>
      if Ascii.eqb a "/" then basename_go EmptyString s'
      else basename_go (String a cur) s'
  end.

(** [os.path.basename(p)] *)
Definition basename (p : string) : string := basename_go EmptyString p.

(** [os.path.dirname(p)]: the head up to the last slash, without its
    trailing slashes unless it consists of slashes only. *)
Definition dirname (p : string) : string :=
  let head := Py.take (String.length p - String.length (basename p)) p in
  match Py.rstrip_by (fun c => Ascii.eqb c "/") head with
  | EmptyString => head
  | h => h
  end.

End OsPath.

(** ** The README extractor: [class ReadmeParser] *)

Module Readme.

Import Regex.

(** The text of group [n] of a match in which the group took part. *)
Definition group_str (m : rmatch_obj) (n : nat) : string :=
  default EmptyString (group m n).

(** *** Data model *)

(** One entry of the inputs mapping.  The key ["default"] is present
    only when a default was found; ["required"] is added by the section
    parser. *)
Record input_entry : Type := InputEntry {
  in_name : string;
  in_description : string;
  in_type : string;
  in_default : option string;
  in_required : option bool
}.

Record output_entry : Type := OutputEntry {
  out_name : string;
  out_description : string
}.

(** A provider requirement: [{"source": ..., "version": ...}]. *)
Record provider : Type := Provider {
  source : string;
  version : string
}.

(** The object stored under ["terraform"] in [module_requirements];
    each key is present only when it has something to hold. *)
Record terraform_block : Type := TerraformBlock {
  required_version : option string;
  required_providers : option (gmap string provider)
}.

(** One entry of the submodules mapping.  The entries made by [main]
    carry a ["path"], those made by [process_submodules] do not. *)
Record submodule_doc : Type := SubmoduleDoc {
  sub_name : string;
  sub_path : option string;
  sub_description : string;
  sub_inputs : gmap string input_entry;
  sub_outputs : gmap string output_entry
}.

(** The object stored under the module's name in the result of
    [parse].  [None] stands for an absent key. *)
Record module_doc : Type := ModuleDoc {
  md_name : string;
  md_description : string;
  md_inputs : gmap string input_entry;
  md_outputs : gmap string output_entry;
  md_module_requirements : option terraform_block;
  md_submodules : option (gmap string submodule_doc)
}.

(** The fields of a [ReadmeParser] object. *)
Record parser : Type := Parser {
  readme_path : string;
  content : string;
  required_inputs : gmap string input_entry;
  optional_inputs : gmap string input_entry;
  outputs : gmap string output_entry;
  submodules : gmap string submodule_doc;
  module_name : string
}.

(** [ReadmeParser(readme_path)] *)
Definition new_parser (path : string) : parser :=
  {| readme_path := path;
     content := EmptyString;
     required_inputs := ∅;
     optional_inputs := ∅;
     outputs := ∅;
     submodules := ∅;
     module_name := Py.replace "_README.md" EmptyString (OsPath.basename path) |}.

Definition set_content (c : string) (p : parser) : parser :=
  {| readme_path := readme_path p; content := c;
     required_inputs := required_inputs p; optional_inputs := optional_inputs p;
     outputs := outputs p; submodules := submodules p;
     module_name := module_name p |}.

(** [set_submodules(submodules_data)] *)
Definition set_submodules (d : gmap string submodule_doc) (p : parser) : parser :=
  {| readme_path := readme_path p; content := content p;
     required_inputs := required_inputs p; optional_inputs := optional_inputs p;
     outputs := outputs p; submodules := d;
     module_name := module_name p |}.

(** *** Patterns *)

(** In the comments below a pattern of the source is quoted between
    square brackets and [<dq>] stands for the double-quote character. *)

(** The characters that are special in a pattern of Python's [re]. *)
Definition regex_special : list ascii :=
  ["\"%char; "."%char; "^"%char; "$"%char; "*"%char; "+"%char; "?"%char;
   "{"%char; "}"%char; "["%char; "]"%char; "|"%char; "("%char; ")"%char].

(** The name has no special character: spliced into a pattern, it
    stands for itself. *)
Fixpoint literal_name (s : string) : bool :=
  match s with
  | EmptyString => true
  | String a s' => negb (Py.mem_ascii a regex_special) && literal_name s'
  end.

(** [## {section_name}(.*?)(?:^##\s|\Z)] with DOTALL and MULTILINE.
    The source splices the section name into the pattern as it is.  The
    model takes the name as literal text, which is what the pattern
    means for a name without a special character ([literal_name]);
    every caller in the program passes such a name, made of letters and
    spaces.  For a name with a special character the pattern of the
    source means something else, or is refused by [re]: such names are
    outside the model, and a property of [extract_section] that holds
    for every name is stated for literal names only. *)
Definition section_re (section_name : string) : regex :=
  RSeq [RLit ("## " +:+ section_name);
        RGroup 1 (RStar true CAny);
        RAlt (RSeq [RBol true; RLit "##"; RSet CSpace]) REnd].

(** [```hcl\n(.*?)```] with DOTALL *)
Definition hcl_re : regex :=
  RSeq [RLit ("```hcl" +:+ Py.NL); RGroup 1 (RStar true CAny); RLit "```"].

(** [### <a name=<dq>input_(.*?)<dq>></a> \[(.*?)\]] *)
Definition input_name_re : regex :=
  RSeq [RLit ("### <a name=" +:+ Py.DQ +:+ "input_");
        RGroup 1 (RStar true CDot);
        RLit (Py.DQ +:+ "></a> [");
        RGroup 2 (RStar true CDot);
        RLit "]"].

(** [### <a name=<dq>output_(.*?)<dq>></a> \[(.*?)\]] *)
Definition output_name_re : regex :=
  RSeq [RLit ("### <a name=" +:+ Py.DQ +:+ "output_");
        RGroup 1 (RStar true CDot);
        RLit (Py.DQ +:+ "></a> [");
        RGroup 2 (RStar true CDot);
        RLit "]"].

(** [Description: (.*?)(?:Type:|$)] with DOTALL *)
Definition input_desc_re : regex :=
  RSeq [RLit "Description: "; RGroup 1 (RStar true CAny);
        RAlt (RLit "Type:") (REol false)].

(** [Description: (.*?)(?:$)] with DOTALL *)
Definition output_desc_re : regex :=
  RSeq [RLit "Description: "; RGroup 1 (RStar true CAny); REol false].

(** [Type: `(.*?)`] *)
Definition type_re : regex :=
  RSeq [RLit "Type: `"; RGroup 1 (RStar true CDot); RLit "`"].

(** [Default: `(.*?)`] *)
Definition default_re : regex :=
  RSeq [RLit "Default: `"; RGroup 1 (RStar true CDot); RLit "`"].

(** [<a name=<dq>requirement_([^<dq>]+)<dq>></a>] *)
Definition requirement_name_re : regex :=
  RSeq [RLit ("<a name=" +:+ Py.DQ +:+ "requirement_");
        RGroup 1 (RPlus false (CNoneOf [Py.dquote]));
        RLit (Py.DQ +:+ "></a>")].

(** [\(([^)]+)\)$] *)
Definition requirement_version_re : regex :=
  RSeq [RLit "("; RGroup 1 (RPlus false (CNoneOf [")"%char])); RLit ")";
        REol false].

(** The pattern of [process_submodules], with MULTILINE: a name in
    backticks, in single quotes, in double quotes, or a list item. *)
Definition submodule_re : regex :=
  let quotes := ["`"%char; Py.squote; Py.dquote] in
  RAlt (RSeq [RLit "`"; RGroup 1 (RPlus false (CNoneOf ["`"%char])); RLit "`"])
 (RAlt (RSeq [RSet (COneOf [Py.squote]);
              RGroup 2 (RPlus false (CNoneOf [Py.squote]));
              RSet (COneOf [Py.squote])])
 (RAlt (RSeq [RLit Py.DQ; RGroup 3 (RPlus false (CNoneOf [Py.dquote])); RLit Py.DQ])
       (RSeq [RAlt (RBol true) (RLit Py.NL);
              RLit "-"; RPlus false CSpace;
              ROpt (RSet (COneOf quotes));
              RGroup 4 (RPlus false (CNoneOf (":"%char :: quotes ++ [Py.nl])));
              ROpt (RSet (COneOf quotes));
              RAlt (RLit ":") (REol true)]))).

(** *** Section and entry parsing *)

(** [extract_section(section_name)] on the parser's content *)
Definition extract_section (content : string) (section_name : string) : string :=
  match search (section_re section_name) content with
  | Some m => Py.strip (group_str m 1)
  | None => EmptyString
  end.

(** [extract_hcl_block(text)] *)
Definition extract_hcl_block (text : string) : string :=
  match search hcl_re text with
  | Some m => Py.strip (group_str m 1)
  | None => EmptyString
  end.

(** [parse_input_entry(entry)]; [None] is the empty dict. *)
Definition parse_input_entry (entry : string) : option input_entry :=
  match search input_name_re entry with
  | None => None
  | Some name_match =>
      let input_name := Py.replace "\" EmptyString (group_str name_match 2) in
      let description :=
        match search input_desc_re entry with
        | Some desc_match => Py.strip (group_str desc_match 1)
        | None => EmptyString
        end in
      let type_value :=
        match search type_re entry with
        | Some type_match => group_str type_match 1
        | None => EmptyString
        end in
      let hcl_block := extract_hcl_block entry in
      let type_value := if Py.truthy hcl_block then Py.strip hcl_block else type_value in
      let default_value :=
        match search default_re entry with
        | Some default_match => Some (group_str default_match 1)
        | None => None
        end in
      Some {| in_name := input_name;
              in_description := description;
              in_type := type_value;
              in_default := default_value;
              in_required := None |}
  end.

(** [parse_output_entry(entry)]; [None] is the empty dict. *)
Definition parse_output_entry (entry : string) : option output_entry :=
  match search output_name_re entry with
  | None => None
  | Some name_match =>
      let output_name := Py.replace "\" EmptyString (group_str name_match 2) in
      let description :=
        match search output_desc_re entry with
        | Some desc_match => Py.strip (group_str desc_match 1)
        | None => EmptyString
        end in
      Some {| out_name := output_name; out_description := description |}
  end.

Definition input_split : string := "### <a name=" +:+ Py.DQ +:+ "input_".
Definition output_split : string := "### <a name=" +:+ Py.DQ +:+ "output_".

Definition set_required (b : bool) (e : input_entry) : input_entry :=
  {| in_name := in_name e; in_description := in_description e;
     in_type := in_type e; in_default := in_default e;
     in_required := Some b |}.

(** The body of the loop of [parse_inputs_section]. *)
Definition inputs_step (is_required : bool)
    (result : gmap string input_entry) (entry : string)
  : gmap string input_entry :=
  match parse_input_entry (input_split +:+ entry) with
  | Some parsed_entry =>
      <[in_name parsed_entry := set_required is_required parsed_entry]> result
  | None => result
  end.

(** [parse_inputs_section(section_text, is_required)] *)
Definition parse_inputs_section (section_text : string) (is_required : bool)
  : gmap string input_entry :=
  let entries := Py.split input_split section_text in
  fold_left (inputs_step is_required) (tail entries) ∅.

Definition outputs_step (result : gmap string output_entry) (entry : string)
  : gmap string output_entry :=
  match parse_output_entry (output_split +:+ entry) with
  | Some parsed_entry => <[out_name parsed_entry := parsed_entry]> result
  | None => result
  end.

(** [parse_outputs_section(section_text)] *)
Definition parse_outputs_section (section_text : string)
  : gmap string output_entry :=
  let entries := Py.split output_split section_text in
  fold_left outputs_step (tail entries) ∅.

(** *** Requirements *)

(** The tests made on one line of the Requirements section: the three
    substring tests, the name pattern on the line, and the version
    pattern on the stripped line.  The result is the requirement's name
    and its stripped version, or [None] when the line is passed over. *)
Definition parse_requirement_line (line : string) : option (string * string) :=
  if Py.contains ("<a name=" +:+ Py.DQ +:+ "requirement_") line
     && Py.contains "(" line && Py.contains ")" line
  then
    match search requirement_name_re line with
    | None => None
    | Some name_match =>
        let req_name := group_str name_match 1 in
        match search requirement_version_re (Py.strip line) with
        | None => None
        | Some version_match =>
            let req_version := Py.strip (group_str version_match 1) in
            Some (req_name, req_version)
        end
    end
  else None.

(** The two variables that the loop over the lines updates. *)
Record req_state : Type := ReqState {
  terraform_version : option string;
  providers : gmap string provider
}.

Definition provider_source (req_name : string) : string :=
  if String.eqb req_name "modtm" then "azure/modtm" else "hashicorp/" +:+ req_name.

Definition record_requirement (st : req_state) (req_name req_version : string)
  : req_state :=
  if String.eqb req_name "terraform"
  then {| terraform_version := Some req_version; providers := providers st |}
  else {| terraform_version := terraform_version st;
          providers :=
            <[req_name := {| source := provider_source req_name;
                             version := req_version |}]> (providers st) |}.

Definition requirements_step (st : req_state) (line : string) : req_state :=
  match parse_requirement_line line with
  | Some (req_name, req_version) => record_requirement st req_name req_version
  | None => st
  end.

Definition dict_truthy {V} (m : gmap string V) : bool := negb (size m =? 0)%nat.

(** The construction of [module_requirements] after the loop; [None]
    is the empty dict, [Some b] is the dict that maps ["terraform"] to [b]. *)
Definition build_requirements (st : req_state) : option terraform_block :=
  if Py.truthy_opt (terraform_version st) || dict_truthy (providers st)
  then Some {| required_version :=
                 if Py.truthy_opt (terraform_version st)
                 then terraform_version st else None;
               required_providers :=
                 if dict_truthy (providers st)
                 then Some (providers st) else None |}
  else None.

(** [parse_requirements_section(section)] *)
Definition parse_requirements_section (section : string) : option terraform_block :=
  if negb (Py.truthy section) then None
  else
    let lines := Py.split Py.NL section in
    build_requirements
      (fold_left requirements_step lines
         {| terraform_version := None; providers := ∅ |}).

(** *** Assembling the result *)

(** [{**a, **b}]: the entries of [b] override those of [a]. *)
Definition dict_merge {V} (a b : gmap string V) : gmap string V := b ∪ a.

Definition set_sections (req opt : gmap string input_entry)
    (outs : gmap string output_entry) (p : parser) : parser :=
  {| readme_path := readme_path p; content := content p;
     required_inputs := req; optional_inputs := opt; outputs := outs;
     submodules := submodules p; module_name := module_name p |}.

(** [m.groups()] filtered for the first group that took part. *)
Definition first_group (m : rmatch_obj) : option string :=
  find (fun g => bool_decide (is_Some g)) [group m 1; group m 2; group m 3; group m 4]
    ≫= id.

Section WithFiles.

(** The readable files: path to content. *)
Variable fs : gmap string string.

(** [os.path.exists(path)] *)
Definition exists_file (path : string) : bool := bool_decide (is_Some (fs !! path)).

(** [read_file()]: a file that cannot be read leaves the content as
    it is. *)
Definition read_file (p : parser) : parser :=
  match fs !! readme_path p with
  | Some text => set_content text p
  | None => p
  end.

(** The body of the loop of [process_submodules]. *)
Definition process_submodule (base_dir : string)
    (subs : gmap string submodule_doc) (m : rmatch_obj)
  : gmap string submodule_doc :=
  match first_group m with
  | None => subs
  | Some submodule_name =>
      if negb (Py.truthy submodule_name) then subs
      else
        let potential_paths :=
          [OsPath.join_all base_dir ["modules"; submodule_name; "README.md"];
           OsPath.join_all base_dir [submodule_name; "README.md"];
           OsPath.join_all base_dir ["modules"; submodule_name; "README.md"]] in
        match find exists_file potential_paths with
        | None => subs
        | Some submodule_readme_path =>
            let submodule_parser := read_file (new_parser submodule_readme_path) in
            let text := content submodule_parser in
            let required_inputs := extract_section text "Required Inputs" in
            let optional_inputs := extract_section text "Optional Inputs" in
            let outputs := extract_section text "Outputs" in
            let req_inputs_data := parse_inputs_section required_inputs true in
            let opt_inputs_data := parse_inputs_section optional_inputs false in
            let outputs_data := parse_outputs_section outputs in
            let all_inputs := dict_merge req_inputs_data opt_inputs_data in
            <[submodule_name :=
                {| sub_name := submodule_name;
                   sub_path := None;
                   sub_description := EmptyString;
                   sub_inputs := all_inputs;
                   sub_outputs := outputs_data |}]> subs
        end
  end.

(** [process_submodules(submodules_section)] *)
Definition process_submodules (submodules_section : string) (p : parser) : parser :=
  let submodule_matches := finditer submodule_re submodules_section in
  let base_dir := OsPath.dirname (readme_path p) in
  set_submodules
    (fold_left (process_submodule base_dir) submodule_matches (submodules p)) p.

(** [parse()]: the result, a dict with the module's name as its only
    key, and the parser after the call. *)
Definition parse (p : parser) : gmap string module_doc * parser :=
  let p := if negb (Py.truthy (content p)) then read_file p else p in
  let requirements_section := extract_section (content p) "Requirements" in
  let required_inputs_section := extract_section (content p) "Required Inputs" in
  let optional_inputs_section := extract_section (content p) "Optional Inputs" in
  let outputs_section := extract_section (content p) "Outputs" in
  let submodules_section := extract_section (content p) "Submodules" in
  let p := set_sections (parse_inputs_section required_inputs_section true)
             (parse_inputs_section optional_inputs_section false)
             (parse_outputs_section outputs_section) p in
  let module_requirements := parse_requirements_section requirements_section in
  let p := if Py.truthy submodules_section
           then process_submodules submodules_section p else p in
  let all_inputs := dict_merge (required_inputs p) (optional_inputs p) in
  let result :=
    {[ module_name p :=
         {| md_name := module_name p;
            md_description := EmptyString;
            md_inputs := all_inputs;
            md_outputs := outputs p;
            md_module_requirements := module_requirements;
            md_submodules :=
              if dict_truthy (submodules p) then Some (submodules p) else None |} ]} in
  (result, p).

(** [parse_readme_directly(readme_path)]: the inputs and the outputs
    of a README on disk, both empty when it cannot be read. *)
Definition parse_readme_directly (path : string)
  : gmap string input_entry * gmap string output_entry :=
  match fs !! path with
  | None => (∅, ∅)
  | Some readme_content =>
      let required_inputs_section := extract_section readme_content "Required Inputs" in
      let optional_inputs_section := extract_section readme_content "Optional Inputs" in
      let outputs_section := extract_section readme_content "Outputs" in
      let required_inputs := parse_inputs_section required_inputs_section true in
      let optional_inputs := parse_inputs_section optional_inputs_section false in
      let outputs := parse_outputs_section outputs_section in
      (dict_merge required_inputs optional_inputs, outputs)
  end.

End WithFiles.

End Readme.

(** ** Registry mode: [class TerraformRegistryFetcher] and [main] *)

Module Registry.

Import Regex Readme.

(** *** The environment of a run *)

(** What [requests.get(url)] does: it raises a [RequestException], or
    it returns a response with a status code and a body. *)
Inductive http_result : Type :=
| RequestError
| Response (status_code : nat) (text : string).

(** The part of the environment that a run reads but does not change.
    [json_source body] is [response.json().get("source", "")], [None]
    when decoding the body raises; [writable path] tells whether the
    file at [path] can be created and written. *)
Record world : Type := World {
  http_get : string -> http_result;
  json_source : string -> option string;
  writable : string -> bool;
  cwd : string;
  script_dir : string
}.

(** The fields of a [TerraformRegistryFetcher] object. *)
Record fetcher : Type := Fetcher {
  f_module_name : string;
  f_namespace : string;
  f_name : string;
  f_provider : string;
  github_repo : option string;
  source_url : option string;
  repo_branch : option string
}.

(** The state that a run threads through its calls: the fetcher, the
    files on disk (by absolute path), and the URLs requested so far,
    oldest first. *)
Record rstate : Type := RState {
  st_fetcher : fetcher;
  st_files : gmap string string;
  st_requests : list string
}.

Definition M (A : Type) : Type := rstate -> A * rstate.

Definition ret {A} (a : A) : M A := fun st => (a, st).

Definition bind {A B} (c : M A) (k : A -> M B) : M B :=
  fun st => let '(a, st') := c st in k a st'.

Notation "'do' x <- c ;; k" := (bind c (fun x => k))
  (at level 10, x pattern, c at level 99, k at level 200).
Notation "'run' c ;; k" := (bind c (fun _ => k))
  (at level 10, c at level 99, k at level 200).

Definition get_fetcher : M fetcher := fun st => (st_fetcher st, st).

Definition get_files : M (gmap string string) := fun st => (st_files st, st).

Definition modify_fetcher (f : fetcher -> fetcher) : M unit :=
  fun st => (tt, {| st_fetcher := f (st_fetcher st);
                    st_files := st_files st;
                    st_requests := st_requests st |}).

Definition set_repo_branch (b : string) (f : fetcher) : fetcher :=
  {| f_module_name := f_module_name f; f_namespace := f_namespace f;
     f_name := f_name f; f_provider := f_provider f;
     github_repo := github_repo f; source_url := source_url f;
     repo_branch := Some b |}.

Definition set_repo (repo url : string) (f : fetcher) : fetcher :=
  {| f_module_name := f_module_name f; f_namespace := f_namespace f;
     f_name := f_name f; f_provider := f_provider f;
     github_repo := Some repo; source_url := Some url;
     repo_branch := repo_branch f |}.

Definition registry_base_url : string := "https://registry.terraform.io".
Definition github_raw_base_url : string := "https://raw.githubusercontent.com".

Section Run.

Variable w : world.

(** [requests.get(url)]: the request is recorded. *)
Definition request (url : string) : M http_result :=
  fun st => (http_get w url,
             {| st_fetcher := st_fetcher st;
                st_files := st_files st;
                st_requests := st_requests st ++ [url] |}).

(** [os.makedirs] and [open(path, 'w')] followed by [write]: [true]
    when the file was written, [false] when an exception was raised. *)
Definition write_file (path text : string) : M bool :=
  fun st =>
    if writable w (OsPath.join (cwd w) path)
    then (true, {| st_fetcher := st_fetcher st;
                   st_files := <[OsPath.join (cwd w) path := text]> (st_files st);
                   st_requests := st_requests st |})
    else (false, st).

(** *** The fetcher *)

(** [_parse_module_name]; [None] is the [ValueError]. *)
Definition parse_module_name (module_name : string)
  : option (string * string * string) :=
  match Py.split "/" module_name with
  | [a; b; c] => Some (a, b, c)
  | _ => None
  end.

(** [TerraformRegistryFetcher(module_name)] *)
Definition new_fetcher (module_name : string) : option fetcher :=
  match parse_module_name module_name with
  | Some (ns, name, prov) =>
      Some {| f_module_name := module_name; f_namespace := ns;
              f_name := name; f_provider := prov;
              github_repo := None; source_url := None; repo_branch := None |}
  | None => None
  end.

Definition registry_api_url (f : fetcher) : string :=
  registry_base_url +:+ "/v1/modules/" +:+ f_namespace f +:+ "/" +:+ f_name f
    +:+ "/" +:+ f_provider f.

(** [raise_for_status()] raises for the codes 400 to 599. *)
Definition is_error_status (code : nat) : bool :=
  ((400 <=? code) && (code <? 600))%nat.

(** [fetch_module_source()] *)
Definition fetch_module_source : M (option string) :=
  do f <- get_fetcher ;;
  do resp <- request (registry_api_url f) ;;
  match resp with
  | RequestError => ret None
  | Response code body =>
      if is_error_status code then ret None
      else
        match json_source w body with
        | None => ret None
        | Some src => if Py.truthy src then ret (Some src) else ret None
        end
  end.

(** [github\.com[:/]([^/]+/[^/]+)(?:\.git)?$] and
    [github\.com/([^/]+/[^/]+)] *)
Definition owner_repo : regex :=
  RSeq [RPlus false (CNoneOf ["/"%char]); RLit "/"; RPlus false (CNoneOf ["/"%char])].

Definition github_patterns : list regex :=
  [RSeq [RLit "github.com"; RSet (COneOf [":"%char; "/"%char]);
         RGroup 1 owner_repo; ROpt (RLit ".git"); REol false];
   RSeq [RLit "github.com/"; RGroup 1 owner_repo]].

Fixpoint first_match (patterns : list regex) (s : string) : option rmatch_obj :=
  match patterns with
  | [] => None
  | p :: rest =>
      match search p s with
      | Some m => Some m
      | None => first_match rest s
      end
  end.

(** [extract_github_repo(source_url)] *)
Definition extract_github_repo (src : string) : M (option string) :=
  match first_match github_patterns src with
  | Some m =>
      let repo := Py.replace ".git" EmptyString (group_str m 1) in
      run modify_fetcher (set_repo repo src) ;;
      ret (Some repo)
  | None => ret None
  end.

(** The body of a response when the request raised nothing and
    [response.status_code == 200]. *)
Definition ok_text (resp : http_result) : option string :=
  match resp with
  | Response code text => if (code =? 200)%nat then Some text else None
  | RequestError => None
  end.

(** The loop of [fetch_readme_content] over the candidate paths. *)
Fixpoint try_readme_paths (readme_paths : list string)
  : M (option (string * string)) :=
  match readme_paths with
  | [] => ret None
  | path :: rest =>
      let url := github_raw_base_url +:+ "/" +:+ path in
      do resp <- request url ;;
      match ok_text resp with
      | Some text =>
          let branch := if Py.contains "main" url then "main" else "master" in
          run modify_fetcher (set_repo_branch branch) ;;
          ret (Some (text, branch))
      | None => try_readme_paths rest
      end
  end.

Definition readme_paths (repo path : string) : list string :=
  if Py.truthy path
  then
    let readme_path :=
      if Py.endswith "README.md" path then path
      else OsPath.join path "README.md" in
    [repo +:+ "/main/" +:+ readme_path; repo +:+ "/master/" +:+ readme_path]
  else
    [repo +:+ "/main/README.md"; repo +:+ "/master/README.md"].

(** [fetch_readme_content(github_repo, path)]: the text and the
    branch, or [None]. *)
Definition fetch_readme_content (repo path : string)
  : M (option (string * string)) :=
  try_readme_paths (readme_paths repo path).

(** [fetch_and_save_readme()] *)
Definition fetch_and_save_readme : M (option string) :=
  do src <- fetch_module_source ;;
  match src with
  | None => ret None
  | Some src =>
      do repo <- extract_github_repo src ;;
      match repo with
      | None => ret None
      | Some repo =>
          if negb (Py.truthy repo) then ret None
          else
            do readme_result <- fetch_readme_content repo EmptyString ;;
            match readme_result with
            | None => ret None
            | Some (readme_content, _) =>
                do f <- get_fetcher ;;
                let module_filename := Py.replace "-" "_" (f_name f) in
                let readme_filename :=
                  "working/" +:+ module_filename +:+ "_README.md" in
                do ok <- write_file readme_filename readme_content ;;
                ret (if ok then Some readme_filename else None)
            end
      end
  end.

(** [fetch_submodule_readme(submodule_path, submodule_name)] *)
Definition fetch_submodule_readme (submodule_path submodule_name : string)
  : M (option string) :=
  do f <- get_fetcher ;;
  match github_repo f with
  | None => ret None
  | Some repo =>
      if negb (Py.truthy repo) then ret None
      else
        let submodule_path := Py.strip_chars ["/"%char] submodule_path in
        let submodule_path :=
          if Py.startswith "./" submodule_path
          then Py.drop 2 submodule_path else submodule_path in
        do readme_result <- fetch_readme_content repo submodule_path ;;
        match readme_result with
        | None => ret None
        | Some (readme_content, _) =>
            let module_base := Py.replace "-" "_" (f_name f) in
            let submodule_safe_name :=
              Py.replace "/" "_" (Py.replace "-" "_" submodule_name) in
            let readme_filename :=
              "working/" +:+ module_base +:+ "_" +:+ submodule_safe_name
                +:+ "_README.md" in
            do ok <- write_file readme_filename readme_content ;;
            ret (if ok then Some readme_filename else None)
        end
  end.

(** *** [main] *)

(** One element of [submodule_infos]. *)
Record submodule_info : Type := SubmoduleInfo {
  info_id : string;
  info_name : string;
  info_path : string;
  info_description : string
}.

(** [### <a name=<dq>module_(.*?)<dq>></a> \[(.*?)\].*?Source: (.*?)(?:\n\n|\Z)]
    with DOTALL *)
Definition module_re : regex :=
  RSeq [RLit ("### <a name=" +:+ Py.DQ +:+ "module_");
        RGroup 1 (RStar true CAny);
        RLit (Py.DQ +:+ "></a> [");
        RGroup 2 (RStar true CAny);
        RLit "]";
        RStar true CAny;
        RLit "Source: ";
        RGroup 3 (RStar true CAny);
        RAlt (RLit (Py.NL +:+ Py.NL)) REnd].

Definition submodule_info_of (m : rmatch_obj) : submodule_info :=
  let module_id := Py.strip (group_str m 1) in
  let name := Py.strip (group_str m 2) in
  let source_path := Py.strip (group_str m 3) in
  let source_path :=
    if Py.startswith "./" source_path then Py.drop 2 source_path else source_path in
  {| info_id := module_id; info_name := name; info_path := source_path;
     info_description := EmptyString |}.

(** The first loop over the Modules section: [submodule_infos]. *)
Definition discover_submodules (modules_section : string) : list submodule_info :=
  map submodule_info_of (finditer module_re modules_section).

(** The body of the second loop: fetch, parse, store. *)
Definition submodule_step (submodules_data : gmap string submodule_doc)
    (info : submodule_info) : M (gmap string submodule_doc) :=
  let submodule_name := info_name info in
  let submodule_path := info_path info in
  do submodule_readme_path <- fetch_submodule_readme submodule_path submodule_name ;;
  if negb (Py.truthy_opt submodule_readme_path) then ret submodules_data
  else
    let submodule_readme_path :=
      OsPath.join (script_dir w) (default EmptyString submodule_readme_path) in
    do files <- get_files ;;
    let parsed_data := parse_readme_directly files submodule_readme_path in
    ret (<[submodule_name :=
             {| sub_name := submodule_name;
                sub_path := Some submodule_path;
                sub_description := info_description info;
                sub_inputs := parsed_data.1;
                sub_outputs := parsed_data.2 |}]> submodules_data).

Fixpoint process_infos (infos : list submodule_info)
    (submodules_data : gmap string submodule_doc)
  : M (gmap string submodule_doc) :=
  match infos with
  | [] => ret submodules_data
  | info :: rest =>
      do submodules_data <- submodule_step submodules_data info ;;
      process_infos rest submodules_data
  end.

(** How a call of [main] ends. *)
Inductive outcome : Type :=
| FetchFailed                     (* the README could not be fetched: return *)
| NoLocalReadme                   (* no local README.md: return *)
| HandlerCaught                   (* an exception reached [except Exception] *)
| Completed (parsed_data json_data : gmap string module_doc).

(** From the parser being ready to the end of [main].  [registry] tells
    whether a fetcher exists.  [parsed_data] is the result of the call
    of [parse] in [main], [json_data] the result of the call in
    [to_json], which is what gets serialised. *)
Definition parse_and_report (registry : bool) (path : string) : M outcome :=
  do files <- get_files ;;
  let parser := read_file files (new_parser path) in
  do f <- get_fetcher ;;
  do submodules_data <-
    (if registry && Py.truthy_opt (github_repo f)
     then
       let modules_section := extract_section (content parser) "Modules" in
       if Py.truthy modules_section
       then process_infos (discover_submodules modules_section) ∅
       else ret ∅
     else ret ∅) ;;
  let parser :=
    if dict_truthy submodules_data
    then set_submodules submodules_data parser else parser in
  do files <- get_files ;;
  let '(parsed_data, parser) := parse files parser in
  let '(json_data, parser) := parse files parser in
  ret (Completed parsed_data json_data).

(** [main] when a module name is given on the command line. *)
Definition main_registry : M outcome :=
  do readme_path <- fetch_and_save_readme ;;
  if negb (Py.truthy_opt readme_path) then ret FetchFailed
  else
    parse_and_report true
      (OsPath.join (script_dir w) (default EmptyString readme_path)).

(** [main] without arguments. *)
Definition main_local : M outcome :=
  do files <- get_files ;;
  let working_readme := OsPath.join_all (script_dir w) ["working"; "README.md"] in
  let root_readme := OsPath.join (script_dir w) "README.md" in
  if exists_file files working_readme then parse_and_report false working_readme
  else if exists_file files root_readme then parse_and_report false root_readme
  else ret NoLocalReadme.

(** A fetcher for a run that has none; its fields are never read. *)
Definition no_fetcher : fetcher :=
  {| f_module_name := EmptyString; f_namespace := EmptyString;
     f_name := EmptyString; f_provider := EmptyString;
     github_repo := None; source_url := None; repo_branch := None |}.

(** [main()], with [argv] the arguments after the program's name and
    [files] the files on disk when the run starts.  The result is the
    outcome together with the final state.  The name of the output
    file and the serialisation to JSON are not part of the model. *)
Definition main (argv : list string) (files : gmap string string)
  : outcome * rstate :=
  match argv with
  | module_name :: _ =>
      match new_fetcher module_name with
      | None =>
          (HandlerCaught,
           {| st_fetcher := no_fetcher; st_files := files; st_requests := [] |})
      | Some f =>
          main_registry
            {| st_fetcher := f; st_files := files; st_requests := [] |}
      end
  | [] =>
      main_local
        {| st_fetcher := no_fetcher; st_files := files; st_requests := [] |}
  end.

(** How the interpreter leaves the script. *)
Inductive completion : Type :=
| Normal                  (* the end of the script was reached *)
| SysExit (code : nat).   (* [sys.exit(code)] *)

Definition exit_status (c : completion) : nat :=
  match c with
  | Normal => 0
  | SysExit code => code
  end.

(** The block under [if __name__ == "__main__"]: a help request
    prints the usage and exits with 0; otherwise [main()] is called and,
    once it has returned, the script ends.  [main] has no [sys.exit]
    and the only handler around the call is for [KeyboardInterrupt]. *)
Definition script (argv : list string) (files : gmap string string)
  : completion * option (outcome * rstate) :=
  let is_help :=
    match argv with
    | a :: _ => bool_decide (a ∈ ["-h"; "--help"; "help"])
    | [] => false
    end in
  if is_help then (SysExit 0, None)
  else
    let r := main argv files in
    (Normal, Some r).

End Run.

End Registry.


(** ** The resource matcher: [avm_module_finder.py] *)

Module Finder.

(** A row as [csv.DictReader] yields it: a dict from column names to
    values, where the value of a column that the line does not reach
    is [None]. *)
Definition row : Type := gmap string (option string).

(** A CSV file as the reader presents it: the header, then the rows.
    This is a file that exists, has a header line and is read to its
    end.  The other ways in which the two functions below can fail are
    outside the model: a file that cannot be opened, an empty file (the
    reader then has no field names and the test for the columns raises
    a [TypeError]), and bytes that cannot be decoded or a line that the
    reader refuses, in the header or in a row.  The properties of the
    two functions are stated for the files of the model and say nothing
    about those failures. *)
Record csv_file : Type := CsvFile {
  fieldnames : list string;
  rows : list row
}.

(** [row.get(key)] *)
Definition row_get (r : row) (key : string) : option string :=
  match r !! key with
  | Some v => v
  | None => None
  end.

(** [row.get(key, '')] *)
Definition row_get_or_empty (r : row) (key : string) : option string :=
  match r !! key with
  | Some v => v
  | None => Some EmptyString
  end.

(** [x in l] for a list of strings. *)
Definition mem_str (x : string) (l : list string) : bool :=
  bool_decide (x ∈ l).

(** *** [load_deployment_csv] *)

(** The body of the loop over the rows. *)
Definition load_step (deployment_data : gmap string (list string)) (r : row)
  : gmap string (list string) :=
  let namespace := row_get r "ProviderNamespace" in
  let resource_type := row_get r "ResourceType" in
  match namespace, resource_type with
  | Some ns, Some rt =>
      if Py.truthy ns && Py.truthy rt
      then
        let deployment_data :=
          match deployment_data !! ns with
          | Some _ => deployment_data
          | None => <[ns := []]> deployment_data
          end in
        <[ns := (default [] (deployment_data !! ns) ++ [rt])%list]> deployment_data
      else deployment_data
  | _, _ => deployment_data
  end.

(** [load_deployment_csv] on a file that exists; [None] is the
    [ValueError] for a missing column. *)
Definition load_deployment_csv (f : csv_file) : option (gmap string (list string)) :=
  if negb (mem_str "ProviderNamespace" (fieldnames f))
     || negb (mem_str "ResourceType" (fieldnames f))
  then None
  else Some (fold_left load_step (rows f) ∅).

(** *** [match_and_filter_modules] *)

Definition OUTPUT_COLUMNS : list string :=
  ["ProviderNamespace"; "ResourceType"; "ModuleName"; "ModuleStatus";
   "RepoURL"; "PublicRegistryReference"].

(** Known naming discrepancies, from (namespace, deployment resource
    type) to the resource type of the module.  The table is empty. *)
Definition RESOURCE_TYPE_MAPPINGS : gmap (string * string) string := ∅.

(** [{column: row.get(column, '') for column in OUTPUT_COLUMNS}] *)
Definition matched_row_of (r : row) : row :=
  list_to_map (map (fun column => (column, row_get_or_empty r column)) OUTPUT_COLUMNS).

Definition direct_match (deployment_data : gmap string (list string))
    (namespace resource_type : string) : bool :=
  match deployment_data !! namespace with
  | Some types => mem_str resource_type types
  | None => false
  end.

Definition mapped_match (deployment_data : gmap string (list string))
    (namespace resource_type : string) : bool :=
  existsb
    (fun deployment_types =>
       match RESOURCE_TYPE_MAPPINGS !! (namespace, deployment_types) with
       | Some t => String.eqb t resource_type
       | None => false
       end)
    (default [] (deployment_data !! namespace)).

(** The body of the loop over the rows: the matched modules so far,
    extended when the row is retained. *)
Definition match_step (deployment_data : gmap string (list string))
    (matched_modules : list row) (r : row) : list row :=
  let namespace := row_get r "ProviderNamespace" in
  let resource_type := row_get r "ResourceType" in
  let module_status := row_get r "ModuleStatus" in
  if negb (Py.truthy_opt namespace && Py.truthy_opt resource_type
           && Py.truthy_opt module_status)
  then matched_modules
  else
    let ns := default EmptyString namespace in
    let rt := default EmptyString resource_type in
    let status := default EmptyString module_status in
    if direct_match deployment_data ns rt || mapped_match deployment_data ns rt
    then
      if String.eqb status "Available"
      then (matched_modules ++ [matched_row_of r])%list
      else matched_modules
    else matched_modules.

(** [match_and_filter_modules]: the matched modules and the output
    columns; [None] is the [ValueError] for missing columns. *)
Definition match_and_filter_modules (f : csv_file)
    (deployment_data : gmap string (list string))
  : option (list row * list string) :=
  let missing_columns :=
    List.filter (fun col => negb (mem_str col (fieldnames f))) OUTPUT_COLUMNS in
  match missing_columns with
  | _ :: _ => None
  | [] => Some (fold_left (match_step deployment_data) (rows f) [], OUTPUT_COLUMNS)
  end.

End Finder.

(** * Properties *)

(** ** Python strings *)

Section PyFacts.

Import Py.

Lemma truthy_nonempty (s : string) : truthy s = true ↔ s ≠ EmptyString.
Proof. destruct s; simpl; split; intros; congruence. Qed.

Lemma truthy_opt_Some (o : option string) :
  truthy_opt o = true ↔ ∃ s, o = Some s ∧ s ≠ EmptyString.
Proof.
  destruct o as [s|]; simpl.
  - rewrite truthy_nonempty. split; [eauto | intros (s' & [= <-] & H); exact H].
  - split; [discriminate | intros (s' & [=] & _)].
Qed.

End PyFacts.

(** ** The resource matcher *)

Section FinderFacts.

Import Finder.

Implicit Types (r : row) (idx : gmap string (list string)).

(** The two conditions of the loop of [match_and_filter_modules], as
    one test on a row. *)
Definition retained idx r : bool :=
  Py.truthy_opt (row_get r "ProviderNamespace")
  && Py.truthy_opt (row_get r "ResourceType")
  && Py.truthy_opt (row_get r "ModuleStatus")
  && direct_match idx (default EmptyString (row_get r "ProviderNamespace"))
       (default EmptyString (row_get r "ResourceType"))
  && String.eqb (default EmptyString (row_get r "ModuleStatus")) "Available".

Lemma mapped_match_false idx ns rt : mapped_match idx ns rt = false.
Proof.
  unfold mapped_match, RESOURCE_TYPE_MAPPINGS.
  induction (default [] (idx !! ns)) as [|t l IH]; simpl; [done|].
  by rewrite lookup_empty.
Qed.

Lemma match_step_retained idx acc r :
  match_step idx acc r =
    if retained idx r then (acc ++ [matched_row_of r])%list else acc.
Proof.
  unfold match_step, retained. rewrite mapped_match_false, orb_false_r.
  destruct (Py.truthy_opt (row_get r "ProviderNamespace")); simpl; [|done].
  destruct (Py.truthy_opt (row_get r "ResourceType")); simpl; [|done].
  destruct (Py.truthy_opt (row_get r "ModuleStatus")); simpl; [|done].
  destruct (direct_match _ _ _); simpl; done.
Qed.

(** The matched modules are the retained rows, in the order of the
    file. *)
Lemma match_fold idx (rs : list row) acc :
  fold_left (match_step idx) rs acc =
    (acc ++ map matched_row_of (List.filter (retained idx) rs))%list.
Proof.
  revert acc. induction rs as [|r rs IH]; intros acc; simpl.
  - by rewrite app_nil_r.
  - rewrite IH, match_step_retained.
    destruct (retained idx r); simpl; [|done].
    by rewrite <- app_assoc.
Qed.

Lemma match_and_filter_Some f idx out cols :
  match_and_filter_modules f idx = Some (out, cols) →
  out = map matched_row_of (List.filter (retained idx) (rows f))
  ∧ cols = OUTPUT_COLUMNS.
Proof.
  unfold match_and_filter_modules.
  destruct (List.filter _ OUTPUT_COLUMNS); [|discriminate].
  intros [= <- <-]. by rewrite match_fold.
Qed.

Lemma matched_row_lookup r col :
  col ∈ OUTPUT_COLUMNS →
  matched_row_of r !! col = Some (row_get_or_empty r col).
Proof.
  unfold matched_row_of, OUTPUT_COLUMNS. intros Hin.
  repeat (apply elem_of_cons in Hin as [-> | Hin]; [reflexivity|]).
  by apply elem_of_nil in Hin.
Qed.

(** A value that is present and not empty is copied as it is, and
    can be read back from the copy. *)
Lemma matched_row_get r col s :
  col ∈ OUTPUT_COLUMNS → s ≠ EmptyString →
  row_get (matched_row_of r) col = Some s ↔ row_get r col = Some s.
Proof.
  intros Hcol Hs. unfold row_get at 1. rewrite (matched_row_lookup _ _ Hcol).
  unfold row_get_or_empty, row_get. destruct (r !! col) as [v|]; [done|].
  split; [intros [= <-]; done | discriminate].
Qed.

Lemma direct_match_spec idx ns rt :
  direct_match idx ns rt = true ↔ ∃ types, idx !! ns = Some types ∧ rt ∈ types.
Proof.
  unfold direct_match, mem_str. destruct (idx !! ns) as [types|].
  - rewrite bool_decide_eq_true. split; [eauto | intros (? & [= <-] & ?); done].
  - split; [discriminate | intros (? & [=] & _)].
Qed.

Lemma retained_spec idx r :
  retained idx r = true ↔
  ∃ ns rt status,
    (row_get r "ProviderNamespace" = Some ns ∧ ns ≠ EmptyString)
    ∧ (row_get r "ResourceType" = Some rt ∧ rt ≠ EmptyString)
    ∧ (row_get r "ModuleStatus" = Some status ∧ status ≠ EmptyString)
    ∧ (∃ types, idx !! ns = Some types ∧ rt ∈ types)
    ∧ status = "Available".
Proof.
  unfold retained. rewrite !andb_true_iff, !truthy_opt_Some, String.eqb_eq.
  split.
  - intros [[[[(ns & Hns & ?) (rt & Hrt & ?)] (st & Hst & ?)] Hd] Ha].
    rewrite Hns, Hrt, Hst in *. simpl in *.
    exists ns, rt, st. by rewrite <- direct_match_spec.
  - intros (ns & rt & st & [Hns ?] & [Hrt ?] & [Hst ?] & Hd & Ha).
    rewrite Hns, Hrt, Hst. simpl. rewrite direct_match_spec.
    repeat split; eauto.
Qed.

Lemma namespace_column : "ProviderNamespace" ∈ OUTPUT_COLUMNS.
Proof. unfold OUTPUT_COLUMNS. apply list_elem_of_here. Qed.

Lemma resource_type_column : "ResourceType" ∈ OUTPUT_COLUMNS.
Proof. unfold OUTPUT_COLUMNS. do 1 apply list_elem_of_further. apply list_elem_of_here. Qed.

Lemma status_column : "ModuleStatus" ∈ OUTPUT_COLUMNS.
Proof. unfold OUTPUT_COLUMNS. do 3 apply list_elem_of_further. apply list_elem_of_here. Qed.

(** Two rows with the same copy agree on a column of the output whose
    value is present and not empty in one of them. *)
Lemma matched_row_agree r r' col s :
  col ∈ OUTPUT_COLUMNS → s ≠ EmptyString →
  matched_row_of r' = matched_row_of r →
  row_get r' col = Some s → row_get r col = Some s.
Proof.
  intros Hcol Hs Heq Hget.
  apply (matched_row_get r col s Hcol Hs). rewrite <- Heq.
  by apply (matched_row_get r' col s Hcol Hs).
Qed.

(** C1. A row of the reference CSV whose namespace, resource type and
    status are present and not empty is among the matched modules if and
    only if its resource type is listed under its namespace in the
    deployment index and its status is the string Available, compared
    character by character; and every matched module carries the status
    Available. *)
Theorem matched_iff_indexed_and_available
    (f : csv_file) idx out cols r ns rt status :
  match_and_filter_modules f idx = Some (out, cols) →
  r ∈ rows f →
  row_get r "ProviderNamespace" = Some ns → ns ≠ EmptyString →
  row_get r "ResourceType" = Some rt → rt ≠ EmptyString →
  row_get r "ModuleStatus" = Some status → status ≠ EmptyString →
  (matched_row_of r ∈ out ↔
     (∃ types, idx !! ns = Some types ∧ rt ∈ types) ∧ status = "Available")
  ∧ (∀ m, m ∈ out → row_get m "ModuleStatus" = Some "Available").
Proof.
  intros Hout Hr Hns Hns0 Hrt Hrt0 Hst Hst0.
  apply match_and_filter_Some in Hout as [-> ->].
  split; [split|].
  - intros (r' & Heq & Hr')%list_elem_of_fmap.
    apply list_elem_of_In, filter_In in Hr' as [_ Hret].
    apply retained_spec in Hret
      as (ns' & rt' & st' & [Hns' ?] & [Hrt' ?] & [Hst' ?] & Hd & Hav).
    pose proof (matched_row_agree r r' _ _ namespace_column H (eq_sym Heq) Hns') as E1.
    pose proof (matched_row_agree r r' _ _ resource_type_column H0 (eq_sym Heq) Hrt') as E2.
    pose proof (matched_row_agree r r' _ _ status_column H1 (eq_sym Heq) Hst') as E3.
    rewrite Hns in E1. rewrite Hrt in E2. rewrite Hst in E3.
    injection E1 as ->. injection E2 as ->. injection E3 as ->.
    split; assumption.
  - intros [Hd ->]. apply list_elem_of_fmap. exists r. split; [done|].
    apply list_elem_of_In, filter_In. split; [by apply list_elem_of_In|].
    apply retained_spec. exists ns, rt, "Available". repeat split; assumption.
  - intros m (r' & -> & Hr')%list_elem_of_fmap.
    apply list_elem_of_In, filter_In in Hr' as [_ Hret].
    apply retained_spec in Hret as (_ & _ & st' & _ & _ & [Hst' ?] & _ & Hav).
    subst st'. apply (matched_row_get r' _ _ status_column); assumption.
Qed.

(** *** The deployment index *)

(** [rt] is listed under [ns] in the index. *)
Definition indexed idx (ns rt : string) : Prop :=
  ∃ types, idx !! ns = Some types ∧ rt ∈ types.

(** The row has a namespace [ns] and a resource type [rt], both present
    and not empty. *)
Definition complete_row r (ns rt : string) : Prop :=
  row_get r "ProviderNamespace" = Some ns ∧ ns ≠ EmptyString
  ∧ row_get r "ResourceType" = Some rt ∧ rt ≠ EmptyString.

Lemma load_step_complete idx r ns rt :
  complete_row r ns rt →
  load_step idx r = <[ns := (default [] (idx !! ns) ++ [rt])%list]> idx.
Proof.
  intros (Hns & Hns0 & Hrt & Hrt0). unfold load_step. rewrite Hns, Hrt.
  apply truthy_nonempty in Hns0, Hrt0. rewrite Hns0, Hrt0. simpl.
  destruct (idx !! ns) as [types|] eqn:E; simpl.
  - by rewrite E.
  - by rewrite lookup_insert_eq, insert_insert_eq.
Qed.

Lemma load_step_incomplete idx r :
  (∀ ns rt, ¬ complete_row r ns rt) → load_step idx r = idx.
Proof.
  intros Hinc. unfold load_step.
  destruct (row_get r "ProviderNamespace") as [ns|] eqn:Hns; [|done].
  destruct (row_get r "ResourceType") as [rt|] eqn:Hrt; [|done].
  destruct (Py.truthy ns) eqn:Tns; [|done].
  destruct (Py.truthy rt) eqn:Trt; [|done].
  exfalso. apply (Hinc ns rt). unfold complete_row.
  by rewrite <- !truthy_nonempty.
Qed.

Lemma indexed_load_step idx r ns rt :
  indexed (load_step idx r) ns rt ↔ indexed idx ns rt ∨ complete_row r ns rt.
Proof.
  destruct (row_get r "ProviderNamespace") as [ns'|] eqn:Hns; cycle 1.
  { rewrite load_step_incomplete.
    - split; [auto | intros [?|(? & _)]; [done | congruence]].
    - intros ? ? (? & _). congruence. }
  destruct (row_get r "ResourceType") as [rt'|] eqn:Hrt; cycle 1.
  { rewrite load_step_incomplete.
    - split; [auto | intros [?|(_ & _ & ? & _)]; [done | congruence]].
    - intros ? ? (_ & _ & ? & _). congruence. }
  destruct (decide (ns' ≠ EmptyString ∧ rt' ≠ EmptyString)) as [[Hn Ht]|Hno]; cycle 1.
  { rewrite load_step_incomplete.
    - split; [auto | intros [?|(? & ? & ? & ?)]; [done|]].
      exfalso. apply Hno. split; congruence.
    - intros ? ? (? & ? & ? & ?). apply Hno. split; congruence. }
  rewrite (load_step_complete idx r ns' rt') by done.
  unfold indexed, complete_row. rewrite Hns, Hrt.
  destruct (decide (ns = ns')) as [->|Hne].
  - rewrite lookup_insert_eq. split.
    + intros (types & [= <-] & Hin). apply elem_of_app in Hin as [Hin|Hin].
      * left. destruct (idx !! ns') as [t|]; [eauto | by apply elem_of_nil in Hin].
      * right. apply list_elem_of_singleton in Hin as ->. done.
    + intros [(types & E & Hin)|(_ & _ & [= ->] & _)].
      * eexists. split; [done|]. rewrite E. simpl. apply elem_of_app. by left.
      * eexists. split; [done|]. apply elem_of_app. right. by apply list_elem_of_singleton.
  - rewrite lookup_insert_ne by done. split; [auto|].
    intros [?|([= ?] & _)]; [done | congruence].
Qed.

Lemma indexed_fold (rs : list row) idx ns rt :
  indexed (fold_left load_step rs idx) ns rt ↔
  indexed idx ns rt ∨ ∃ r, r ∈ rs ∧ complete_row r ns rt.
Proof.
  revert idx. induction rs as [|r rs IH]; intros idx; simpl.
  - split; [auto | intros [?|(r & Hr & _)]; [done | by apply elem_of_nil in Hr]].
  - rewrite IH, indexed_load_step. split.
    + intros [[?|?]|(r' & ? & ?)]; [by left | right | right].
      * exists r. split; [apply list_elem_of_here | done].
      * exists r'. split; [by apply list_elem_of_further | done].
    + intros [?|(r' & Hr' & ?)]; [by left; left|].
      apply elem_of_cons in Hr' as [->|?]; [by left; right | right; eauto].
Qed.

(** C8. In the index that the loader returns, every row whose namespace
    and resource type are both present and not empty has its resource
    type listed under its namespace; and nothing else is listed: an
    entry of the index always comes from such a row, and a row with a
    field empty or missing leaves the index as it was. *)
Theorem deployment_index_holds_complete_rows (f : csv_file) idx :
  load_deployment_csv f = Some idx →
  (∀ r ns rt, r ∈ rows f → complete_row r ns rt → indexed idx ns rt)
  ∧ (∀ ns rt, indexed idx ns rt → ∃ r, r ∈ rows f ∧ complete_row r ns rt)
  ∧ (∀ r acc, (∀ ns rt, ¬ complete_row r ns rt) → load_step acc r = acc).
Proof.
  unfold load_deployment_csv. destruct (_ || _); [discriminate|].
  intros [= <-]. split; [|split].
  - intros r ns rt Hr Hc. apply indexed_fold. right. eauto.
  - intros ns rt [Hi|Hr]%indexed_fold; [|done].
    destruct Hi as (types & Hl & _). by rewrite lookup_empty in Hl.
  - intros r acc Hinc. by apply load_step_incomplete.
Qed.

(** The example of the specification: a storage account module. *)
Definition storage_row (status : string) : row :=
  list_to_map
    [("ProviderNamespace", Some "Microsoft.Storage");
     ("ResourceType", Some "storageAccounts");
     ("ModuleName", Some "avm-res-storage-storageaccount");
     ("ModuleStatus", Some status);
     ("RepoURL", Some "https://github.com/Azure/terraform-azurerm-avm-res-storage-storageaccount");
     ("PublicRegistryReference", Some "Azure/avm-res-storage-storageaccount/azurerm")].

Definition storage_reference : csv_file :=
  {| fieldnames := OUTPUT_COLUMNS; rows := [storage_row "Available"] |}.

Definition storage_index : gmap string (list string) :=
  {[ "Microsoft.Storage" := ["storageAccounts"] ]}.

Lemma matched_iff_indexed_and_available_witness :
  (matched_row_of (storage_row "Available") ∈ [matched_row_of (storage_row "Available")] ↔
     (∃ types, storage_index !! "Microsoft.Storage" = Some types
               ∧ "storageAccounts" ∈ types)
     ∧ "Available" = "Available")
  ∧ (∀ m, m ∈ [matched_row_of (storage_row "Available")] →
          row_get m "ModuleStatus" = Some "Available").
Proof.
  apply (matched_iff_indexed_and_available storage_reference storage_index
           [matched_row_of (storage_row "Available")] OUTPUT_COLUMNS
           (storage_row "Available") "Microsoft.Storage" "storageAccounts" "Available").
  - vm_compute. reflexivity.
  - apply list_elem_of_here.
  - vm_compute. reflexivity.
  - discriminate.
  - vm_compute. reflexivity.
  - discriminate.
  - vm_compute. reflexivity.
  - discriminate.
Defined.

Definition storage_deployment : csv_file :=
  {| fieldnames := ["ProviderNamespace"; "ResourceType"];
     rows := [ {[ "ProviderNamespace" := Some "Microsoft.Storage";
                  "ResourceType" := Some "storageAccounts" ]} ] |}.

Lemma deployment_index_holds_complete_rows_witness :
  (∀ r ns rt, r ∈ rows storage_deployment → complete_row r ns rt →
              indexed storage_index ns rt)
  ∧ (∀ ns rt, indexed storage_index ns rt →
              ∃ r, r ∈ rows storage_deployment ∧ complete_row r ns rt)
  ∧ (∀ r acc, (∀ ns rt, ¬ complete_row r ns rt) → load_step acc r = acc).
Proof.
  apply (deployment_index_holds_complete_rows storage_deployment storage_index).
  vm_compute. reflexivity.
Defined.

End FinderFacts.

(** ** The README extractor *)

Section ReadmeFacts.

Import Py Regex Readme.

(** *** Section extraction *)

(** A document in which the marker of the Outputs section occurs in the
    middle of its first line and at the start of no line. *)
Definition inline_marker_doc : string :=
  "Intro: see ## Outputs below" +:+ NL +:+ "foo" +:+ NL +:+ "## Next" +:+ NL +:+ "bar".

(** C10. Section extraction does not require the marker to start a line:
    in [inline_marker_doc] no line begins with the marker, the marker
    occurs inside the first line, and the extracted section is the text
    that follows that occurrence up to the next line that begins with
    two hashes and a space, stripped. *)
Theorem section_marker_inside_a_line :
  Forall (fun line => startswith "## Outputs" line = false) (split NL inline_marker_doc)
  ∧ contains "## Outputs" inline_marker_doc = true
  ∧ extract_section inline_marker_doc "Outputs" = "below" +:+ NL +:+ "foo".
Proof.
  split; [|split].
  - vm_compute. repeat constructor.
  - vm_compute. reflexivity.
  - vm_compute. reflexivity.
Qed.

(** *** Input entries *)

(** The entry of the specification's example, as the documentation
    generator lays it out, after a line of preamble. *)
Definition location_entry : string :=
  "### <a name=" +:+ DQ +:+ "input_location" +:+ DQ +:+ "></a> [location](#input\_location)"
  +:+ NL +:+ NL +:+ "Description: The region."
  +:+ NL +:+ NL +:+ "Type: `string`" +:+ NL.








(** *** The merged inputs mapping *)

(** Every entry of the mapping carries the flag [b] and sits under its
    own name. *)
Definition flagged (b : bool) (m : gmap string input_entry) : Prop :=
  ∀ name e, m !! name = Some e → in_required e = Some b ∧ in_name e = name.

Lemma inputs_step_flagged b m fragment :
  flagged b m → flagged b (inputs_step b m fragment).
Proof.
  intros Hm. unfold inputs_step.
  destruct (parse_input_entry _) as [parsed|]; [|done].
  intros name e. destruct (decide (in_name parsed = name)) as [<-|Hne].
  - rewrite lookup_insert_eq. intros [= <-]. done.
  - rewrite lookup_insert_ne by done. apply Hm.
Qed.

Lemma inputs_fold_flagged b fragments m :
  flagged b m → flagged b (fold_left (inputs_step b) fragments m).
Proof.
  revert m. induction fragments as [|x l IH]; intros m Hm; simpl; [done|].
  apply IH. by apply inputs_step_flagged.
Qed.

Lemma parse_inputs_section_flagged section_text b :
  flagged b (parse_inputs_section section_text b).
Proof.
  unfold parse_inputs_section. apply inputs_fold_flagged.
  intros name e. by rewrite lookup_empty.
Qed.

Lemma dict_merge_lookup {V} (a b : gmap string V) (k : string) :
  dict_merge a b !! k = match b !! k with Some v => Some v | None => a !! k end.
Proof.
  unfold dict_merge. rewrite lookup_union.
  destruct (b !! k), (a !! k); done.
Qed.

Section Parse.

Variable fs : gmap string string.

Lemma process_submodules_fields section_text p :
  content (process_submodules fs section_text p) = content p
  ∧ module_name (process_submodules fs section_text p) = module_name p
  ∧ required_inputs (process_submodules fs section_text p) = required_inputs p
  ∧ optional_inputs (process_submodules fs section_text p) = optional_inputs p
  ∧ outputs (process_submodules fs section_text p) = outputs p.
Proof. done. Qed.

(** The parser as [parse] reads it: the content is read from the file
    when the parser has none. *)
Definition loaded (p : parser) : parser :=
  if negb (truthy (content p)) then read_file fs p else p.

Lemma loaded_module_name p : module_name (loaded p) = module_name p.
Proof.
  unfold loaded, read_file. destruct (negb _); [|done].
  by destruct (fs !! readme_path p).
Qed.

(** What [parse] returns, field by field. *)
Lemma parse_result p :
  let text := content (loaded p) in
  let req := parse_inputs_section (extract_section text "Required Inputs") true in
  let opt := parse_inputs_section (extract_section text "Optional Inputs") false in
  ∃ subs,
    (parse fs p).1 =
      {[ module_name p :=
           {| md_name := module_name p;
              md_description := EmptyString;
              md_inputs := dict_merge req opt;
              md_outputs := parse_outputs_section (extract_section text "Outputs");
              md_module_requirements :=
                parse_requirements_section (extract_section text "Requirements");
              md_submodules := if dict_truthy subs then Some subs else None |} ]}
    ∧ subs = submodules (parse fs p).2
    ∧ (subs = submodules (loaded p)
       ∨ (truthy (extract_section text "Submodules") = true
          ∧ subs = submodules
                     (process_submodules fs (extract_section text "Submodules")
                        (loaded p)))).
Proof.
  intros text req opt. unfold parse. fold (loaded p). fold text.
  rewrite <- (loaded_module_name p).
  destruct (truthy (extract_section text "Submodules")) eqn:E.
  - eexists. split; [reflexivity|]. split; [reflexivity|]. right. done.
  - eexists. split; [reflexivity|]. split; [reflexivity|]. left. done.
Qed.

(** C3. In the result of [parse] the inputs mapping is the merge of the
    required and the optional inputs by name: a name that the optional
    inputs have maps to the optional entry, whose flag is false, also
    when the required inputs have it too; any other name maps to what
    the required inputs have for it, with the flag true. *)
Theorem inputs_are_merged_optional_over_required (p : parser) :
  let text := content (loaded p) in
  let req := parse_inputs_section (extract_section text "Required Inputs") true in
  let opt := parse_inputs_section (extract_section text "Optional Inputs") false in
  ∃ doc,
    (parse fs p).1 !! module_name p = Some doc
    ∧ (∀ name e, opt !! name = Some e →
         md_inputs doc !! name = Some e ∧ in_required e = Some false)
    ∧ (∀ name, opt !! name = None → md_inputs doc !! name = req !! name)
    ∧ (∀ name e, req !! name = Some e → in_required e = Some true)
    ∧ (∀ name e, md_inputs doc !! name = Some e → in_name e = name).
Proof.
  intros text req opt.
  destruct (parse_result p) as (subs & Hres & _). fold text req opt in Hres.
  eexists. split; [rewrite Hres; apply lookup_singleton_eq|]. cbn [md_inputs].
  split; [|split; [|split]].
  - intros name e He. rewrite dict_merge_lookup, He. split; [done|].
    by destruct (parse_inputs_section_flagged _ _ _ _ He).
  - intros name He. by rewrite dict_merge_lookup, He.
  - intros name e He. by destruct (parse_inputs_section_flagged _ _ _ _ He).
  - intros name e. rewrite dict_merge_lookup.
    destruct (opt !! name) as [e'|] eqn:Ho.
    + intros [= <-]. by destruct (parse_inputs_section_flagged _ _ _ _ Ho).
    + intros Hr. by destruct (parse_inputs_section_flagged _ _ _ _ Hr).
Qed.

End Parse.

(** *** Requirements *)

(** The requirement lines that the loop captures, in order: name and
    stripped version. *)
Definition captured (section_text : string) : list (string * string) :=
  omap parse_requirement_line (split NL section_text).

(** The version of the last captured line whose name is [n]. *)
Fixpoint last_version (n : string) (caps : list (string * string)) : option string :=
  match caps with
  | [] => None
  | (m, v) :: rest =>
      match last_version n rest with
      | Some v' => Some v'
      | None => if String.eqb m n then Some v else None
      end
  end.

Definition record_captured (st : req_state) (c : string * string) : req_state :=
  record_requirement st c.1 c.2.

Definition initial_requirements : req_state :=
  {| terraform_version := None; providers := ∅ |}.

Lemma requirements_fold_captured lines st :
  fold_left requirements_step lines st
  = fold_left record_captured (omap parse_requirement_line lines) st.
Proof.
  revert st. induction lines as [|l lines IH]; intros st; simpl; [done|].
  rewrite IH. unfold requirements_step.
  destruct (parse_requirement_line l) as [[n v]|]; done.
Qed.

Lemma last_version_elem n caps :
  is_Some (last_version n caps) ↔ ∃ v, (n, v) ∈ caps.
Proof.
  induction caps as [|[m v] caps IH]; simpl.
  - split; [by intros [? [=]] | intros [? H]; by apply elem_of_nil in H].
  - destruct (last_version n caps) as [v'|] eqn:E.
    + split; [intros _|eauto]. destruct (proj1 IH) as [w Hw]; [eauto|].
      exists w. by apply list_elem_of_further.
    + destruct (String.eqb m n) eqn:Em.
      * apply String.eqb_eq in Em as ->. split; [intros _|eauto].
        exists v. apply list_elem_of_here.
      * apply String.eqb_neq in Em. split; [by intros [? [=]]|].
        intros [w [Hw|Hw]%elem_of_cons]; [congruence|].
        apply IH. eauto.
Qed.

(** The state after the loop, in terms of the captured lines. *)
Lemma requirements_fold_state caps st :
  let st' := fold_left record_captured caps st in
  terraform_version st'
  = match last_version "terraform" caps with
    | Some v => Some v
    | None => terraform_version st
    end
  ∧ ∀ n, providers st' !! n
         = if String.eqb n "terraform" then providers st !! n
           else match last_version n caps with
                | Some v => Some {| source := provider_source n; version := v |}
                | None => providers st !! n
                end.
Proof.
  revert st. induction caps as [|[m v] caps IH]; intros st; simpl.
  - split; [done|]. intros n. by destruct (String.eqb n "terraform").
  - destruct (IH (record_captured st (m, v))) as [Ht Hp]. split.
    + rewrite Ht. destruct (last_version "terraform" caps); [done|].
      unfold record_captured, record_requirement. simpl.
      by destruct (String.eqb m "terraform").
    + intros n. rewrite Hp. destruct (String.eqb n "terraform") eqn:En.
      * unfold record_captured, record_requirement. simpl.
        destruct (String.eqb m "terraform") eqn:Em; simpl; [done|].
        apply String.eqb_eq in En as ->. apply String.eqb_neq in Em.
        by rewrite lookup_insert_ne.
      * destruct (last_version n caps); [done|].
        unfold record_captured, record_requirement. simpl.
        destruct (String.eqb m n) eqn:Emn.
        -- apply String.eqb_eq in Emn as ->. rewrite En. simpl.
           by rewrite lookup_insert_eq.
        -- apply String.eqb_neq in Emn.
           destruct (String.eqb m "terraform"); simpl; [done|].
           by rewrite lookup_insert_ne.
Qed.

Lemma dict_truthy_lookup {V} (m : gmap string V) :
  dict_truthy m = true ↔ ∃ k, is_Some (m !! k).
Proof.
  unfold dict_truthy. rewrite negb_true_iff, Nat.eqb_neq.
  apply map_size_ne_0_lookup.
Qed.

Lemma final_providers_truthy caps :
  dict_truthy (providers (fold_left record_captured caps initial_requirements)) = true
  ↔ ∃ n v, (n, v) ∈ caps ∧ n ≠ "terraform".
Proof.
  rewrite dict_truthy_lookup.
  destruct (requirements_fold_state caps initial_requirements) as [_ Hp].
  split.
  - intros [n Hn]. rewrite Hp in Hn. simpl in Hn. rewrite lookup_empty in Hn.
    destruct (String.eqb n "terraform") eqn:En; [by destruct Hn|].
    apply String.eqb_neq in En.
    destruct (last_version n caps) as [v|] eqn:E; [|by destruct Hn].
    destruct (proj1 (last_version_elem n caps)) as [w Hw]; [by rewrite E|].
    eauto.
  - intros (n & v & Hin & Hne). exists n. rewrite Hp.
    apply String.eqb_neq in Hne. rewrite Hne.
    destruct (proj2 (last_version_elem n caps)) as [w Hw]; [eauto|].
    by rewrite Hw.
Qed.

(** What [parse_requirements_section] returns, in terms of the captured
    lines. *)
Lemma parse_requirements_section_captured section_text :
  parse_requirements_section section_text
  = build_requirements
      (fold_left record_captured (captured section_text) initial_requirements).
Proof.
  unfold parse_requirements_section, captured.
  destruct section_text as [|a rest]; [vm_compute; reflexivity|].
  simpl negb. cbv iota. by rewrite requirements_fold_captured.
Qed.

(** The statement of the specification: the key is present exactly when
    a requirement line was captured. *)
Definition requirements_key_iff_captured (section_text : string) : Prop :=
  is_Some (parse_requirements_section section_text) ↔ captured section_text ≠ [].

(** A terraform requirement whose parentheses hold only a space. *)
Definition blank_version_section : string :=
  "- <a name=" +:+ DQ +:+ "requirement_terraform" +:+ DQ
  +:+ "></a> [terraform](#requirement\_terraform) ( )".

(** The line is captured, with an empty version, and the result has no
    requirements at all. *)
Lemma blank_terraform_version_captured_but_absent :
  ¬ requirements_key_iff_captured blank_version_section.
Proof.
  unfold requirements_key_iff_captured. intros [_ H].
  assert (Hc : captured blank_version_section = [("terraform", EmptyString)])
    by (vm_compute; reflexivity).
  assert (Hp : parse_requirements_section blank_version_section = None)
    by (vm_compute; reflexivity).
  rewrite Hc, Hp in H. destruct H as [? [=]]. discriminate.
Qed.

(** C4, amended. A captured line named terraform sets the core version
    constraint; a captured line with any other name sets the provider of
    that name, with source hashicorp/name, or azure/modtm for modtm, and
    the captured version.  The requirements are present if and only if
    some captured line is a provider line or the last captured terraform
    line has a version that is not empty; when present they hold the
    version or the providers, never neither; and they are what [parse]
    stores under module_requirements. *)
Theorem requirements_present_iff_provider_or_versioned_terraform
    (section_text : string) :
  let caps := captured section_text in
  (∀ st v,
     record_requirement st "terraform" v
     = {| terraform_version := Some v; providers := providers st |})
  ∧ (∀ st n v, n ≠ "terraform" →
       terraform_version (record_requirement st n v) = terraform_version st
       ∧ providers (record_requirement st n v) !! n
         = Some {| source := if String.eqb n "modtm" then "azure/modtm"
                             else "hashicorp/" +:+ n;
                   version := v |})
  ∧ (is_Some (parse_requirements_section section_text) ↔
       (∃ n v, (n, v) ∈ caps ∧ n ≠ "terraform")
       ∨ (∃ v, last_version "terraform" caps = Some v ∧ v ≠ EmptyString))
  ∧ (∀ b, parse_requirements_section section_text = Some b →
       (is_Some (required_version b) ∨ is_Some (required_providers b))
       ∧ (∀ v, required_version b = Some v ↔
               last_version "terraform" caps = Some v ∧ v ≠ EmptyString)
       ∧ (∀ provs n, required_providers b = Some provs → n ≠ "terraform" →
            provs !! n
            = (λ v, {| source := provider_source n; version := v |})
                <$> last_version n caps))
  ∧ (∀ fs p, ∃ doc,
       (parse fs p).1 !! module_name p = Some doc
       ∧ md_module_requirements doc
         = parse_requirements_section
             (extract_section (content (loaded fs p)) "Requirements")).
Proof.
  intros caps.
  pose proof (final_providers_truthy caps) as Hprov.
  destruct (requirements_fold_state caps initial_requirements) as [Htv Hp].
  simpl in Htv, Hp.
  set (st := fold_left record_captured caps initial_requirements) in *.
  assert (Hver : ∀ v, (truthy_opt (terraform_version st) = true
                       ∧ terraform_version st = Some v)
                      ↔ last_version "terraform" caps = Some v ∧ v ≠ EmptyString).
  { intros v. rewrite Htv.
    destruct (last_version "terraform" caps) as [w|]; simpl.
    - rewrite truthy_nonempty. split; intros [? ?]; simplify_eq; done.
    - split; intros [? ?]; discriminate. }
  split; [|split; [|split; [|split]]].
  - intros st0 v. reflexivity.
  - intros st0 n v Hn. unfold record_requirement, provider_source.
    apply String.eqb_neq in Hn. rewrite Hn. simpl.
    by rewrite lookup_insert_eq.
  - rewrite parse_requirements_section_captured. fold caps st.
    unfold build_requirements. rewrite <- Hprov. split.
    + destruct (truthy_opt (terraform_version st)) eqn:Et; simpl.
      * intros _. right.
        destruct (terraform_version st) as [v|] eqn:Ev; [|discriminate].
        exists v. by apply Hver.
      * destruct (dict_truthy (providers st)); [by left | by intros [? [=]]].
    + intros [->|(v & Hv)].
      * rewrite orb_true_r. eauto.
      * apply Hver in Hv as [-> _]. simpl. eauto.
  - intros b. rewrite parse_requirements_section_captured. fold caps st.
    unfold build_requirements.
    destruct (truthy_opt (terraform_version st)) eqn:Et;
      destruct (dict_truthy (providers st)) eqn:Ed; simpl; intros [= <-]; simpl.
    + split; [left; destruct (terraform_version st); [eauto|discriminate]|].
      split; [intros v; rewrite <- Hver; split; [by intros ? | by intros [_ ?]]|].
      intros provs n [= <-] Hn. rewrite Hp. apply String.eqb_neq in Hn.
      rewrite Hn, lookup_empty. by destruct (last_version n caps).
    + split; [left; destruct (terraform_version st); [eauto|discriminate]|].
      split; [intros v; rewrite <- Hver; split; [by intros ? | by intros [_ ?]]|].
      intros provs n [=].
    + split; [right; eauto|].
      split; [intros v; split; [discriminate|]; intros Hv; apply Hver in Hv as [Ht _]; congruence|].
      intros provs n [= <-] Hn. rewrite Hp. apply String.eqb_neq in Hn.
      rewrite Hn, lookup_empty. by destruct (last_version n caps).
  - intros fs p. destruct (parse_result fs p) as (subs & Hres & _).
    eexists. split; [rewrite Hres; apply lookup_singleton_eq|]. reflexivity.
Qed.

(** A Requirements section as the documentation generator writes it. *)
Definition typical_requirements : string :=
  "The following requirements are needed by this module:" +:+ NL +:+ NL
  +:+ "- <a name=" +:+ DQ +:+ "requirement_terraform" +:+ DQ
  +:+ "></a> [terraform](#requirement\_terraform) (>= 1.9, < 2.0)" +:+ NL +:+ NL
  +:+ "- <a name=" +:+ DQ +:+ "requirement_azurerm" +:+ DQ
  +:+ "></a> [azurerm](#requirement\_azurerm) (~> 4.0)" +:+ NL +:+ NL
  +:+ "- <a name=" +:+ DQ +:+ "requirement_modtm" +:+ DQ
  +:+ "></a> [modtm](#requirement\_modtm) (~> 0.3)".

Lemma requirements_present_iff_provider_or_versioned_terraform_witness :
  is_Some (parse_requirements_section typical_requirements)
  ∧ providers (record_requirement initial_requirements "modtm" "~> 0.3") !! "modtm"
    = Some {| source := "azure/modtm"; version := "~> 0.3" |}.
Proof.
  pose proof (requirements_present_iff_provider_or_versioned_terraform
                typical_requirements) as (_ & Hrec & Hiff & _).
  split.
  - apply Hiff. left. exists "modtm", "~> 0.3". split; [|discriminate].
    vm_compute. do 2 apply list_elem_of_further. apply list_elem_of_here.
  - apply (Hrec initial_requirements "modtm" "~> 0.3"). discriminate.
Defined.

(** *** Descriptions *)

(** Every submodule of the mapping has the empty description. *)
Definition blank_descriptions (subs : gmap string submodule_doc) : Prop :=
  ∀ k d, subs !! k = Some d → sub_description d = EmptyString.

(** The module and its submodules have the empty description. *)
Definition blank_result (result : gmap string module_doc) : Prop :=
  ∀ k doc, result !! k = Some doc →
    md_description doc = EmptyString
    ∧ ∀ subs, md_submodules doc = Some subs → blank_descriptions subs.

Lemma blank_descriptions_empty : blank_descriptions ∅.
Proof. intros k d. by rewrite lookup_empty. Qed.

Lemma blank_descriptions_insert subs k d :
  sub_description d = EmptyString → blank_descriptions subs →
  blank_descriptions (<[k := d]> subs).
Proof.
  intros Hd Hs k' d'. destruct (decide (k = k')) as [->|Hne].
  - rewrite lookup_insert_eq. by intros [= <-].
  - rewrite lookup_insert_ne by done. apply Hs.
Qed.

Section Descriptions.

Variable fs : gmap string string.

Lemma process_submodule_blank base_dir subs m :
  blank_descriptions subs → blank_descriptions (process_submodule fs base_dir subs m).
Proof.
  intros Hs. unfold process_submodule.
  destruct (first_group m) as [name|]; [|done].
  destruct (negb (truthy name)); [done|].
  destruct (find _ _); [|done].
  by apply blank_descriptions_insert.
Qed.

Lemma process_submodules_blank section_text p :
  blank_descriptions (submodules p) →
  blank_descriptions (submodules (process_submodules fs section_text p)).
Proof.
  unfold process_submodules. simpl.
  generalize (finditer submodule_re section_text), (submodules p).
  intros ms. induction ms as [|m ms IH]; intros subs Hs; simpl; [done|].
  apply IH. by apply process_submodule_blank.
Qed.

Lemma loaded_submodules p : submodules (loaded fs p) = submodules p.
Proof.
  unfold loaded, read_file. destruct (negb _); [|done].
  by destruct (fs !! readme_path p).
Qed.

(** [parse] puts no text into a description: when the submodules that
    the parser holds have empty descriptions, so has everything in the
    result, and so have the submodules that the parser holds afterwards. *)
Lemma parse_blank p :
  blank_descriptions (submodules p) →
  blank_result (parse fs p).1 ∧ blank_descriptions (submodules (parse fs p).2).
Proof.
  intros Hp. destruct (parse_result fs p) as (subs & Hres & Hsubs & Hcase).
  assert (Hb : blank_descriptions subs).
  { destruct Hcase as [->|[_ ->]].
    - by rewrite loaded_submodules.
    - apply process_submodules_blank. by rewrite loaded_submodules. }
  split; [|by rewrite <- Hsubs].
  intros k doc. rewrite Hres. intros [_ <-]%lookup_singleton_Some.
  split; [done|]. simpl. destruct (dict_truthy subs); [|done].
  by intros ? [= <-].
Qed.

End Descriptions.

End ReadmeFacts.

(** ** Registry mode *)

Section RegistryFacts.

Import Py Regex Readme Registry.

(** *** A sample repository *)

(** The README of the sample module: two submodules in its Modules
    section. *)
Definition sample_readme : string :=
  "# terraform-azurerm-widget" +:+ NL +:+ NL
  +:+ "## Modules" +:+ NL +:+ NL
  +:+ "The following Modules are called:" +:+ NL +:+ NL
  +:+ "### <a name=" +:+ DQ +:+ "module_alpha" +:+ DQ +:+ "></a> [alpha](#module\_alpha)"
  +:+ NL +:+ NL +:+ "Source: ./modules/alpha" +:+ NL +:+ NL
  +:+ "Version:" +:+ NL +:+ NL
  +:+ "### <a name=" +:+ DQ +:+ "module_beta" +:+ DQ +:+ "></a> [beta](#module\_beta)"
  +:+ NL +:+ NL +:+ "Source: ./modules/beta" +:+ NL +:+ NL
  +:+ "Version:" +:+ NL +:+ NL
  +:+ "## Outputs" +:+ NL +:+ NL +:+ "No outputs." +:+ NL.

Definition sample_submodule_readme : string :=
  "# alpha" +:+ NL +:+ NL +:+ "## Required Inputs" +:+ NL +:+ NL +:+ location_entry.

Definition raw (path : string) : string := github_raw_base_url +:+ "/" +:+ path.

(** A network in which the registry knows the module, the repository
    keeps its files on the branch [branch], and the submodule beta has no
    README. *)
Definition sample_http (branch : string) (url : string) : http_result :=
  if String.eqb url (registry_base_url +:+ "/v1/modules/acme/widget/azurerm")
  then Response 200 "{...}"
  else if String.eqb url (raw ("acme/widget/" +:+ branch +:+ "/README.md"))
  then Response 200 sample_readme
  else if String.eqb url (raw ("acme/widget/" +:+ branch +:+ "/modules/alpha/README.md"))
  then Response 200 sample_submodule_readme
  else Response 404 "404: Not Found".

Definition sample_world (branch : string) : world :=
  {| http_get := sample_http branch;
     json_source := fun _ => Some "https://github.com/acme/widget";
     writable := fun _ => true;
     cwd := "/opt/avm";
     script_dir := "/opt/avm" |}.

(** *** Fetching a README *)

(** The state with the requests [urls] added to its record. *)
Definition logged (urls : list string) (st : rstate) : rstate :=
  {| st_fetcher := st_fetcher st; st_files := st_files st;
     st_requests := st_requests st ++ urls |}.

(** The state with [b] recorded as the branch of the repository. *)
Definition branch_recorded (b : string) (st : rstate) : rstate :=
  {| st_fetcher := set_repo_branch b (st_fetcher st); st_files := st_files st;
     st_requests := st_requests st |}.

(** The path of the README below the branch. *)
Definition readme_file (path : string) : string :=
  if truthy path
  then if endswith "README.md" path then path else OsPath.join path "README.md"
  else "README.md".

Definition main_url (repo path : string) : string :=
  raw (repo +:+ "/main/" +:+ readme_file path).

Definition master_url (repo path : string) : string :=
  raw (repo +:+ "/master/" +:+ readme_file path).

Lemma readme_paths_urls repo path :
  map raw (readme_paths repo path) = [main_url repo path; master_url repo path].
Proof.
  unfold readme_paths, main_url, master_url, readme_file.
  destruct (truthy path); reflexivity.
Qed.

Lemma startswith_app (p s : string) : startswith p (p +:+ s) = true.
Proof.
  unfold startswith. induction p as [|a p IH]; simpl; [done|].
  by rewrite Ascii.eqb_refl.
Qed.

Lemma contains_startswith (p s : string) : startswith p s = true → contains p s = true.
Proof. intros H. destruct s; simpl; by rewrite H. Qed.

Lemma contains_app (p a b : string) : contains p (a +:+ p +:+ b) = true.
Proof.
  induction a as [|c a IH].
  - change (contains p (p +:+ b) = true).
    apply contains_startswith, startswith_app.
  - change (contains p (String c (a +:+ p +:+ b)) = true).
    simpl. rewrite IH. apply orb_true_r.
Qed.

Lemma app_assoc_string (a b c : string) : (a +:+ b) +:+ c = a +:+ b +:+ c.
Proof.
  induction a as [|x a IH]; [reflexivity|].
  change (String x ((a +:+ b) +:+ c) = String x (a +:+ b +:+ c)). by rewrite IH.
Qed.

Lemma main_url_has_main repo path : contains "main" (main_url repo path) = true.
Proof.
  unfold main_url, raw.
  replace (github_raw_base_url +:+ "/" +:+ repo +:+ "/main/" +:+ readme_file path)
    with ((github_raw_base_url +:+ "/" +:+ repo +:+ "/") +:+ "main"
          +:+ ("/" +:+ readme_file path)).
  - apply contains_app.
  - rewrite !app_assoc_string. reflexivity.
Qed.

Section Fetch.

Variable w : world.

Lemma try_two_paths p1 p2 st :
  try_readme_paths w [p1; p2] st =
    match ok_text (http_get w (raw p1)) with
    | Some text =>
        let b := if contains "main" (raw p1) then "main" else "master" in
        (Some (text, b), branch_recorded b (logged [raw p1] st))
    | None =>
        match ok_text (http_get w (raw p2)) with
        | Some text =>
            let b := if contains "main" (raw p2) then "main" else "master" in
            (Some (text, b), branch_recorded b (logged [raw p1; raw p2] st))
        | None => (None, logged [raw p1; raw p2] st)
        end
    end.
Proof.
  unfold raw, try_readme_paths, bind, request, ret, modify_fetcher.
  destruct (ok_text (http_get w _)); [reflexivity|].
  unfold logged, branch_recorded. simpl.
  destruct (ok_text (http_get w _)); simpl; by rewrite <- app_assoc.
Qed.

(** What a fetch does: it asks for the file on main, and for the file on
    master when main did not answer 200; the state it starts from has no
    part in the choice. *)
Lemma fetch_readme_content_cases repo path st :
  fetch_readme_content w repo path st =
    match ok_text (http_get w (main_url repo path)) with
    | Some text =>
        (Some (text, "main"),
         branch_recorded "main" (logged [main_url repo path] st))
    | None =>
        match ok_text (http_get w (master_url repo path)) with
        | Some text =>
            let b := if contains "main" (master_url repo path)
                     then "main" else "master" in
            (Some (text, b),
             branch_recorded b (logged [main_url repo path; master_url repo path] st))
        | None =>
            (None, logged [main_url repo path; master_url repo path] st)
        end
    end.
Proof.
  unfold fetch_readme_content.
  pose proof (readme_paths_urls repo path) as Hu.
  destruct (readme_paths repo path) as [|p1 [|p2 [|? ?]]]; try discriminate.
  simpl in Hu.
  assert (H1 : raw p1 = main_url repo path) by congruence.
  assert (H2 : raw p2 = master_url repo path) by congruence.
  rewrite try_two_paths, H1, H2.
  by rewrite main_url_has_main.
Qed.

(** The path that [fetch_submodule_readme] asks for. *)
Definition clean_path (submodule_path : string) : string :=
  let p := strip_chars ["/"%char] submodule_path in
  if startswith "./" p then Py.drop 2 p else p.

(** The file in which the README of a submodule is saved. *)
Definition submodule_file (f : fetcher) (submodule_name : string) : string :=
  "working/" +:+ replace "-" "_" (f_name f) +:+ "_"
  +:+ replace "/" "_" (replace "-" "_" submodule_name) +:+ "_README.md".

(** The state after [text] was written to [file]. *)
Definition saved (file text : string) (st : rstate) : rstate :=
  {| st_fetcher := st_fetcher st;
     st_files := <[OsPath.join (cwd w) file := text]> (st_files st);
     st_requests := st_requests st |}.

Lemma fetch_submodule_readme_cases submodule_path submodule_name st repo :
  github_repo (st_fetcher st) = Some repo → truthy repo = true →
  fetch_submodule_readme w submodule_path submodule_name st =
    let out := fetch_readme_content w repo (clean_path submodule_path) st in
    match out.1 with
    | None => (None, out.2)
    | Some (text, _) =>
        let file := submodule_file (st_fetcher st) submodule_name in
        if writable w (OsPath.join (cwd w) file)
        then (Some file, saved file text out.2)
        else (None, out.2)
    end.
Proof.
  intros Hrepo Ht.
  unfold fetch_submodule_readme, bind, get_fetcher, clean_path, submodule_file, saved.
  rewrite Hrepo, Ht. change (negb true) with false. cbv beta zeta iota.
  destruct (fetch_readme_content w repo _ st) as [[[text b]|] st1];
    cbv beta zeta iota; simpl fst; simpl snd; [|reflexivity].
  unfold write_file, ret.
  destruct (writable w _); reflexivity.
Qed.

(** C5, amended. Every fetch of a README, for the module or for a
    submodule, asks for the file on main first and on master only when
    main did not answer 200, and it returns the first text that is
    answered with 200.  A branch is then recorded, the one that is
    returned with the text: main when main answered, and master when
    master answered and its URL does not contain the text main (which
    branch is recorded for a master URL that contains main is left
    open).  The record is not read: a fetch started from a state with
    another recorded branch returns the same and makes the same
    requests, and a submodule fetch makes the requests of a fetch for
    its path. *)
Theorem every_fetch_probes_main_then_master (repo path : string) (st : rstate) :
  let out := fetch_readme_content w repo path st in
  (∀ text, ok_text (http_get w (main_url repo path)) = Some text →
     out = (Some (text, "main"),
            branch_recorded "main" (logged [main_url repo path] st)))
  ∧ (∀ text, ok_text (http_get w (main_url repo path)) = None →
       ok_text (http_get w (master_url repo path)) = Some text →
       ∃ b, out = (Some (text, b),
                   branch_recorded b
                     (logged [main_url repo path; master_url repo path] st))
            ∧ (contains "main" (master_url repo path) = false → b = "master"))
  ∧ (ok_text (http_get w (main_url repo path)) = None →
     ok_text (http_get w (master_url repo path)) = None →
     out = (None, logged [main_url repo path; master_url repo path] st))
  ∧ (∀ b, (fetch_readme_content w repo path (branch_recorded b st)).1 = out.1
          ∧ st_requests (fetch_readme_content w repo path (branch_recorded b st)).2
            = st_requests out.2)
  ∧ (∀ submodule_path submodule_name,
       github_repo (st_fetcher st) = Some repo → truthy repo = true →
       st_requests (fetch_submodule_readme w submodule_path submodule_name st).2
       = st_requests (fetch_readme_content w repo (clean_path submodule_path) st).2).
Proof.
  intros out. unfold out. split; [|split; [|split; [|split]]].
  - intros text H. by rewrite fetch_readme_content_cases, H.
  - intros text H1 H2. rewrite fetch_readme_content_cases, H1, H2. cbv zeta.
    eexists. split; [reflexivity|]. by intros ->.
  - intros H1 H2. by rewrite fetch_readme_content_cases, H1, H2.
  - intros b. rewrite !fetch_readme_content_cases.
    destruct (ok_text (http_get w (main_url repo path))); [done|].
    destruct (ok_text (http_get w (master_url repo path))); done.
  - intros sp name Hrepo Ht.
    rewrite (fetch_submodule_readme_cases sp name st repo Hrepo Ht). simpl.
    destruct (fetch_readme_content w repo (clean_path sp) st) as [[[text b]|] st1];
      simpl; [|done].
    by destruct (writable w _).
Qed.

End Fetch.

(** *** The recorded branch *)

(** The statement of the specification: once the README of the module
    was fetched from a branch, every request of a later submodule fetch
    is for a file on that branch. *)
Definition branch_is_sticky (w : world) (repo : string) (st : rstate) : Prop :=
  ∀ text b st1,
    fetch_readme_content w repo EmptyString st = (Some (text, b), st1) →
    ∀ submodule_path submodule_name url,
      url ∈ skipn (length (st_requests st1))
              (st_requests (fetch_submodule_readme w submodule_path submodule_name st1).2) →
      startswith (raw (repo +:+ "/" +:+ b +:+ "/")) url = true.

(** The fetcher of the sample module once its repository is known. *)
Definition sample_fetcher : fetcher :=
  {| f_module_name := "acme/widget/azurerm";
     f_namespace := "acme"; f_name := "widget"; f_provider := "azurerm";
     github_repo := Some "acme/widget";
     source_url := Some "https://github.com/acme/widget";
     repo_branch := None |}.

Definition sample_state : rstate :=
  {| st_fetcher := sample_fetcher;
     st_files := ∅;
     st_requests := [registry_base_url +:+ "/v1/modules/acme/widget/azurerm"] |}.

(** In a repository that lives on master the README of the module comes
    from master, and the fetch of the submodule alpha asks main again. *)
Lemma master_repository_probes_main_again :
  ¬ branch_is_sticky (sample_world "master") "acme/widget" sample_state.
Proof.
  intros H.
  pose (st1 := branch_recorded "master"
                 (logged [main_url "acme/widget" EmptyString;
                          master_url "acme/widget" EmptyString] sample_state)).
  assert (Hf : fetch_readme_content (sample_world "master") "acme/widget"
                 EmptyString sample_state
               = (Some (sample_readme, "master"), st1))
    by (vm_compute; reflexivity).
  specialize (H _ _ _ Hf "./modules/alpha" "alpha"
                (raw "acme/widget/main/modules/alpha/README.md")).
  assert (Hs : startswith (raw ("acme/widget" +:+ "/" +:+ "master" +:+ "/"))
                 (raw "acme/widget/main/modules/alpha/README.md") = false)
    by (vm_compute; reflexivity).
  rewrite H in Hs; [discriminate|].
  vm_compute. apply list_elem_of_here.
Qed.

Lemma every_fetch_probes_main_then_master_witness :
  ∃ b,
    fetch_readme_content (sample_world "master") "acme/widget" EmptyString sample_state
    = (Some (sample_readme, b),
       branch_recorded b
         (logged [main_url "acme/widget" EmptyString;
                  master_url "acme/widget" EmptyString] sample_state))
    ∧ (contains "main" (master_url "acme/widget" EmptyString) = false → b = "master").
Proof.
  apply (proj1 (proj2 (every_fetch_probes_main_then_master
                         (sample_world "master") "acme/widget" EmptyString
                         sample_state))).
  - vm_compute. reflexivity.
  - vm_compute. reflexivity.
Defined.

(** *** Failures before the README is parsed *)

(** The state in which [main] starts to fetch. *)
Definition initial_state (f : fetcher) (files : gmap string string) : rstate :=
  {| st_fetcher := f; st_files := files; st_requests := [] |}.

(** One of the three stages of [fetch_and_save_readme] fails: the lookup
    of the source, the extraction of the repository, or the fetch of the
    README of the module. *)
Definition stage_fails (w : world) (st0 : rstate) : Prop :=
  (fetch_module_source w st0).1 = None
  ∨ (∃ src, (fetch_module_source w st0).1 = Some src
            ∧ (extract_github_repo src (fetch_module_source w st0).2).1 = None)
  ∨ (∃ src repo,
       (fetch_module_source w st0).1 = Some src
       ∧ (extract_github_repo src (fetch_module_source w st0).2).1 = Some repo
       ∧ (fetch_readme_content w repo EmptyString
            (extract_github_repo src (fetch_module_source w st0).2).2).1 = None).

(** The statement of the specification: after such a failure the process
    ends with a status that is not zero. *)
Definition failure_exits_nonzero (w : world) (module_name : string)
    (files : gmap string string) : Prop :=
  ∀ f, new_fetcher module_name = Some f →
       stage_fails w (initial_state f files) →
       exit_status (script w [module_name] files).1 ≠ 0.

Section Failures.

Variable w : world.

Lemma fetch_module_source_files st :
  st_files (fetch_module_source w st).2 = st_files st.
Proof.
  unfold fetch_module_source, bind, get_fetcher, request, ret. cbv beta zeta iota.
  destruct (http_get w _) as [|code body]; [done|].
  destruct (is_error_status code); [done|].
  destruct (json_source w body) as [src|]; [|done].
  by destruct (truthy src).
Qed.

Lemma extract_github_repo_files src st :
  st_files (extract_github_repo src st).2 = st_files st.
Proof.
  unfold extract_github_repo. destruct (first_match _ _); done.
Qed.

Lemma fetch_readme_content_files repo path st :
  st_files (fetch_readme_content w repo path st).2 = st_files st.
Proof.
  rewrite fetch_readme_content_cases.
  destruct (ok_text (http_get w (main_url repo path))); [done|].
  destruct (ok_text (http_get w (master_url repo path))); done.
Qed.

(** A failure in one of the three stages makes [fetch_and_save_readme]
    return nothing and leaves the files as they were. *)
Lemma fetch_and_save_readme_fails st0 :
  stage_fails w st0 →
  (fetch_and_save_readme w st0).1 = None
  ∧ st_files (fetch_and_save_readme w st0).2 = st_files st0.
Proof.
  unfold stage_fails, fetch_and_save_readme, bind. cbv beta zeta iota.
  pose proof (fetch_module_source_files st0) as F1. revert F1.
  destruct (fetch_module_source w st0) as [[src|] st1]; simpl; [|done].
  intros F1.
  pose proof (extract_github_repo_files src st1) as F2. revert F2.
  destruct (extract_github_repo src st1) as [[repo|] st2] eqn:E2; simpl; cycle 1.
  { intros F2 _. split; [done | congruence]. }
  intros F2.
  destruct (truthy repo); simpl; cycle 1.
  { intros _. split; [done | congruence]. }
  pose proof (fetch_readme_content_files repo EmptyString st2) as F3. revert F3.
  destruct (fetch_readme_content w repo EmptyString st2) as [[[text b]|] st3] eqn:E3;
    simpl; cycle 1.
  { intros F3 _. split; [done | congruence]. }
  intros F3 [H|[(s' & H1 & H2)|(s' & r' & H1 & H2 & H3)]]; exfalso.
  - discriminate.
  - injection H1 as <-. rewrite E2 in H2. discriminate.
  - injection H1 as <-. rewrite E2 in H2, H3. simpl in H2, H3.
    injection H2 as <-. rewrite E3 in H3. discriminate.
Qed.

Lemma help_is_no_module_name (a : string) :
  a ∈ ["-h"; "--help"; "help"] → new_fetcher a = None.
Proof.
  intros Ha. repeat (apply elem_of_cons in Ha as [->|Ha]; [reflexivity|]).
  by apply elem_of_nil in Ha.
Qed.

(** C6, amended. In registry mode a failure of the source lookup, of
    the repository extraction or of the fetch of the module's README
    ends the run before anything is parsed or written: [main] logs the
    failure and returns, and the process then ends normally, with exit
    status 0. *)
Theorem stage_failure_aborts_with_status_zero
    (module_name : string) (files : gmap string string) (f : fetcher) :
  new_fetcher module_name = Some f →
  stage_fails w (initial_state f files) →
  (main w [module_name] files).1 = FetchFailed
  ∧ st_files (main w [module_name] files).2 = files
  ∧ (script w [module_name] files).2 = Some (main w [module_name] files)
  ∧ exit_status (script w [module_name] files).1 = 0.
Proof.
  intros Hf Hfail.
  destruct (fetch_and_save_readme_fails _ Hfail) as [Hnone Hfiles].
  assert (Hmain : (main w [module_name] files).1 = FetchFailed
                  ∧ st_files (main w [module_name] files).2 = files).
  { unfold main. rewrite Hf. unfold main_registry, bind. cbv beta zeta iota.
    fold (initial_state f files).
    destruct (fetch_and_save_readme w (initial_state f files)) as [r st1].
    simpl in Hnone, Hfiles. subst r. simpl. done. }
  destruct Hmain as [Hm1 Hm2].
  assert (Hhelp : bool_decide (module_name ∈ ["-h"; "--help"; "help"]) = false).
  { apply bool_decide_eq_false. intros Hin.
    apply help_is_no_module_name in Hin. congruence. }
  unfold script. rewrite Hhelp. simpl. done.
Qed.

End Failures.

(** A network on which every request raises. *)
Definition offline_world : world :=
  {| http_get := fun _ => RequestError;
     json_source := fun _ => None;
     writable := fun _ => true;
     cwd := "/opt/avm";
     script_dir := "/opt/avm" |}.

(** The fetcher that [main] makes for the sample module. *)
Definition fresh_fetcher : fetcher :=
  {| f_module_name := "acme/widget/azurerm";
     f_namespace := "acme"; f_name := "widget"; f_provider := "azurerm";
     github_repo := None; source_url := None; repo_branch := None |}.

Lemma offline_lookup_fails :
  stage_fails offline_world (initial_state fresh_fetcher ∅).
Proof. left. vm_compute. reflexivity. Qed.

(** Without a network the source lookup fails, and the process still
    ends with status 0. *)
Lemma offline_run_exits_with_zero :
  ¬ failure_exits_nonzero offline_world "acme/widget/azurerm" ∅.
Proof.
  intros H. apply (H fresh_fetcher).
  - vm_compute. reflexivity.
  - apply offline_lookup_fails.
  - vm_compute. reflexivity.
Qed.

Lemma stage_failure_aborts_with_status_zero_witness :
  (main offline_world ["acme/widget/azurerm"] ∅).1 = FetchFailed
  ∧ st_files (main offline_world ["acme/widget/azurerm"] ∅).2 = ∅
  ∧ (script offline_world ["acme/widget/azurerm"] ∅).2
    = Some (main offline_world ["acme/widget/azurerm"] ∅)
  ∧ exit_status (script offline_world ["acme/widget/azurerm"] ∅).1 = 0.
Proof.
  apply (stage_failure_aborts_with_status_zero offline_world
           "acme/widget/azurerm" ∅ fresh_fetcher).
  - vm_compute. reflexivity.
  - left. vm_compute. reflexivity.
Defined.

(** *** The loop over the submodules *)

(** Two states whose fetchers name the same repository and module. *)
Definition same_repo (st st' : rstate) : Prop :=
  github_repo (st_fetcher st') = github_repo (st_fetcher st)
  ∧ f_name (st_fetcher st') = f_name (st_fetcher st).

(** The fetch of the README of [info], started in [st], gives a file. *)
Definition fetched (w : world) (st : rstate) (info : submodule_info) : bool :=
  truthy_opt (fetch_submodule_readme w (info_path info) (info_name info) st).1.

Section Loop.

Variable w : world.

Lemma same_repo_refl st : same_repo st st.
Proof. done. Qed.

Lemma fetch_readme_content_same_repo repo path st :
  same_repo st (fetch_readme_content w repo path st).2.
Proof.
  rewrite fetch_readme_content_cases.
  destruct (ok_text (http_get w (main_url repo path))); [done|].
  destruct (ok_text (http_get w (master_url repo path))); done.
Qed.

Lemma fetch_readme_content_result repo path st st' :
  (fetch_readme_content w repo path st').1 = (fetch_readme_content w repo path st).1.
Proof.
  rewrite !fetch_readme_content_cases.
  destruct (ok_text (http_get w (main_url repo path))); [done|].
  destruct (ok_text (http_get w (master_url repo path))); done.
Qed.

(** The result of a submodule fetch depends on the repository and the
    module only, and the fetch changes neither. *)
Lemma fetch_submodule_readme_same_repo submodule_path submodule_name st st' :
  same_repo st st' →
  (fetch_submodule_readme w submodule_path submodule_name st').1
  = (fetch_submodule_readme w submodule_path submodule_name st).1
  ∧ same_repo st (fetch_submodule_readme w submodule_path submodule_name st').2.
Proof.
  intros [Hr Hn].
  destruct (github_repo (st_fetcher st)) as [repo|] eqn:E; cycle 1.
  { unfold fetch_submodule_readme, bind, get_fetcher. cbv beta zeta iota.
    rewrite Hr, E. split; [done|]. split; simpl; congruence. }
  destruct (truthy repo) eqn:Et; cycle 1.
  { unfold fetch_submodule_readme, bind, get_fetcher. cbv beta zeta iota.
    rewrite Hr, E, Et. split; [done|]. split; simpl; congruence. }
  rewrite (fetch_submodule_readme_cases w _ _ st repo E Et).
  rewrite (fetch_submodule_readme_cases w _ _ st' repo) by congruence.
  cbv zeta. unfold submodule_file. rewrite Hn.
  rewrite (fetch_readme_content_result repo _ st st').
  pose proof (fetch_readme_content_same_repo repo (clean_path submodule_path) st')
    as [Hr' Hn'].
  destruct (fetch_readme_content w repo (clean_path submodule_path) st).1
    as [[text b]|]; cycle 1.
  { split; [done|]. split; simpl; congruence. }
  destruct (writable w _); (split; [done|]); split; simpl; congruence.
Qed.

Lemma submodule_step_cases acc info st :
  submodule_step w acc info st
  = (if fetched w st info
     then <[info_name info :=
              {| sub_name := info_name info;
                 sub_path := Some (info_path info);
                 sub_description := info_description info;
                 sub_inputs :=
                   (parse_readme_directly
                      (st_files (fetch_submodule_readme w (info_path info)
                                   (info_name info) st).2)
                      (OsPath.join (script_dir w)
                         (default EmptyString
                            (fetch_submodule_readme w (info_path info)
                               (info_name info) st).1))).1;
                 sub_outputs :=
                   (parse_readme_directly
                      (st_files (fetch_submodule_readme w (info_path info)
                                   (info_name info) st).2)
                      (OsPath.join (script_dir w)
                         (default EmptyString
                            (fetch_submodule_readme w (info_path info)
                               (info_name info) st).1))).2 |}]> acc
     else acc,
     (fetch_submodule_readme w (info_path info) (info_name info) st).2).
Proof.
  unfold submodule_step, fetched, bind, get_files, ret. cbv beta zeta.
  destruct (fetch_submodule_readme w (info_path info) (info_name info) st)
    as [r st1]. simpl.
  destruct (truthy_opt r); reflexivity.
Qed.

Lemma fetched_same_repo st st' info :
  same_repo st st' → fetched w st' info = fetched w st info.
Proof.
  intros H. unfold fetched.
  by destruct (fetch_submodule_readme_same_repo (info_path info) (info_name info)
                 st st' H) as [-> _].
Qed.

(** The names under which the loop stores submodules are the names of
    the submodules whose README was fetched. *)
Lemma process_infos_dom infos acc st0 st :
  same_repo st0 st →
  dom (process_infos w infos acc st).1
  = dom acc ∪ list_to_set (map info_name (List.filter (fetched w st0) infos))
  ∧ same_repo st0 (process_infos w infos acc st).2.
Proof.
  revert acc st. induction infos as [|info infos IH]; intros acc st Hst; simpl.
  - split; [|done]. unfold ret. simpl. by rewrite (right_id_L ∅ (∪)).
  - unfold bind. rewrite submodule_step_cases.
    destruct (fetch_submodule_readme_same_repo (info_path info) (info_name info)
                st0 st Hst) as [_ Hst'].
    rewrite (fetched_same_repo st0 st info Hst).
    destruct (fetched w st0 info); simpl.
    + match goal with
      | |- context [process_infos w infos ?a ?s] =>
          destruct (IH a s Hst') as [E ?]
      end.
      rewrite E. split; [|done]. rewrite dom_insert_L. simpl.
      rewrite (assoc_L (∪)). f_equal. apply (comm_L (∪)).
    + by destruct (IH acc _ Hst') as [-> ?].
Qed.

Lemma process_infos_blank infos acc st :
  Forall (λ info, info_description info = EmptyString) infos →
  blank_descriptions acc →
  blank_descriptions (process_infos w infos acc st).1.
Proof.
  revert acc st. induction infos as [|info infos IH]; intros acc st Hi Hacc; simpl.
  - done.
  - apply Forall_cons in Hi as [Hd Hi]. unfold bind. rewrite submodule_step_cases.
    apply IH; [done|]. destruct (fetched w st info); [|done].
    by apply blank_descriptions_insert.
Qed.

Lemma discover_submodules_blank modules_section :
  Forall (λ info, info_description info = EmptyString)
    (discover_submodules modules_section).
Proof.
  unfold discover_submodules. apply Forall_fmap, Forall_true. done.
Qed.

End Loop.

(** *** From the README to the result *)

(** The parser that [main] makes for the README at [path]. *)
Definition parser_at (files : gmap string string) (path : string) : parser :=
  read_file files (new_parser path).

(** The submodules that [main] collects, with the state afterwards. *)
Definition collected (w : world) (registry : bool) (p : parser) (st : rstate)
  : gmap string submodule_doc * rstate :=
  if registry && truthy_opt (github_repo (st_fetcher st))
  then
    if truthy (extract_section (content p) "Modules")
    then process_infos w (discover_submodules (extract_section (content p) "Modules")) ∅ st
    else (∅, st)
  else (∅, st).

(** The parser once the collected submodules are handed over. *)
Definition ready (data : gmap string submodule_doc) (p : parser) : parser :=
  if dict_truthy data then set_submodules data p else p.

Section Report.

Variable w : world.

Lemma parse_and_report_shape registry path st :
  let p0 := parser_at (st_files st) path in
  let loop := collected w registry p0 st in
  let p1 := ready loop.1 p0 in
  let files := st_files loop.2 in
  parse_and_report w registry path st
  = (Completed (parse files p1).1 (parse files (parse files p1).2).1, loop.2).
Proof.
  unfold parse_and_report, collected, ready, parser_at, bind, get_files,
    get_fetcher, ret.
  cbv beta zeta iota.
  destruct (registry && truthy_opt (github_repo (st_fetcher st)));
    [destruct (truthy (extract_section _ "Modules"));
       [destruct (process_infos w _ ∅ st) as [data st2]|]|];
    cbn [fst snd];
    match goal with
    | |- context [parse ?fs ?p] =>
        generalize (parse fs p); intros [r1 q1]; cbn [fst snd];
        generalize (parse fs q1); intros [r2 q2]; reflexivity
    end.
Qed.

Lemma parser_at_submodules files path : submodules (parser_at files path) = ∅.
Proof.
  unfold parser_at, read_file. by destruct (files !! _).
Qed.

Lemma ready_submodules data p :
  submodules p = ∅ → submodules (ready data p) = data.
Proof.
  intros Hp. unfold ready, dict_truthy. destruct (size data =? 0)%nat eqn:E; simpl.
  - apply Nat.eqb_eq, map_size_empty_iff in E. congruence.
  - done.
Qed.

Lemma collected_blank registry p st : blank_descriptions (collected w registry p st).1.
Proof.
  unfold collected. destruct (_ && _); [|apply blank_descriptions_empty].
  destruct (truthy _); [|apply blank_descriptions_empty].
  apply process_infos_blank;
    [apply discover_submodules_blank | apply blank_descriptions_empty].
Qed.

(** C9. Whenever [main] completes, the description of the module and of
    every submodule is the empty string, in the result of the call of
    [parse] and in the result that is serialised; no text of any README
    reaches a description. *)
Theorem descriptions_are_always_empty
    (argv : list string) (files : gmap string string)
    (parsed_data json_data : gmap string module_doc) (st : rstate) :
  main w argv files = (Completed parsed_data json_data, st) →
  blank_result parsed_data ∧ blank_result json_data.
Proof.
  assert (Hrep : ∀ registry path st0 st1,
            parse_and_report w registry path st0
            = (Completed parsed_data json_data, st1) →
            blank_result parsed_data ∧ blank_result json_data).
  { intros registry path st0 st1. rewrite parse_and_report_shape. cbv zeta.
    set (p1 := ready _ _). set (fs := st_files _).
    assert (H1 : blank_descriptions (submodules p1)).
    { unfold p1. rewrite ready_submodules by apply parser_at_submodules.
      apply collected_blank. }
    destruct (parse_blank fs p1 H1) as [Hr1 Hs1].
    destruct (parse_blank fs (parse fs p1).2 Hs1) as [Hr2 _].
    revert Hr1 Hr2.
    generalize (parse fs (parse fs p1).2).1. generalize (parse fs p1).1.
    intros r1 r2 Hr1 Hr2 Heq.
    assert (parsed_data = r1) by congruence.
    assert (json_data = r2) by congruence.
    by subst. }
  unfold main. destruct argv as [|module_name argv].
  - unfold main_local, bind, get_files, ret. cbv beta zeta iota.
    destruct (exists_file _ _); [apply Hrep|].
    destruct (exists_file _ _); [apply Hrep|]. discriminate.
  - destruct (new_fetcher module_name) as [f|]; [|discriminate].
    unfold main_registry, bind. cbv beta zeta iota.
    destruct (fetch_and_save_readme w _) as [r st1].
    destruct (negb (truthy_opt r)); [discriminate|]. apply Hrep.
Qed.

Lemma extract_github_repo_sets src st repo st' :
  extract_github_repo src st = (Some repo, st') →
  github_repo (st_fetcher st') = Some repo.
Proof.
  unfold extract_github_repo. destruct (first_match _ _); [|discriminate].
  unfold bind, modify_fetcher, ret. cbv beta zeta iota. by intros [= <- <-].
Qed.

(** After a successful [fetch_and_save_readme] the fetcher knows the
    repository and the path of the saved file is not empty. *)
Lemma fetch_and_save_readme_success st path st1 :
  fetch_and_save_readme w st = (Some path, st1) →
  (∃ repo, github_repo (st_fetcher st1) = Some repo ∧ truthy repo = true)
  ∧ truthy path = true.
Proof.
  unfold fetch_and_save_readme, bind. cbv beta zeta iota.
  destruct (fetch_module_source w st) as [[src|] sa]; [|discriminate].
  destruct (extract_github_repo src sa) as [[repo|] sb] eqn:E2; [|discriminate].
  apply extract_github_repo_sets in E2.
  destruct (truthy repo) eqn:Et; simpl; [|discriminate].
  pose proof (fetch_readme_content_same_repo w repo EmptyString sb) as [Hr _].
  destruct (fetch_readme_content w repo EmptyString sb) as [[[text b]|] sc];
    [|discriminate].
  simpl in Hr. unfold get_fetcher, write_file, ret. cbv beta zeta iota.
  destruct (writable w _); intros [= <- <-]; simpl.
  split; [|reflexivity]. exists repo. split; [congruence | done].
Qed.

End Report.

(** *** Counting the submodules *)

Lemma filter_length_split {A} (f : A → bool) (l : list A) :
  length (List.filter f l) + length (List.filter (λ x, negb (f x)) l) = length l.
Proof.
  induction l as [|x l IH]; simpl; [done|].
  destruct (f x); simpl; lia.
Qed.

Lemma NoDup_map_filter {A B} (g : A → B) (f : A → bool) (l : list A) :
  NoDup (map g l) → NoDup (map g (List.filter f l)).
Proof.
  induction l as [|x l IH]; simpl; [done|].
  intros [Hx Hl]%NoDup_cons. destruct (f x); simpl; [|by apply IH].
  apply NoDup_cons. split; [|by apply IH].
  intros Hin. apply Hx. apply list_elem_of_fmap in Hin as (y & -> & Hy).
  apply list_elem_of_fmap. exists y. split; [done|].
  by apply list_elem_of_In, filter_In in Hy as [?%list_elem_of_In _].
Qed.

(** [parse] on a parser that has its content, for a README without a
    Submodules section: the submodules that the parser holds go into the
    result as they are, and the parser keeps them. *)
Lemma parse_without_local_submodules fs p :
  truthy (content p) = true →
  extract_section (content p) "Submodules" = EmptyString →
  submodules (parse fs p).2 = submodules p
  ∧ content (parse fs p).2 = content p
  ∧ module_name (parse fs p).2 = module_name p
  ∧ ∃ doc, (parse fs p).1 !! module_name p = Some doc
           ∧ md_submodules doc
             = if dict_truthy (submodules p) then Some (submodules p) else None.
Proof.
  intros Hc Hs. unfold parse. rewrite Hc. simpl negb. cbv iota.
  rewrite Hs. simpl truthy. cbv beta zeta iota. simpl.
  repeat split; try done.
  eexists. split; [apply lookup_singleton_eq|]. done.
Qed.

Lemma size_default_submodules (data : gmap string submodule_doc) :
  size (default ∅ (if dict_truthy data then Some data else None)) = size data.
Proof.
  unfold dict_truthy. destruct (size data =? 0)%nat eqn:E; simpl; [|done].
  apply Nat.eqb_eq in E. by rewrite E, map_size_empty.
Qed.

Lemma ready_fields data p :
  content (ready data p) = content p ∧ module_name (ready data p) = module_name p.
Proof. unfold ready. by destruct (dict_truthy data). Qed.

(** C7, amended. In a registry-mode run whose README has no Submodules
    section and whose Modules section names N submodules with pairwise
    different names, if the fetch of the README fails for exactly one of
    them, the run completes and the submodules mapping of the result has
    exactly N-1 entries. *)
Theorem one_failed_submodule_leaves_the_others
    (w : world) (module_name : string) (files : gmap string string)
    (f : fetcher) (path : string) (st1 : rstate) :
  new_fetcher module_name = Some f →
  fetch_and_save_readme w (initial_state f files) = (Some path, st1) →
  let p0 := parser_at (st_files st1) (OsPath.join (script_dir w) path) in
  let infos := discover_submodules (extract_section (content p0) "Modules") in
  NoDup (map info_name infos) →
  length (List.filter (λ info, negb (fetched w st1 info)) infos) = 1 →
  extract_section (content p0) "Submodules" = EmptyString →
  ∃ parsed_data json_data st' doc,
    main w [module_name] files = (Completed parsed_data json_data, st')
    ∧ json_data !! Readme.module_name p0 = Some doc
    ∧ size (default ∅ (md_submodules doc)) = length infos - 1.
Proof.
  intros Hf Hfetch p0 infos Hnd Hone Hsub.
  destruct (fetch_and_save_readme_success w _ _ _ Hfetch)
    as [(repo & Hrepo & Htr) Htp].
  assert (Hms : truthy (extract_section (content p0) "Modules") = true).
  { destruct (extract_section (content p0) "Modules") eqn:E; [|done].
    unfold infos in Hone. rewrite ?E in Hone. vm_compute in Hone. discriminate. }
  assert (Hc : truthy (content p0) = true).
  { destruct (content p0) eqn:E; [|done]. rewrite ?E in Hms. vm_compute in Hms.
    discriminate. }
  assert (Hloop : collected w true p0 st1 = process_infos w infos ∅ st1).
  { unfold collected. rewrite Hrepo. simpl. by rewrite Htr, Hms. }
  destruct (process_infos_dom w infos ∅ st1 st1 (same_repo_refl st1)) as [Hdom _].
  set (data := (process_infos w infos ∅ st1).1) in *.
  set (fs := st_files (process_infos w infos ∅ st1).2).
  set (p1 := ready data p0).
  destruct (ready_fields data p0) as [Hc1 Hm1]. fold p1 in Hc1, Hm1.
  assert (Hs1 : submodules p1 = data)
    by (apply ready_submodules, parser_at_submodules).
  destruct (parse_without_local_submodules fs p1) as (Hs2 & Hc2 & Hm2 & _);
    [congruence | congruence |].
  destruct (parse_without_local_submodules fs (parse fs p1).2)
    as (_ & _ & _ & doc & Hdoc & Hsubs); [congruence | congruence |].
  exists (parse fs p1).1, (parse fs (parse fs p1).2).1,
    (process_infos w infos ∅ st1).2, doc.
  split; [|split].
  - unfold main. rewrite Hf. unfold main_registry, bind. cbv beta zeta iota.
    fold (initial_state f files). rewrite Hfetch.
    change (truthy_opt (Some path)) with (truthy path). rewrite Htp.
    change (negb true) with false. cbv iota.
    change (default EmptyString (Some path)) with path.
    rewrite parse_and_report_shape. cbv zeta. fold p0. by rewrite Hloop.
  - rewrite <- Hm1, <- Hm2. exact Hdoc.
  - rewrite Hsubs, Hs2, Hs1, size_default_submodules.
    rewrite <- size_dom, Hdom, dom_empty_L, (left_id_L ∅ (∪)).
    rewrite size_list_to_set by by apply NoDup_map_filter.
    rewrite length_map.
    pose proof (filter_length_split (fetched w st1) infos). lia.
Qed.

(** The statement of the specification: one failed fetch among the N
    submodules of the Modules section leaves N-1 entries. *)
Definition one_failure_leaves_the_others (w : world) (module_name : string)
    (files : gmap string string) : Prop :=
  ∀ f path st1,
    new_fetcher module_name = Some f →
    fetch_and_save_readme w (initial_state f files) = (Some path, st1) →
    let p0 := parser_at (st_files st1) (OsPath.join (script_dir w) path) in
    let infos := discover_submodules (extract_section (content p0) "Modules") in
    length (List.filter (λ info, negb (fetched w st1 info)) infos) = 1 →
    ∃ parsed_data json_data st' doc,
      main w [module_name] files = (Completed parsed_data json_data, st')
      ∧ json_data !! Readme.module_name p0 = Some doc
      ∧ size (default ∅ (md_submodules doc)) = length infos - 1.

(** A README whose Modules section names alpha twice, with two paths,
    and beta once. *)
Definition twin_readme : string :=
  "# terraform-azurerm-widget" +:+ NL +:+ NL
  +:+ "## Modules" +:+ NL +:+ NL
  +:+ "### <a name=" +:+ DQ +:+ "module_alpha" +:+ DQ +:+ "></a> [alpha](#module\_alpha)"
  +:+ NL +:+ NL +:+ "Source: ./modules/alpha" +:+ NL +:+ NL
  +:+ "### <a name=" +:+ DQ +:+ "module_alpha" +:+ DQ +:+ "></a> [alpha](#module\_alpha)"
  +:+ NL +:+ NL +:+ "Source: ./modules/alpha2" +:+ NL +:+ NL
  +:+ "### <a name=" +:+ DQ +:+ "module_beta" +:+ DQ +:+ "></a> [beta](#module\_beta)"
  +:+ NL +:+ NL +:+ "Source: ./modules/beta" +:+ NL +:+ NL
  +:+ "## Outputs" +:+ NL +:+ NL +:+ "No outputs." +:+ NL.

Definition twin_http (url : string) : http_result :=
  if String.eqb url (registry_base_url +:+ "/v1/modules/acme/widget/azurerm")
  then Response 200 "{...}"
  else if String.eqb url (raw "acme/widget/main/README.md")
  then Response 200 twin_readme
  else if String.eqb url (raw "acme/widget/main/modules/alpha/README.md")
  then Response 200 sample_submodule_readme
  else if String.eqb url (raw "acme/widget/main/modules/alpha2/README.md")
  then Response 200 sample_submodule_readme
  else Response 404 "404: Not Found".

Definition twin_world : world :=
  {| http_get := twin_http;
     json_source := fun _ => Some "https://github.com/acme/widget";
     writable := fun _ => true;
     cwd := "/opt/avm";
     script_dir := "/opt/avm" |}.

(** Three submodules are found and only the fetch for beta fails, but
    the two entries for alpha share a key: one entry is left, not two. *)
Lemma twin_names_leave_one_entry :
  ¬ one_failure_leaves_the_others twin_world "acme/widget/azurerm" ∅.
Proof.
  intros H.
  destruct (H fresh_fetcher "working/widget_README.md"
              (fetch_and_save_readme twin_world (initial_state fresh_fetcher ∅)).2)
    as (parsed & json & st' & doc & Hmain & Hdoc & Hsize).
  - vm_compute. reflexivity.
  - vm_compute. reflexivity.
  - vm_compute. reflexivity.
  - vm_compute in Hmain. injection Hmain as _ <- _.
    vm_compute in Hdoc. injection Hdoc as <-.
    vm_compute in Hsize. discriminate.
Qed.

(** The two results of a completed run. *)
Definition parsed_of (o : outcome) : gmap string module_doc :=
  match o with Completed parsed_data _ => parsed_data | _ => ∅ end.

Definition json_of (o : outcome) : gmap string module_doc :=
  match o with Completed _ json_data => json_data | _ => ∅ end.

(** The run for the sample module when the repository is on main: alpha
    is fetched, beta is not. *)
Definition sample_run : outcome * rstate :=
  main (sample_world "main") ["acme/widget/azurerm"] ∅.

Lemma descriptions_are_always_empty_witness :
  blank_result (parsed_of sample_run.1) ∧ blank_result (json_of sample_run.1).
Proof.
  apply (descriptions_are_always_empty (sample_world "main")
           ["acme/widget/azurerm"] ∅ _ _ sample_run.2).
  vm_compute. reflexivity.
Defined.

Lemma one_failed_submodule_leaves_the_others_witness :
  let w := sample_world "main" in
  let st1 := (fetch_and_save_readme w (initial_state fresh_fetcher ∅)).2 in
  let p0 := parser_at (st_files st1)
              (OsPath.join (script_dir w) "working/widget_README.md") in
  let infos := discover_submodules (extract_section (content p0) "Modules") in
  ∃ parsed_data json_data st' doc,
    main w ["acme/widget/azurerm"] ∅ = (Completed parsed_data json_data, st')
    ∧ json_data !! Readme.module_name p0 = Some doc
    ∧ size (default ∅ (md_submodules doc)) = length infos - 1.
Proof.
  apply (one_failed_submodule_leaves_the_others (sample_world "main")
           "acme/widget/azurerm" ∅ fresh_fetcher "working/widget_README.md").
  - vm_compute. reflexivity.
  - vm_compute. reflexivity.
  - apply (bool_decide_unpack _). vm_compute. exact I.
  - vm_compute. reflexivity.
  - vm_compute. reflexivity.
Defined.

End RegistryFacts.

(** * Further properties of the two tools *)

(** ** Splitting, joining and replacing *)

Section StringFacts.

Import Py.

Lemma append_empty_r (s : string) : s +:+ EmptyString = s.
Proof.
  induction s as [|a s IH]; [reflexivity|].
  change (String a (s +:+ EmptyString) = String a s). by rewrite IH.
Qed.

Lemma append_cons (a : ascii) (s t : string) : String a s +:+ t = String a (s +:+ t).
Proof. reflexivity. Qed.

Lemma append_nil (t : string) : EmptyString +:+ t = t.
Proof. reflexivity. Qed.

Lemma length_append (s t : string) :
  String.length (s +:+ t) = String.length s + String.length t.
Proof.
  induction s as [|a s IH]; [done|].
  change (S (String.length (s +:+ t)) = S (String.length s + String.length t)).
  by rewrite IH.
Qed.

Lemma rev_app_append (s t : string) : String.rev_app s t = String.rev s +:+ t.
Proof.
  unfold String.rev. revert t. induction s as [|a s IH]; intros t; [reflexivity|].
  simpl. rewrite (IH (String a t)), (IH (String a EmptyString)).
  by rewrite app_assoc_string.
Qed.

Lemma rev_cons (a : ascii) (s : string) :
  String.rev (String a s) = String.rev s +:+ String a EmptyString.
Proof. unfold String.rev at 1. simpl. apply rev_app_append. Qed.

Lemma drop_app_length (p r : string) : Py.drop (String.length p) (p +:+ r) = r.
Proof.
  induction p as [|a p IH]; [reflexivity|].
  change (Py.drop (S (String.length p)) (String a (p +:+ r)) = r). simpl. exact IH.
Qed.

Lemma take_app_length (p r : string) : Py.take (String.length p) (p +:+ r) = p.
Proof.
  induction p as [|a p IH]; [by destruct r|].
  change (String a p +:+ r) with (String a (p +:+ r)). simpl. by rewrite IH.
Qed.

Lemma take_all (s : string) : Py.take (String.length s) s = s.
Proof.
  rewrite <- (append_empty_r s) at 2. by rewrite take_app_length.
Qed.

Lemma strip_prefix_app (p s : string) : strip_prefix p (p +:+ s) = Some s.
Proof.
  induction p as [|a p IH]; [reflexivity|].
  change (strip_prefix (String a p) (String a (p +:+ s)) = Some s).
  simpl. by rewrite Ascii.eqb_refl.
Qed.

Lemma strip_prefix_Some (p s r : string) : strip_prefix p s = Some r → s = p +:+ r.
Proof.
  revert s. induction p as [|a p IH]; intros s; simpl.
  - by intros [= ->].
  - destruct s as [|b s]; [discriminate|].
    destruct (Ascii.eqb a b) eqn:E; [|discriminate].
    apply Ascii.eqb_eq in E as ->. intros H%IH. subst s. reflexivity.
Qed.

Lemma contains_cons_false (p : string) (a : ascii) (s : string) :
  contains p (String a s) = false →
  startswith p (String a s) = false ∧ contains p s = false.
Proof. simpl. by intros [? ?]%orb_false_elim. Qed.

Lemma startswith_app_false (a b s : string) :
  startswith a s = false → startswith (a +:+ b) s = false.
Proof.
  unfold startswith. revert s. induction a as [|x a IH]; intros s; simpl.
  - discriminate.
  - change (String x a +:+ b) with (String x (a +:+ b)). simpl.
    destruct s as [|y s]; [done|]. destruct (Ascii.eqb x y); [apply IH|done].
Qed.

(** A text that does not contain [a] does not contain a text that
    begins with [a]. *)
Lemma contains_app_false (a b s : string) :
  contains a s = false → contains (a +:+ b) s = false.
Proof.
  induction s as [|y s IH]; simpl.
  - rewrite !orb_false_r. apply startswith_app_false.
  - intros [H1 H2]%orb_false_elim. rewrite (startswith_app_false _ _ _ H1). simpl.
    by apply IH.
Qed.

Lemma split_go_nonempty (sep : string) (k : nat) (cur s : string) :
  split_go sep k cur s ≠ [].
Proof.
  revert k cur. induction s as [|a s IH]; intros k cur.
  - destruct k; simpl; discriminate.
  - destruct k; simpl; [|apply IH].
    destruct (startswith sep (String a s)); [discriminate | apply IH].
Qed.

Lemma join_cons (sep x : string) (l : list string) :
  l ≠ [] → join sep (x :: l) = x +:+ sep +:+ join sep l.
Proof. destruct l; [done|reflexivity]. Qed.

Lemma join_split_go (sep : string) (k : nat) (cur s : string) :
  sep ≠ EmptyString →
  join sep (split_go sep k cur s) = String.rev cur +:+ Py.drop k s.
Proof.
  intros Hsep. revert k cur. induction s as [|a s IH]; intros k cur.
  - destruct k; simpl; by rewrite append_empty_r.
  - destruct k as [|k]; [|simpl; apply IH].
    cbn [split_go]. unfold startswith.
    destruct (strip_prefix sep (String a s)) as [r|] eqn:E.
    + rewrite join_cons by apply split_go_nonempty. rewrite IH.
      apply strip_prefix_Some in E.
      destruct sep as [|b sep']; [done|].
      change (String a s = String b (sep' +:+ r)) in E. injection E as -> ->.
      change (String.length (String b sep') - 1) with (String.length sep' - 0).
      rewrite Nat.sub_0_r, drop_app_length.
      change (String.rev EmptyString +:+ r) with r. reflexivity.
    + rewrite IH, rev_cons, app_assoc_string. reflexivity.
Qed.

(** Joining the pieces of a split with the separator gives the text
    back. *)
Lemma join_split (sep s : string) : sep ≠ EmptyString → join sep (split sep s) = s.
Proof. intros H. unfold split. by rewrite join_split_go. Qed.

(** The character [c] occurs in [s]. *)
Fixpoint occurs (c : ascii) (s : string) : bool :=
  match s with
  | EmptyString => false
  | String a s' => Ascii.eqb c a || occurs c s'
  end.

Lemma occurs_cons (c a : ascii) (s : string) :
  occurs c (String a s) = Ascii.eqb c a || occurs c s.
Proof. reflexivity. Qed.

Lemma occurs_app (c : ascii) (s t : string) :
  occurs c (s +:+ t) = occurs c s || occurs c t.
Proof.
  induction s as [|a s IH]; [reflexivity|].
  change (occurs c (String a (s +:+ t)) = occurs c (String a s) || occurs c t).
  simpl. by rewrite IH, orb_assoc.
Qed.

Lemma occurs_rev (c : ascii) (s : string) : occurs c (String.rev s) = occurs c s.
Proof.
  induction s as [|a s IH]; [reflexivity|].
  rewrite rev_cons, occurs_app, IH. simpl. rewrite orb_false_r. apply orb_comm.
Qed.

(** The pieces of a split at one character are free of it. *)
Lemma split_go_char_free (c : ascii) (cur s : string) :
  occurs c cur = false →
  Forall (λ piece, occurs c piece = false) (split_go (String c EmptyString) 0 cur s).
Proof.
  revert cur. induction s as [|a s IH]; intros cur Hcur.
  - simpl. constructor; [by rewrite occurs_rev | constructor].
  - cbn [split_go]. unfold startswith. simpl strip_prefix.
    destruct (Ascii.eqb c a) eqn:E.
    + constructor; [by rewrite occurs_rev|]. simpl. by apply IH.
    + apply IH. simpl. by rewrite E.
Qed.

Lemma split_go_piece (c : ascii) (cur p rest : string) :
  occurs c p = false →
  split_go (String c EmptyString) 0 cur (p +:+ String c rest)
  = (String.rev cur +:+ p) :: split_go (String c EmptyString) 0 EmptyString rest.
Proof.
  revert cur. induction p as [|a p IH]; intros cur Hp.
  - change (EmptyString +:+ String c rest) with (String c rest).
    cbn [split_go]. unfold startswith. simpl strip_prefix.
    rewrite Ascii.eqb_refl. simpl. by rewrite append_empty_r.
  - simpl in Hp. apply orb_false_elim in Hp as [Hca Hp].
    change (String a p +:+ String c rest) with (String a (p +:+ String c rest)).
    cbn [split_go]. unfold startswith. simpl strip_prefix. rewrite Hca.
    rewrite IH by done. by rewrite rev_cons, app_assoc_string.
Qed.

Lemma split_go_last (c : ascii) (cur p : string) :
  occurs c p = false →
  split_go (String c EmptyString) 0 cur p = [String.rev cur +:+ p].
Proof.
  revert cur. induction p as [|a p IH]; intros cur Hp.
  - simpl. by rewrite append_empty_r.
  - simpl in Hp. apply orb_false_elim in Hp as [Hca Hp].
    cbn [split_go]. unfold startswith. simpl strip_prefix. rewrite Hca.
    rewrite IH by done. by rewrite rev_cons, app_assoc_string.
Qed.

(** A text without the separator is the one piece of its split. *)
Lemma split_go_absent (sep cur s : string) :
  contains sep s = false → split_go sep 0 cur s = [String.rev cur +:+ s].
Proof.
  revert cur. induction s as [|a s IH]; intros cur Hc.
  - simpl. by rewrite append_empty_r.
  - apply contains_cons_false in Hc as [Hs Hc].
    cbn [split_go]. rewrite Hs. rewrite IH by done.
    by rewrite rev_cons, app_assoc_string.
Qed.

Lemma replace_char_step (a : ascii) (new : string) (x : ascii) (s : string) :
  replace (String a EmptyString) new (String x s)
  = if Ascii.eqb a x
    then new +:+ replace (String a EmptyString) new s
    else String x (replace (String a EmptyString) new s).
Proof.
  unfold replace. cbn [replace_go]. unfold startswith. simpl strip_prefix.
  by destruct (Ascii.eqb a x).
Qed.

(** Replacing a character by nothing removes every occurrence of it. *)
Lemma replace_char_removes (c : ascii) (s : string) :
  occurs c (replace (String c EmptyString) EmptyString s) = false.
Proof.
  induction s as [|a s IH]; [reflexivity|].
  rewrite replace_char_step. destruct (Ascii.eqb c a) eqn:E.
  - exact IH.
  - rewrite occurs_cons, E. exact IH.
Qed.

(** Replacing the character [a] by [b] brings in no character other
    than [b]. *)
Lemma replace_char_keeps_free (c a b : ascii) (s : string) :
  Ascii.eqb c b = false → occurs c s = false →
  occurs c (replace (String a EmptyString) (String b EmptyString) s) = false.
Proof.
  intros Hcb. induction s as [|x s IH]; [reflexivity|].
  rewrite occurs_cons. intros [Hx Hs]%orb_false_elim.
  rewrite replace_char_step. destruct (Ascii.eqb a x).
  - change (String b EmptyString +:+ ?t) with (String b t).
    rewrite occurs_cons, Hcb. by apply IH.
  - rewrite occurs_cons, Hx. by apply IH.
Qed.

(** Replacing the character [a] by another one leaves no [a]. *)
Lemma replace_char_gone (a b : ascii) (s : string) :
  Ascii.eqb a b = false →
  occurs a (replace (String a EmptyString) (String b EmptyString) s) = false.
Proof.
  intros Hab. induction s as [|x s IH]; [reflexivity|].
  rewrite replace_char_step. destruct (Ascii.eqb a x) eqn:E.
  - change (String b EmptyString +:+ ?t) with (String b t).
    by rewrite occurs_cons, Hab.
  - by rewrite occurs_cons, E.
Qed.

End StringFacts.

(** ** Regular expressions *)

Section RegexFacts.

Import Py Regex.

(** A pattern that begins with a literal finds nothing in a text that
    does not contain the literal. *)
Lemma search_from_literal_absent (lit : string) (r : regex)
    (prev : option ascii) (pos : nat) (rest : string) :
  contains lit rest = false →
  search_from (RCat (RLit lit) r) prev pos rest = None.
Proof.
  revert prev pos. induction rest as [|a rest IH]; intros prev pos Hc.
  - simpl in *. unfold startswith in Hc. rewrite orb_false_r in Hc.
    destruct (strip_prefix lit EmptyString); [discriminate|done].
  - apply contains_cons_false in Hc as [Hs Hc]. simpl.
    unfold startswith in Hs.
    destruct (strip_prefix lit (String a rest)); [discriminate|].
    by apply IH.
Qed.

Lemma search_from_skip (lit : string) (r : regex) (prev : option ascii)
    (pos : nat) (a : ascii) (rest : string) :
  strip_prefix lit (String a rest) = None →
  search_from (RCat (RLit lit) r) prev pos (String a rest)
  = search_from (RCat (RLit lit) r) (Some a) (S pos) rest.
Proof. intros H. simpl. by rewrite H. Qed.

Lemma search_from_here (r : regex) (prev : option ascii) (pos : nat)
    (rest : string) (st : mstate) :
  rmatch r Some (MState prev pos rest []) = Some st →
  search_from r prev pos rest = Some (MatchObj pos (m_pos st) (m_caps st)).
Proof. intros H. destruct rest; simpl; by rewrite H. Qed.

(** Every character of [s] is in the class. *)
Fixpoint all_in (c : charset) (s : string) : bool :=
  match s with
  | EmptyString => true
  | String a s' => cs_mem c a && all_in c s'
  end.

(** The text does not go on with a character of the class. *)
Definition stops (c : charset) (rest : string) : bool :=
  match rest with
  | EmptyString => true
  | String a _ => negb (cs_mem c a)
  end.

Lemma last_char_cons (a : ascii) (s : string) (d : option ascii) :
  last_char (String a s) d = last_char s (Some a).
Proof.
  unfold last_char. rewrite rev_cons.
  destruct (String.rev s); reflexivity.
Qed.

(** A greedy repetition reads the whole run of characters of its class
    when what follows the repetition matches after the run. *)
Lemma star_greedy_run (c : charset) (k : mstate → option mstate)
    (prev : option ascii) (pos : nat) (caps : list (nat * string)) (s rest : string) :
  all_in c s = true → stops c rest = true →
  is_Some (k (MState (last_char s prev) (pos + String.length s) rest caps)) →
  star false c k prev pos caps (s +:+ rest)
  = k (MState (last_char s prev) (pos + String.length s) rest caps).
Proof.
  revert prev pos. induction s as [|a s IH]; intros prev pos Hall Hstop Hk.
  - change (EmptyString +:+ rest) with rest. simpl in *. rewrite Nat.add_0_r in *.
    unfold last_char in *. simpl in *.
    destruct rest as [|b rest]; simpl.
    + done.
    + simpl in Hstop. apply negb_true_iff in Hstop. rewrite Hstop. done.
  - change (String a s +:+ rest) with (String a (s +:+ rest)).
    simpl in Hall. apply andb_true_iff in Hall as [Ha Hall].
    rewrite last_char_cons in *.
    replace (pos + String.length (String a s)) with (S pos + String.length s) in *
      by (simpl; lia).
    simpl. rewrite Ha. rewrite IH by done.
    destruct Hk as [r Hk]. by rewrite Hk.
Qed.

Lemma rmatch_lit_app (lit : string) (k : mstate → option mstate)
    (prev : option ascii) (pos : nat) (rest : string) (caps : list (nat * string)) :
  rmatch (RLit lit) k (MState prev pos (lit +:+ rest) caps)
  = k (MState (last_char lit prev) (pos + String.length lit) rest caps).
Proof. cbn [rmatch m_rest m_prev m_pos m_caps]. by rewrite strip_prefix_app. Qed.

Lemma rmatch_set_cons (c : charset) (k : mstate → option mstate)
    (prev : option ascii) (pos : nat) (a : ascii) (rest : string)
    (caps : list (nat * string)) :
  cs_mem c a = true →
  rmatch (RSet c) k (MState prev pos (String a rest) caps)
  = k (MState (Some a) (S pos) rest caps).
Proof. intros H. cbn [rmatch m_rest m_prev m_pos m_caps]. by rewrite H. Qed.

Lemma rmatch_plus_run (c : charset) (k : mstate → option mstate)
    (prev : option ascii) (pos : nat) (a : ascii) (s rest : string)
    (caps : list (nat * string)) :
  cs_mem c a = true → all_in c s = true → stops c rest = true →
  is_Some (k (MState (last_char s (Some a)) (S pos + String.length s) rest caps)) →
  rmatch (RPlus false c) k (MState prev pos (String a (s +:+ rest)) caps)
  = k (MState (last_char s (Some a)) (S pos + String.length s) rest caps).
Proof.
  intros Ha Hs Hstop Hk. unfold RPlus.
  change (rmatch (RCat ?r1 ?r2) ?k0 ?st) with (rmatch r1 (rmatch r2 k0) st).
  rewrite rmatch_set_cons by done.
  cbn [rmatch m_rest m_prev m_pos m_caps].
  by apply star_greedy_run.
Qed.

Lemma not_slash (a : ascii) :
  Ascii.eqb "/" a = false → cs_mem (CNoneOf ["/"%char]) a = true.
Proof.
  intros H. unfold cs_mem, mem_ascii. by rewrite Ascii.eqb_sym, H.
Qed.

Lemma slash_free_all_in (s : string) :
  occurs "/" s = false → all_in (CNoneOf ["/"%char]) s = true.
Proof.
  induction s as [|a s IH]; [done|].
  rewrite occurs_cons. intros [Ha Hs]%orb_false_elim.
  change (cs_mem (CNoneOf ["/"%char]) a && all_in (CNoneOf ["/"%char]) s = true).
  by rewrite IH, not_slash.
Qed.

End RegexFacts.

(** ** The module identifier *)

Section IdentifierFacts.

Import Py Regex Readme Registry.

(** The fetcher for the three parts of an identifier. *)
Definition fetcher_of (a b c : string) : fetcher :=
  {| f_module_name := a +:+ "/" +:+ b +:+ "/" +:+ c;
     f_namespace := a; f_name := b; f_provider := c;
     github_repo := None; source_url := None; repo_branch := None |}.

Lemma new_fetcher_parts (module_name : string) (f : fetcher) :
  new_fetcher module_name = Some f →
  occurs "/" (f_namespace f) = false
  ∧ occurs "/" (f_name f) = false
  ∧ occurs "/" (f_provider f) = false
  ∧ module_name = f_namespace f +:+ "/" +:+ f_name f +:+ "/" +:+ f_provider f
  ∧ f = fetcher_of (f_namespace f) (f_name f) (f_provider f).
Proof.
  unfold new_fetcher, parse_module_name.
  pose proof (join_split "/" module_name) as Hj.
  pose proof (split_go_char_free "/" EmptyString module_name eq_refl) as Hfree.
  fold (split "/" module_name) in Hfree.
  destruct (split "/" module_name) as [|a [|b [|c [|? ?]]]]; try discriminate.
  intros [= <-]. cbn [f_namespace f_name f_provider].
  apply Forall_cons in Hfree as [Ha Hfree].
  apply Forall_cons in Hfree as [Hb Hfree].
  apply Forall_cons in Hfree as [Hc _].
  assert (E : module_name = a +:+ "/" +:+ b +:+ "/" +:+ c).
  { symmetry. apply Hj. discriminate. }
  repeat split; try done. unfold fetcher_of. by rewrite <- E.
Qed.

Lemma new_fetcher_of_parts (a b c : string) :
  occurs "/" a = false → occurs "/" b = false → occurs "/" c = false →
  new_fetcher (a +:+ "/" +:+ b +:+ "/" +:+ c) = Some (fetcher_of a b c).
Proof.
  intros Ha Hb Hc. unfold new_fetcher, parse_module_name, split.
  change (a +:+ "/" +:+ b +:+ "/" +:+ c)
    with (a +:+ String "/" (b +:+ String "/" c)).
  rewrite split_go_piece by done. rewrite split_go_piece by done.
  rewrite split_go_last by done. reflexivity.
Qed.

(** X1. A fetcher is made exactly for the identifiers that consist of
    three parts without a slash, joined by two slashes; the parts, which
    may be empty, become the namespace, the name and the provider, the
    identifier can be put together again from them, and the fetcher
    starts without a repository and without a branch. *)
Theorem fetcher_iff_three_parts (module_name : string) (f : fetcher) :
  new_fetcher module_name = Some f
  ↔ ∃ a b c,
      occurs "/" a = false ∧ occurs "/" b = false ∧ occurs "/" c = false
      ∧ module_name = a +:+ "/" +:+ b +:+ "/" +:+ c
      ∧ f = fetcher_of a b c.
Proof.
  split.
  - intros H. apply new_fetcher_parts in H as (Ha & Hb & Hc & Hm & Hf).
    exists (f_namespace f), (f_name f), (f_provider f). done.
  - intros (a & b & c & Ha & Hb & Hc & -> & ->). by apply new_fetcher_of_parts.
Qed.

Section Malformed.

Variable w : world.

(** X2. An identifier that does not split into three parts at its
    slashes ends the run in the handler of [main]: no request is made,
    no README is saved, and the process still ends with status 0. *)
Theorem malformed_identifier_is_caught
    (module_name : string) (rest : list string) (files : gmap string string) :
  length (split "/" module_name) ≠ 3 →
  main w (module_name :: rest) files = (HandlerCaught, initial_state no_fetcher files)
  ∧ exit_status (script w (module_name :: rest) files).1 = 0.
Proof.
  intros Hlen.
  assert (Hn : new_fetcher module_name = None).
  { unfold new_fetcher, parse_module_name.
    destruct (split "/" module_name) as [|a [|b [|c [|? ?]]]]; try done. }
  split.
  - unfold main. by rewrite Hn.
  - unfold script. by destruct (bool_decide _).
Qed.

End Malformed.

Lemma malformed_identifier_is_caught_witness :
  main offline_world ["acme/widget"] ∅ = (HandlerCaught, initial_state no_fetcher ∅)
  ∧ exit_status (script offline_world ["acme/widget"] ∅).1 = 0.
Proof.
  apply (malformed_identifier_is_caught offline_world "acme/widget" [] ∅).
  vm_compute. lia.
Defined.

End IdentifierFacts.

(** ** Sections and entries of a README *)

Section SectionFacts.

Import Py Regex Readme.

(** The pattern of a section finds nothing in a text in which the
    literal that it begins with does not occur. *)
Lemma section_re_absent (content name : string) :
  contains ("## " +:+ name) content = false →
  search (section_re name) content = None.
Proof.
  intros H. unfold search, section_re.
  change (RSeq [RLit ("## " +:+ name); ?a; ?b])
    with (RCat (RLit ("## " +:+ name)) (RCat a b)).
  by rewrite search_from_literal_absent.
Qed.

(** X3. For a name without a character that is special in a regular
    expression: a section whose heading, two hashes, a space and the
    name, occurs nowhere in the text is extracted as the empty string. *)
Theorem missing_heading_gives_empty_section (content name : string) :
  literal_name name = true →
  contains ("## " +:+ name) content = false →
  extract_section content name = EmptyString.
Proof.
  intros _ H. unfold extract_section. by rewrite section_re_absent.
Qed.

(** A README that consists of a title and a paragraph. *)
Definition plain_readme : string :=
  "# widget" +:+ NL +:+ NL +:+ "A module without documentation." +:+ NL.

Lemma missing_heading_gives_empty_section_witness :
  extract_section plain_readme "Outputs" = EmptyString.
Proof.
  apply (missing_heading_gives_empty_section plain_readme "Outputs").
  - vm_compute. reflexivity.
  - vm_compute. reflexivity.
Defined.

Lemma no_heading_no_section (content name : string) :
  contains "## " content = false → extract_section content name = EmptyString.
Proof.
  intros H. unfold extract_section. rewrite section_re_absent; [done|].
  by apply (contains_app_false "## " name).
Qed.

Section Files.

Variable fs : gmap string string.

(** X4. A README in which two hashes and a space occur nowhere, and so
    a README that is empty or cannot be read, gives a module without
    inputs, outputs and requirements, and without submodules when the
    parser was given none; the stand-alone parser for submodules gives
    two empty mappings for such a file and for a file that is missing. *)
Theorem readme_without_headings_parses_empty (p : parser) (path : string) :
  contains "## " (content (loaded fs p)) = false →
  submodules p = ∅ →
  (∀ text, fs !! path = Some text → contains "## " text = false) →
  (parse fs p).1
  = {[ module_name p :=
         {| md_name := module_name p;
            md_description := EmptyString;
            md_inputs := ∅;
            md_outputs := ∅;
            md_module_requirements := None;
            md_submodules := None |} ]}
  ∧ parse_readme_directly fs path = (∅, ∅).
Proof.
  intros Hc Hs Hpath. split.
  - destruct (parse_result fs p) as (subs & Hres & _ & Hcase).
    rewrite !(no_heading_no_section _ _ Hc) in Hres.
    rewrite !(no_heading_no_section _ _ Hc) in Hcase.
    assert (Hsubs : subs = ∅).
    { destruct Hcase as [->|[Ht _]]; [|discriminate].
      by rewrite loaded_submodules. }
    rewrite Hres, Hsubs. reflexivity.
  - unfold parse_readme_directly. destruct (fs !! path) as [text|] eqn:E; [|done].
    rewrite !(no_heading_no_section _ _ (Hpath text eq_refl)). reflexivity.
Qed.

End Files.

Lemma readme_without_headings_parses_empty_witness :
  (parse {[ "/opt/avm/README.md" := plain_readme ]} (new_parser "/opt/avm/README.md")).1
  = {[ module_name (new_parser "/opt/avm/README.md") :=
         {| md_name := module_name (new_parser "/opt/avm/README.md");
            md_description := EmptyString;
            md_inputs := ∅;
            md_outputs := ∅;
            md_module_requirements := None;
            md_submodules := None |} ]}
  ∧ parse_readme_directly {[ "/opt/avm/README.md" := plain_readme ]}
      "/opt/avm/working/widget_alpha_README.md" = (∅, ∅).
Proof.
  apply (readme_without_headings_parses_empty
           {[ "/opt/avm/README.md" := plain_readme ]}
           (new_parser "/opt/avm/README.md")
           "/opt/avm/working/widget_alpha_README.md").
  - vm_compute. reflexivity.
  - reflexivity.
  - intros text H. vm_compute in H. discriminate.
Defined.

(** No name in the mapping, and no name of an entry, has a backslash. *)
Definition clean_inputs (m : gmap string input_entry) : Prop :=
  ∀ name e, m !! name = Some e →
    in_name e = name ∧ occurs "\" name = false.

Definition clean_outputs (m : gmap string output_entry) : Prop :=
  ∀ name e, m !! name = Some e →
    out_name e = name ∧ occurs "\" name = false.

Lemma parse_input_entry_name (entry : string) (e : input_entry) :
  parse_input_entry entry = Some e → occurs "\" (in_name e) = false.
Proof.
  unfold parse_input_entry. destruct (search input_name_re entry); [|discriminate].
  intros [= <-]. simpl. apply replace_char_removes.
Qed.

Lemma parse_output_entry_name (entry : string) (e : output_entry) :
  parse_output_entry entry = Some e → occurs "\" (out_name e) = false.
Proof.
  unfold parse_output_entry. destruct (search output_name_re entry); [|discriminate].
  intros [= <-]. simpl. apply replace_char_removes.
Qed.

Lemma inputs_fold_clean (b : bool) (fragments : list string)
    (m : gmap string input_entry) :
  clean_inputs m → clean_inputs (fold_left (inputs_step b) fragments m).
Proof.
  revert m. induction fragments as [|x l IH]; intros m Hm; [done|].
  simpl. apply IH. unfold inputs_step.
  destruct (parse_input_entry _) as [e|] eqn:E; [|done].
  intros name v. destruct (decide (in_name e = name)) as [<-|Hne].
  - rewrite lookup_insert_eq. intros [= <-]. split; [done|].
    by apply parse_input_entry_name in E.
  - rewrite lookup_insert_ne by done. apply Hm.
Qed.

Lemma outputs_fold_clean (fragments : list string) (m : gmap string output_entry) :
  clean_outputs m → clean_outputs (fold_left outputs_step fragments m).
Proof.
  revert m. induction fragments as [|x l IH]; intros m Hm; [done|].
  simpl. apply IH. unfold outputs_step.
  destruct (parse_output_entry _) as [e|] eqn:E; [|done].
  intros name v. destruct (decide (out_name e = name)) as [<-|Hne].
  - rewrite lookup_insert_eq. intros [= <-]. split; [done|].
    by apply parse_output_entry_name in E.
  - rewrite lookup_insert_ne by done. apply Hm.
Qed.

(** X5. The section parsers file every entry under its own name, and
    no name keeps a backslash: the escaped underscores of the generated
    documentation are unescaped in the names of inputs and outputs. *)
Theorem names_are_unescaped (section_text : string) (b : bool) :
  clean_inputs (parse_inputs_section section_text b)
  ∧ clean_outputs (parse_outputs_section section_text).
Proof.
  split.
  - unfold parse_inputs_section. apply inputs_fold_clean.
    intros name e. by rewrite lookup_empty.
  - unfold parse_outputs_section. apply outputs_fold_clean.
    intros name e. by rewrite lookup_empty.
Qed.

(** X6. A section in which the opening of an entry, the anchor with
    the prefix input_ or output_, does not occur gives the empty mapping,
    whatever else the section holds. *)
Theorem section_without_entries_is_empty (section_text : string) (b : bool) :
  contains input_split section_text = false →
  contains output_split section_text = false →
  parse_inputs_section section_text b = ∅
  ∧ parse_outputs_section section_text = ∅.
Proof.
  intros Hi Ho. unfold parse_inputs_section, parse_outputs_section, split.
  by rewrite !split_go_absent.
Qed.

Lemma section_without_entries_is_empty_witness :
  parse_inputs_section "No inputs." true = ∅
  ∧ parse_outputs_section "No inputs." = ∅.
Proof.
  apply (section_without_entries_is_empty "No inputs." true).
  - vm_compute. reflexivity.
  - vm_compute. reflexivity.
Defined.

(** The entries that the fragments of a section parse to, in the order
    of the section. *)
Definition parsed_inputs (section_text : string) : list input_entry :=
  omap (λ fragment, parse_input_entry (input_split +:+ fragment))
    (tail (split input_split section_text)).

Definition parsed_outputs (section_text : string) : list output_entry :=
  omap (λ fragment, parse_output_entry (output_split +:+ fragment))
    (tail (split output_split section_text)).

Definition named_input (name : string) (e : input_entry) : bool :=
  String.eqb (in_name e) name.

Definition named_output (name : string) (e : output_entry) : bool :=
  String.eqb (out_name e) name.

Lemma inputs_fold_last (b : bool) (fragments : list string)
    (acc : gmap string input_entry) (name : string) :
  fold_left (inputs_step b) fragments acc !! name
  = match last (List.filter (named_input name)
                  (omap (λ fragment, parse_input_entry (input_split +:+ fragment))
                     fragments)) with
    | Some e => Some (set_required b e)
    | None => acc !! name
    end.
Proof.
  revert acc. induction fragments as [|x l IH] using rev_ind; intros acc; [done|].
  rewrite fold_left_app, omap_app, List.filter_app. simpl.
  unfold inputs_step at 1.
  destruct (parse_input_entry (input_split +:+ x)) as [e|]; simpl.
  - unfold named_input at 2. destruct (String.eqb (in_name e) name) eqn:E.
    + apply String.eqb_eq in E as <-. by rewrite lookup_insert_eq, last_snoc.
    + apply String.eqb_neq in E. rewrite lookup_insert_ne by done.
      rewrite app_nil_r. apply IH.
  - rewrite app_nil_r. apply IH.
Qed.

Lemma outputs_fold_last (fragments : list string)
    (acc : gmap string output_entry) (name : string) :
  fold_left outputs_step fragments acc !! name
  = match last (List.filter (named_output name)
                  (omap (λ fragment, parse_output_entry (output_split +:+ fragment))
                     fragments)) with
    | Some e => Some e
    | None => acc !! name
    end.
Proof.
  revert acc. induction fragments as [|x l IH] using rev_ind; intros acc; [done|].
  rewrite fold_left_app, omap_app, List.filter_app. simpl.
  unfold outputs_step at 1.
  destruct (parse_output_entry (output_split +:+ x)) as [e|]; simpl.
  - unfold named_output at 2. destruct (String.eqb (out_name e) name) eqn:E.
    + apply String.eqb_eq in E as <-. by rewrite lookup_insert_eq, last_snoc.
    + apply String.eqb_neq in E. rewrite lookup_insert_ne by done.
      rewrite app_nil_r. apply IH.
  - rewrite app_nil_r. apply IH.
Qed.

(** X7. A section parser keeps one entry per name: what it holds for a
    name is the last entry of the section with that name, for an input
    marked with the flag of the section; earlier entries with the same
    name are dropped, and a name that no entry has is absent. *)
Theorem last_entry_of_a_name_wins (section_text : string) (b : bool) (name : string) :
  parse_inputs_section section_text b !! name
  = set_required b <$> last (List.filter (named_input name) (parsed_inputs section_text))
  ∧ parse_outputs_section section_text !! name
    = last (List.filter (named_output name) (parsed_outputs section_text)).
Proof.
  split.
  - unfold parse_inputs_section, parsed_inputs. rewrite inputs_fold_last.
    by destruct (last _).
  - unfold parse_outputs_section, parsed_outputs. rewrite outputs_fold_last.
    by destruct (last _).
Qed.

End SectionFacts.

(** ** Parsing twice *)

Section TwiceFacts.

Import Py Regex Readme.

(** The pair that is inserted, if any. *)
Definition insert_pair {V} (acc : gmap string V) (kv : option (string * V))
  : gmap string V :=
  match kv with Some (k, v) => <[k := v]> acc | None => acc end.

Lemma fold_insert_union {A V} (g : A → option (string * V)) (ms : list A)
    (acc : gmap string V) :
  fold_left (λ a m, insert_pair a (g m)) ms acc
  = fold_left (λ a m, insert_pair a (g m)) ms ∅ ∪ acc.
Proof.
  revert acc. induction ms as [|m ms IH]; intros acc; simpl.
  - by rewrite (left_id_L ∅ (∪)).
  - rewrite (IH (insert_pair acc (g m))), (IH (insert_pair ∅ (g m))).
    destruct (g m) as [[k v]|]; simpl.
    + rewrite insert_empty, <- (assoc_L (∪)). by rewrite <- insert_union_singleton_l.
    + by rewrite (right_id_L ∅ (∪)).
Qed.

(** Inserting the same pairs a second time changes nothing. *)
Lemma fold_insert_twice {A V} (g : A → option (string * V)) (ms : list A)
    (acc : gmap string V) :
  fold_left (λ a m, insert_pair a (g m)) ms
    (fold_left (λ a m, insert_pair a (g m)) ms acc)
  = fold_left (λ a m, insert_pair a (g m)) ms acc.
Proof.
  rewrite (fold_insert_union g ms (fold_left _ ms acc)).
  rewrite (fold_insert_union g ms acc).
  by rewrite (assoc_L (∪)), (idemp_L (∪)).
Qed.

Lemma set_content_self (p : parser) : set_content (content p) p = p.
Proof. by destruct p. Qed.

Section Files.

Variable fs : gmap string string.

(** What one match of the Submodules section contributes: the name and
    the entry of the submodule, when one of the candidate files exists. *)
Definition local_submodule (base_dir : string) (m : rmatch_obj)
  : option (string * submodule_doc) :=
  match first_group m with
  | None => None
  | Some name =>
      if negb (truthy name) then None
      else
        match find (exists_file fs)
                [OsPath.join_all base_dir ["modules"; name; "README.md"];
                 OsPath.join_all base_dir [name; "README.md"];
                 OsPath.join_all base_dir ["modules"; name; "README.md"]] with
        | None => None
        | Some path =>
            let text := content (read_file fs (new_parser path)) in
            Some (name,
                  {| sub_name := name;
                     sub_path := None;
                     sub_description := EmptyString;
                     sub_inputs :=
                       dict_merge
                         (parse_inputs_section
                            (extract_section text "Required Inputs") true)
                         (parse_inputs_section
                            (extract_section text "Optional Inputs") false);
                     sub_outputs :=
                       parse_outputs_section (extract_section text "Outputs") |})
        end
  end.

Lemma process_submodule_insert (base_dir : string)
    (subs : gmap string submodule_doc) (m : rmatch_obj) :
  process_submodule fs base_dir subs m = insert_pair subs (local_submodule base_dir m).
Proof.
  unfold local_submodule, process_submodule.
  destruct (first_group m) as [name|]; [|reflexivity].
  destruct (negb (truthy name)); [reflexivity|].
  cbv zeta.
  destruct (find (exists_file fs) _); reflexivity.
Qed.

Lemma process_submodule_fold_twice (base : string) (ms : list rmatch_obj)
    (acc : gmap string submodule_doc) :
  fold_left (process_submodule fs base) ms (fold_left (process_submodule fs base) ms acc)
  = fold_left (process_submodule fs base) ms acc.
Proof.
  assert (E : ∀ l a, fold_left (process_submodule fs base) l a
                = fold_left (λ a m, insert_pair a (local_submodule base m)) l a).
  { induction l as [|m l IH]; intros a; simpl; [done|].
    by rewrite IH, process_submodule_insert. }
  rewrite !E. apply fold_insert_twice.
Qed.

Lemma loaded_readme_path (p : parser) : readme_path (loaded fs p) = readme_path p.
Proof.
  unfold loaded, read_file. destruct (negb _); [|done]. by destruct (fs !! _).
Qed.

(** Once the content is loaded, loading again changes nothing, whatever
    happened to the fields other than the path and the content. *)
Lemma loaded_stable (p q : parser) :
  readme_path q = readme_path p → content q = content (loaded fs p) →
  loaded fs q = q.
Proof.
  intros Hr Hc. unfold loaded at 1. destruct (truthy (content q)) eqn:Et; simpl; [done|].
  unfold read_file. rewrite Hr.
  destruct (fs !! readme_path p) as [t|] eqn:E; [|done].
  rewrite Hc in Et. unfold loaded, read_file in Hc, Et. rewrite E in Hc, Et.
  destruct (truthy (content p)) eqn:Etp; simpl in Hc, Et.
  - congruence.
  - rewrite <- Hc. apply set_content_self.
Qed.

Lemma parse_twice (p : parser) : parse fs (parse fs p).2 = parse fs p.
Proof.
  unfold parse. cbv zeta. cbn [fst snd]. fold (loaded fs p).
  set (p0 := loaded fs p).
  set (q := if truthy (extract_section (content p0) "Submodules") then _ else _).
  fold (loaded fs q).
  assert (Hc : content q = content p0).
  { unfold q. by destruct (truthy _). }
  assert (Hr : readme_path q = readme_path p).
  { unfold q. destruct (truthy _); simpl; apply loaded_readme_path. }
  rewrite (loaded_stable p q Hr Hc). rewrite !Hc.
  assert (Hq : (if truthy (extract_section (content p0) "Submodules")
                then process_submodules fs (extract_section (content p0) "Submodules")
                       (set_sections
                          (parse_inputs_section
                             (extract_section (content p0) "Required Inputs") true)
                          (parse_inputs_section
                             (extract_section (content p0) "Optional Inputs") false)
                          (parse_outputs_section (extract_section (content p0) "Outputs"))
                          q)
                else set_sections
                       (parse_inputs_section
                          (extract_section (content p0) "Required Inputs") true)
                       (parse_inputs_section
                          (extract_section (content p0) "Optional Inputs") false)
                       (parse_outputs_section (extract_section (content p0) "Outputs"))
                       q) = q).
  { unfold q.
    destruct (truthy (extract_section (content p0) "Submodules")); [|reflexivity].
    unfold process_submodules, set_submodules, set_sections. cbn.
    by rewrite process_submodule_fold_twice. }
  by rewrite Hq.
Qed.

(** The result and the parser after [parse] was called [S n] times in
    a row. *)
Fixpoint parse_again (n : nat) (p : parser) : gmap string module_doc * parser :=
  match n with
  | 0 => parse fs p
  | S n' => parse fs (parse_again n' p).2
  end.

(** X8. Parsing is repeatable: however many times [parse] is called
    again on the same parser, with the files unchanged, every call
    returns what the first call returned and leaves the parser as the
    first call left it, although the first call has stored the content,
    the sections and the local submodules in the parser. *)
Theorem parsing_again_gives_the_same (n : nat) (p : parser) :
  parse_again n p = parse fs p.
Proof.
  induction n as [|n IH]; [reflexivity|].
  cbn [parse_again]. rewrite IH. apply parse_twice.
Qed.

End Files.

End TwiceFacts.

(** ** What a run asks for and what it writes *)

Section TrafficFacts.

Import Py Regex Readme Registry.

(** The file is one that a run saves: a README directly in the folder
    working below the current directory. *)
Definition working_file (w : world) (path : string) : Prop :=
  ∃ name, occurs "/" name = false
          ∧ path = OsPath.join (cwd w) ("working/" +:+ name +:+ "_README.md").

(** From [st] to [st'] the name of the module stayed, the requests that
    were added went to raw.githubusercontent.com, and the files that
    were written are READMEs in the folder working; no file was
    removed. *)
Definition grows (w : world) (st st' : rstate) : Prop :=
  f_name (st_fetcher st') = f_name (st_fetcher st)
  ∧ (∃ urls, st_requests st' = (st_requests st ++ urls)%list
             ∧ Forall (λ u, startswith github_raw_base_url u = true) urls)
  ∧ (occurs "/" (f_name (st_fetcher st)) = false →
     ∀ path, st_files st' !! path = st_files st !! path
             ∨ (working_file w path ∧ is_Some (st_files st' !! path))).

Section Run.

Variable w : world.

Lemma grows_refl (st : rstate) : grows w st st.
Proof.
  split; [done|]. split; [|by left]. exists []. by rewrite app_nil_r.
Qed.

Lemma grows_trans (st1 st2 st3 : rstate) :
  grows w st1 st2 → grows w st2 st3 → grows w st1 st3.
Proof.
  intros (N1 & (u1 & E1 & F1) & H1) (N2 & (u2 & E2 & F2) & H2).
  split; [congruence|]. split.
  - exists (u1 ++ u2)%list. rewrite E2, E1, app_assoc. split; [done|].
    by apply Forall_app.
  - intros Hn path. rewrite <- N1 in Hn.
    destruct (H2 Hn path) as [E|[? ?]]; [|by right].
    rewrite N1 in Hn.
    destruct (H1 Hn path) as [E'|[? ?]]; [left; congruence|].
    right. split; [done|]. by rewrite E.
Qed.

Lemma fetch_readme_content_grows (repo path : string) (st : rstate) :
  grows w st (fetch_readme_content w repo path st).2.
Proof.
  rewrite fetch_readme_content_cases.
  destruct (ok_text (http_get w (main_url repo path))); simpl.
  - split; [done|]. split; [|by left]. exists [main_url repo path]. split; [done|].
    repeat constructor.
  - destruct (ok_text (http_get w (master_url repo path))); simpl.
    + split; [done|]. split; [|by left].
      exists [main_url repo path; master_url repo path].
      split; [done|]. repeat constructor.
    + split; [done|]. split; [|by left].
      exists [main_url repo path; master_url repo path].
      split; [done|]. repeat constructor.
Qed.

Lemma write_file_grows (name text : string) (st : rstate) :
  occurs "/" name = false →
  grows w st (write_file w ("working/" +:+ name +:+ "_README.md") text st).2.
Proof.
  intros Hname.
  unfold write_file. destruct (writable w _); [|apply grows_refl].
  split; [done|]. split; simpl.
  - exists []. by rewrite app_nil_r.
  - intros _ path.
    destruct (decide (path = OsPath.join (cwd w) ("working/" +:+ name +:+ "_README.md")))
      as [->|Hne].
    + right. split; [by exists name|]. by rewrite lookup_insert_eq.
    + left. by rewrite lookup_insert_ne.
Qed.

(** The name under which the README of a submodule is saved has no
    slash when the name of the module has none. *)
Lemma submodule_file_flat (module_name submodule_name : string) :
  occurs "/" module_name = false →
  occurs "/" (replace "-" "_" module_name +:+ "_"
              +:+ replace "/" "_" (replace "-" "_" submodule_name)) = false.
Proof.
  intros H. rewrite !occurs_app.
  rewrite (replace_char_keeps_free "/" "-" "_") by done.
  by rewrite (replace_char_gone "/" "_").
Qed.

Lemma fetch_submodule_readme_grows (submodule_path submodule_name : string)
    (st : rstate) :
  grows w st (fetch_submodule_readme w submodule_path submodule_name st).2.
Proof.
  destruct (occurs "/" (f_name (st_fetcher st))) eqn:Hn; cycle 1.
  - unfold fetch_submodule_readme, bind, get_fetcher. cbv beta zeta iota.
    destruct (github_repo (st_fetcher st)) as [repo|]; [|apply grows_refl].
    destruct (negb (truthy repo)); [apply grows_refl|].
    match goal with
    | |- context [fetch_readme_content w repo ?p st] =>
        pose proof (fetch_readme_content_grows repo p st) as G;
        destruct (fetch_readme_content w repo p st) as [[[text b]|] st1]
    end; simpl in G; [|exact G].
    eapply grows_trans; [exact G|].
    match goal with
    | |- context [write_file w ?file text st1] =>
        replace file
          with ("working/" +:+ (replace "-" "_" (f_name (st_fetcher st)) +:+ "_"
                                +:+ replace "/" "_" (replace "-" "_" submodule_name))
                +:+ "_README.md")
          by (by rewrite !app_assoc_string)
    end.
    match goal with
    | |- context [write_file w ?file text st1] =>
        pose proof (write_file_grows _ text st1 (submodule_file_flat _ submodule_name Hn))
          as G';
        destruct (write_file w file text st1) as [ok st2]
    end.
    exact G'.
  - (* the name of the module has a slash: nothing is claimed of the files *)
    assert (G : ∀ st', f_name (st_fetcher st') = f_name (st_fetcher st) →
                  (∃ urls, st_requests st' = (st_requests st ++ urls)%list
                     ∧ Forall (λ u, startswith github_raw_base_url u = true) urls) →
                  grows w st st').
    { intros st' H1 H2. split; [done|]. split; [done|]. congruence. }
    unfold fetch_submodule_readme, bind, get_fetcher. cbv beta zeta iota.
    destruct (github_repo (st_fetcher st)) as [repo|]; [|apply grows_refl].
    destruct (negb (truthy repo)); [apply grows_refl|].
    match goal with
    | |- context [fetch_readme_content w repo ?p st] =>
        pose proof (fetch_readme_content_grows repo p st) as (N & U & _);
        destruct (fetch_readme_content w repo p st) as [[[text b]|] st1]
    end; simpl in N, U; [|by apply G].
    unfold write_file. destruct (writable w _); simpl; by apply G.
Qed.

Lemma process_infos_grows (infos : list submodule_info)
    (acc : gmap string submodule_doc) (st : rstate) :
  grows w st (process_infos w infos acc st).2.
Proof.
  revert acc st. induction infos as [|info infos IH]; intros acc st; simpl.
  - apply grows_refl.
  - unfold bind. rewrite submodule_step_cases.
    eapply grows_trans; [|apply IH]. apply fetch_submodule_readme_grows.
Qed.

Lemma collected_grows (registry : bool) (p : parser) (st : rstate) :
  grows w st (collected w registry p st).2.
Proof.
  unfold collected. destruct (_ && _); [|apply grows_refl].
  destruct (truthy _); [|apply grows_refl]. apply process_infos_grows.
Qed.

Lemma parse_and_report_grows (registry : bool) (path : string) (st : rstate) :
  grows w st (parse_and_report w registry path st).2.
Proof.
  rewrite parse_and_report_shape. apply collected_grows.
Qed.

(** The registry lookup: one request, to the registry, and nothing else
    changes. *)
Lemma fetch_module_source_state (st : rstate) :
  (fetch_module_source w st).2 = logged [registry_api_url (st_fetcher st)] st.
Proof.
  unfold fetch_module_source, bind, get_fetcher, request, ret, logged.
  cbv beta zeta iota.
  destruct (http_get w _) as [|code body]; [done|].
  destruct (is_error_status code); [done|].
  destruct (json_source w body) as [src|]; [|done].
  by destruct (truthy src).
Qed.

Lemma extract_github_repo_grows (src : string) (st : rstate) :
  grows w st (extract_github_repo src st).2.
Proof.
  unfold extract_github_repo. destruct (first_match _ _); [|apply grows_refl].
  split; [done|]. split; simpl; [|by left]. exists []. by rewrite app_nil_r.
Qed.

Lemma fetch_and_save_readme_grows (st : rstate) :
  grows w (logged [registry_api_url (st_fetcher st)] st) (fetch_and_save_readme w st).2.
Proof.
  unfold fetch_and_save_readme, bind. cbv beta zeta iota.
  pose proof (fetch_module_source_state st) as E1.
  destruct (fetch_module_source w st) as [[src|] st1]; simpl in E1; rewrite <- E1;
    [|apply grows_refl].
  pose proof (extract_github_repo_grows src st1) as G2.
  destruct (extract_github_repo src st1) as [[repo|] st2]; simpl in G2; [|exact G2].
  destruct (negb (truthy repo)); [exact G2|].
  pose proof (fetch_readme_content_grows repo EmptyString st2) as G3.
  destruct (fetch_readme_content w repo EmptyString st2) as [[[text b]|] st3];
    simpl in G3; [|by eapply grows_trans].
  pose proof (grows_trans _ _ _ G2 G3) as G23.
  unfold get_fetcher. cbv beta zeta iota.
  destruct (occurs "/" (f_name (st_fetcher st3))) eqn:Hn.
  - destruct G23 as (N & U & _).
    unfold write_file. destruct (writable w _); simpl.
    + split; [done|]. split; [done|]. simpl. congruence.
    + split; [done|]. split; [done|]. congruence.
  - eapply grows_trans; [exact G23|].
    pose proof (write_file_grows (replace "-" "_" (f_name (st_fetcher st3))) text st3)
      as G4.
    destruct (write_file w _ text st3) as [ok st4].
    apply G4. by apply (replace_char_keeps_free "/" "-" "_").
Qed.

(** X9. In registry mode the first request of a run goes to the API of
    the registry, for the module named on the command line, and every
    later request goes to raw.githubusercontent.com. *)
Theorem registry_run_contacts_two_hosts
    (module_name : string) (rest : list string) (files : gmap string string)
    (f : fetcher) :
  new_fetcher module_name = Some f →
  ∃ urls,
    st_requests (main w (module_name :: rest) files).2 = registry_api_url f :: urls
    ∧ Forall (λ u, startswith github_raw_base_url u = true) urls.
Proof.
  intros Hf. unfold main. rewrite Hf. unfold main_registry, bind. cbv beta zeta iota.
  set (st0 := {| st_fetcher := f; st_files := files; st_requests := [] |}).
  pose proof (fetch_and_save_readme_grows st0) as G.
  destruct (fetch_and_save_readme w st0) as [r st1]. simpl in G.
  assert (G' : ∀ st2, grows w st1 st2 →
                ∃ urls, st_requests st2 = registry_api_url f :: urls
                        ∧ Forall (λ u, startswith github_raw_base_url u = true) urls).
  { intros st2 G2. destruct (grows_trans _ _ _ G G2) as (_ & (urls & E & F) & _).
    exists urls. by split. }
  destruct (negb (truthy_opt r)); simpl.
  - apply G', grows_refl.
  - apply G', parse_and_report_grows.
Qed.

(** X10. Of the files that the fetcher and the parser deal with, a run
    never removes one, and the only ones that it creates or overwrites
    are READMEs directly in the folder working below the current
    directory: files named working/, a name without a slash, _README.md.
    (The log and the JSON output are written outside the model.) *)
Theorem run_writes_working_readmes_only
    (argv : list string) (files : gmap string string) (path : string) :
  st_files (main w argv files).2 !! path = files !! path
  ∨ (working_file w path ∧ is_Some (st_files (main w argv files).2 !! path)).
Proof.
  assert (G : ∃ st0, st_files st0 = files
                     ∧ occurs "/" (f_name (st_fetcher st0)) = false
                     ∧ grows w st0 (main w argv files).2).
  { unfold main. destruct argv as [|module_name rest].
    - eexists. split; [|split]; [| |unfold main_local, bind, get_files;
                                     cbv beta zeta iota].
      3:{ destruct (exists_file _ _); [apply parse_and_report_grows|].
          destruct (exists_file _ _); [apply parse_and_report_grows|].
          apply grows_refl. }
      + done.
      + done.
    - destruct (new_fetcher module_name) as [f|] eqn:Hf.
      + exists (logged [registry_api_url f]
                  {| st_fetcher := f; st_files := files; st_requests := [] |}).
        split; [done|]. split.
        { by apply new_fetcher_parts in Hf as (_ & ? & _). }
        unfold main_registry, bind. cbv beta zeta iota.
        set (st0 := {| st_fetcher := f; st_files := files; st_requests := [] |}).
        pose proof (fetch_and_save_readme_grows st0) as G.
        destruct (fetch_and_save_readme w st0) as [r st1]. simpl in G.
        destruct (negb (truthy_opt r)); simpl; [exact G|].
        eapply grows_trans; [exact G|]. apply parse_and_report_grows.
      + eexists. split; [|split; [|apply grows_refl]]; done. }
  destruct G as (st0 & <- & Hn & (_ & _ & H)). by apply H.
Qed.

(** X11. A run without arguments makes no request and saves no README:
    when the result is about to be serialised, no request has been made
    and the files are as they were at the start. *)
Theorem local_run_is_offline (files : gmap string string) :
  st_requests (main w [] files).2 = [] ∧ st_files (main w [] files).2 = files.
Proof.
  unfold main, main_local, bind, get_files. cbv beta zeta iota. simpl.
  destruct (exists_file _ _).
  - rewrite parse_and_report_shape. done.
  - destruct (exists_file _ _); [|done]. rewrite parse_and_report_shape. done.
Qed.

(** X12. Whenever a run completes, the data that is serialised is the
    data that the first call of [parse] returned: the second call, which
    [to_json] makes, gives the same result. *)
Theorem serialised_data_is_parsed_data
    (argv : list string) (files : gmap string string)
    (parsed_data json_data : gmap string module_doc) (st : rstate) :
  main w argv files = (Completed parsed_data json_data, st) →
  json_data = parsed_data.
Proof.
  assert (Hrep : ∀ registry path st0 st1,
            parse_and_report w registry path st0
            = (Completed parsed_data json_data, st1) →
            json_data = parsed_data).
  { intros registry path st0 st1. rewrite parse_and_report_shape. cbv zeta.
    rewrite parse_twice.
    match goal with
    | |- context [parse ?fs ?p] => generalize (parse fs p).1
    end.
    intros r Heq. congruence. }
  unfold main. destruct argv as [|module_name argv].
  - unfold main_local, bind, get_files, ret. cbv beta zeta iota.
    destruct (exists_file _ _); [apply Hrep|].
    destruct (exists_file _ _); [apply Hrep|]. discriminate.
  - destruct (new_fetcher module_name) as [f|]; [|discriminate].
    unfold main_registry, bind. cbv beta zeta iota.
    destruct (fetch_and_save_readme w _) as [r st1].
    destruct (negb (truthy_opt r)); [discriminate|]. apply Hrep.
Qed.

Lemma first_match_elsewhere (src : string) :
  contains "github.com" src = false → first_match github_patterns src = None.
Proof.
  intros H. unfold github_patterns, first_match, search.
  change (RSeq (RLit ?l :: ?a :: ?rest)) with (RCat (RLit l) (RSeq (a :: rest))).
  rewrite (search_from_literal_absent "github.com") by done.
  rewrite (search_from_literal_absent "github.com/"); [done|].
  by apply (contains_app_false "github.com" "/").
Qed.

(** X13. When the source that the registry reports does not contain
    github.com, the run gives up after its one request to the registry:
    nothing else is requested, nothing is written, and the fetcher is
    left without a repository. *)
Theorem source_elsewhere_is_given_up
    (module_name : string) (rest : list string) (files : gmap string string)
    (f : fetcher) (src : string) :
  new_fetcher module_name = Some f →
  (fetch_module_source w (initial_state f files)).1 = Some src →
  contains "github.com" src = false →
  main w (module_name :: rest) files
  = (FetchFailed, logged [registry_api_url f] (initial_state f files)).
Proof.
  intros Hf Hsrc Hc. unfold main. rewrite Hf. fold (initial_state f files).
  unfold main_registry, fetch_and_save_readme, bind. cbv beta zeta iota.
  pose proof (fetch_module_source_state (initial_state f files)) as E.
  destruct (fetch_module_source w (initial_state f files)) as [r st1].
  simpl in Hsrc, E. subst r st1.
  unfold extract_github_repo. by rewrite (first_match_elsewhere src Hc).
Qed.

End Run.

Lemma registry_run_contacts_two_hosts_witness :
  ∃ urls,
    st_requests (main (sample_world "main") ["acme/widget/azurerm"] ∅).2
    = registry_api_url fresh_fetcher :: urls
    ∧ Forall (λ u, startswith github_raw_base_url u = true) urls.
Proof.
  apply (registry_run_contacts_two_hosts (sample_world "main")
           "acme/widget/azurerm" [] ∅ fresh_fetcher).
  vm_compute. reflexivity.
Defined.

Lemma serialised_data_is_parsed_data_witness :
  json_of sample_run.1 = parsed_of sample_run.1.
Proof.
  apply (serialised_data_is_parsed_data (sample_world "main")
           ["acme/widget/azurerm"] ∅ _ _ sample_run.2).
  vm_compute. reflexivity.
Defined.

(** A registry that reports a source on another host. *)
Definition gitlab_world : world :=
  {| http_get := fun _ => Response 200 "{...}";
     json_source := fun _ => Some "https://gitlab.com/acme/widget";
     writable := fun _ => true;
     cwd := "/opt/avm";
     script_dir := "/opt/avm" |}.

Lemma source_elsewhere_is_given_up_witness :
  main gitlab_world ["acme/widget/azurerm"] ∅
  = (FetchFailed,
     logged [registry_api_url fresh_fetcher] (initial_state fresh_fetcher ∅)).
Proof.
  apply (source_elsewhere_is_given_up gitlab_world "acme/widget/azurerm" [] ∅
           fresh_fetcher "https://gitlab.com/acme/widget").
  - vm_compute. reflexivity.
  - vm_compute. reflexivity.
  - vm_compute. reflexivity.
Defined.

End TrafficFacts.

(** ** The repository of a GitHub source *)

Section RepositoryFacts.

Import Py Regex Readme Registry.

Lemma owner_repo_match (k : mstate → option mstate) (prev : option ascii)
    (pos : nat) (caps : list (nat * string)) (a : ascii) (o : string)
    (b : ascii) (r : string) :
  Ascii.eqb "/" a = false → occurs "/" o = false →
  Ascii.eqb "/" b = false → occurs "/" r = false →
  is_Some (k (MState (last_char r (Some b))
                (pos + String.length (String a (o +:+ String "/" (String b r))))
                EmptyString caps)) →
  rmatch owner_repo k (MState prev pos (String a (o +:+ String "/" (String b r))) caps)
  = k (MState (last_char r (Some b))
         (pos + String.length (String a (o +:+ String "/" (String b r))))
         EmptyString caps).
Proof.
  intros Ha Ho Hb Hr Hk.
  assert (Hlen : pos + String.length (String a (o +:+ String "/" (String b r)))
                 = S (S pos + String.length o + 1) + String.length r).
  { change (String.length (String a ?x)) with (S (String.length x)).
    rewrite length_append.
    change (String.length (String "/" (String b r))) with (S (S (String.length r))).
    lia. }
  rewrite Hlen in *.
  unfold owner_repo.
  change (RSeq [?x; ?y; ?z]) with (RCat x (RCat y z)).
  change (rmatch (RCat ?r1 ?r2) ?k0 ?st) with (rmatch r1 (rmatch r2 k0) st).
  assert (Hk2 : rmatch (RCat (RLit "/") (RPlus false (CNoneOf ["/"%char]))) k
                  (MState (last_char o (Some a)) (S pos + String.length o)
                     (String "/" (String b r)) caps)
                = k (MState (last_char r (Some b))
                       (S (S pos + String.length o + 1) + String.length r)
                       EmptyString caps)).
  { change (rmatch (RCat ?r1 ?r2) ?k0 ?st) with (rmatch r1 (rmatch r2 k0) st).
    change (String "/" (String b r)) with ("/" +:+ String b r).
    rewrite rmatch_lit_app.
    rewrite <- (append_empty_r r) at 1.
    rewrite rmatch_plus_run; [done | by apply not_slash | by apply slash_free_all_in
                             | done | done]. }
  rewrite rmatch_plus_run.
  - exact Hk2.
  - by apply not_slash.
  - by apply slash_free_all_in.
  - reflexivity.
  - by rewrite Hk2.
Qed.

Lemma github_url_rmatch (prev : option ascii) (pos : nat) (a : ascii) (o : string)
    (b : ascii) (r : string) :
  Ascii.eqb "/" a = false → occurs "/" o = false →
  Ascii.eqb "/" b = false → occurs "/" r = false →
  ∃ st,
    rmatch (RCat (RLit "github.com")
              (RSeq [RSet (COneOf [":"%char; "/"%char]);
                     RGroup 1 owner_repo; ROpt (RLit ".git"); REol false])) Some
      (MState prev pos
         ("github.com" +:+ String "/" (String a (o +:+ String "/" (String b r)))) [])
    = Some st
    ∧ assoc 1 (m_caps st) = Some (String a (o +:+ String "/" (String b r))).
Proof.
  intros Ha Ho Hb Hr.
  change (RSeq [?x; ?y; ?z; ?u]) with (RCat x (RCat y (RCat z u))).
  change (rmatch (RCat ?r1 ?r2) ?k0 ?st) with (rmatch r1 (rmatch r2 k0) st).
  rewrite rmatch_lit_app.
  change (rmatch (RCat ?r1 ?r2) ?k0 ?st) with (rmatch r1 (rmatch r2 k0) st).
  rewrite rmatch_set_cons by reflexivity.
  change (rmatch (RCat ?r1 ?r2) ?k0 ?st) with (rmatch r1 (rmatch r2 k0) st).
  change (rmatch (RGroup ?n ?r1) ?k0 ?st)
    with (rmatch r1
            (fun st' =>
               k0 (MState (m_prev st') (m_pos st') (m_rest st')
                     ((n, Py.take (m_pos st' - m_pos st) (m_rest st)) :: m_caps st')))
            st).
  rewrite owner_repo_match; try done.
  cbn [m_rest m_prev m_pos m_caps]. eexists. split; [reflexivity|].
  cbn [m_caps assoc Nat.eqb].
  match goal with
  | |- context [Py.take ?n _] =>
      replace n with (String.length (String a (o +:+ String "/" (String b r)))) by lia
  end.
  by rewrite take_all.
Qed.

Lemma github_url_match (owner repo : string) :
  owner ≠ EmptyString → repo ≠ EmptyString →
  occurs "/" owner = false → occurs "/" repo = false →
  ∃ m, first_match github_patterns ("https://github.com/" +:+ owner +:+ "/" +:+ repo)
       = Some m
       ∧ group_str m 1 = owner +:+ "/" +:+ repo.
Proof.
  intros Ho Hr Hso Hsr.
  destruct owner as [|a o]; [done|]. destruct repo as [|b r]; [done|].
  rewrite occurs_cons in Hso, Hsr.
  apply orb_false_elim in Hso as [Ha Hso]. apply orb_false_elim in Hsr as [Hb Hsr].
  unfold github_patterns, first_match, search.
  change (RSeq (RLit ?l :: ?x :: ?rest)) with (RCat (RLit l) (RSeq (x :: rest))).
  rewrite !append_cons, !append_nil.
  do 8 (rewrite search_from_skip by reflexivity).
  destruct (github_url_rmatch (Some "/"%char) 8 a o b r Ha Hso Hb Hsr)
    as (st & Hst & Hcap).
  rewrite !append_cons, !append_nil in Hst.
  rewrite (search_from_here _ _ _ _ _ Hst).
  eexists. split; [reflexivity|].
  unfold group_str, group. cbn [mo_caps]. by rewrite Hcap.
Qed.

(** X14. For a source of the form https://github.com/, an owner, a
    slash and a repository name, where neither part is empty or has a
    slash, the repository that is extracted is the owner, a slash and
    the name with every occurrence of .git removed from the whole, not
    just a final one; the fetcher records it together with the source,
    and nothing else changes. *)
Theorem github_source_gives_owner_and_repo (owner repo : string) (st : rstate) :
  owner ≠ EmptyString → repo ≠ EmptyString →
  occurs "/" owner = false → occurs "/" repo = false →
  let src := "https://github.com/" +:+ owner +:+ "/" +:+ repo in
  let found := replace ".git" EmptyString (owner +:+ "/" +:+ repo) in
  extract_github_repo src st
  = (Some found,
     {| st_fetcher := set_repo found src (st_fetcher st);
        st_files := st_files st;
        st_requests := st_requests st |}).
Proof.
  intros Ho Hr Hso Hsr src found.
  destruct (github_url_match owner repo Ho Hr Hso Hsr) as (m & Hm & Hg).
  unfold extract_github_repo. fold src in Hm. rewrite Hm.
  unfold bind, modify_fetcher, ret. cbv beta zeta iota. rewrite Hg. reflexivity.
Qed.

Lemma github_source_gives_owner_and_repo_witness :
  extract_github_repo "https://github.com/Azure/terraform-azurerm-avm.github-io.git"
    (initial_state fresh_fetcher ∅)
  = (Some "Azure/terraform-azurerm-avmhub-io",
     {| st_fetcher :=
          set_repo "Azure/terraform-azurerm-avmhub-io"
            "https://github.com/Azure/terraform-azurerm-avm.github-io.git"
            fresh_fetcher;
        st_files := ∅;
        st_requests := [] |}).
Proof.
  apply (github_source_gives_owner_and_repo "Azure" "terraform-azurerm-avm.github-io.git"
           (initial_state fresh_fetcher ∅)).
  - discriminate.
  - discriminate.
  - vm_compute. reflexivity.
  - vm_compute. reflexivity.
Defined.

End RepositoryFacts.

(** ** More on the resource matcher *)

Section MoreFinderFacts.

Import Finder.

Implicit Types (r : row) (idx : gmap string (list string)).

(** The resource type that a row of the deployment CSV adds under [ns]:
    the row must have a namespace and a resource type, both not empty,
    and the namespace must be [ns]. *)
Definition listed_type (ns : string) r : option string :=
  match row_get r "ProviderNamespace", row_get r "ResourceType" with
  | Some n, Some rt =>
      if Py.truthy n && Py.truthy rt && String.eqb n ns then Some rt else None
  | _, _ => None
  end.

(** The resource types of the rows for [ns], in the order of the file. *)
Definition types_for (ns : string) (rs : list row) : list string :=
  omap (listed_type ns) rs.

(** An entry of the index: absent when there is nothing to list. *)
Definition entry_of (types : list string) : option (list string) :=
  match types with [] => None | _ => Some types end.

Lemma load_step_lookup idx r (ns : string) :
  load_step idx r !! ns
  = match listed_type ns r with
    | Some rt => Some (default [] (idx !! ns) ++ [rt])%list
    | None => idx !! ns
    end.
Proof.
  unfold load_step, listed_type.
  destruct (row_get r "ProviderNamespace") as [n|]; [|done].
  destruct (row_get r "ResourceType") as [rt|]; [|done].
  destruct (Py.truthy n && Py.truthy rt); simpl; [|done].
  destruct (String.eqb n ns) eqn:E.
  - apply String.eqb_eq in E as ->. rewrite lookup_insert_eq.
    destruct (idx !! ns) as [types|] eqn:E'; simpl.
    + by rewrite E'.
    + by rewrite lookup_insert_eq.
  - apply String.eqb_neq in E. rewrite lookup_insert_ne by done.
    destruct (idx !! n); [done|]. by rewrite lookup_insert_ne.
Qed.

Lemma load_fold_lookup (rs : list row) idx (ns : string) :
  (∀ n, idx !! n = entry_of (default [] (idx !! n))) →
  fold_left load_step rs idx !! ns
  = entry_of (default [] (idx !! ns) ++ types_for ns rs).
Proof.
  revert idx. induction rs as [|r rs IH]; intros idx Hidx; simpl.
  - rewrite app_nil_r. apply Hidx.
  - rewrite IH.
    + rewrite load_step_lookup. unfold types_for. simpl.
      destruct (listed_type ns r) as [rt|]; simpl; [|done].
      by rewrite <- app_assoc.
    + intros n. rewrite load_step_lookup.
      destruct (listed_type n r) as [rt|]; simpl; [|apply Hidx].
      by destruct (default [] (idx !! n)).
Qed.

(** X15. The entry of the index for a namespace is the list of the
    resource types of the complete rows with that namespace, in the
    order of the file and with repetitions; a namespace with no such
    row has no entry, so no entry is an empty list. *)
Theorem index_lists_types_in_file_order (f : csv_file) idx (ns : string) :
  load_deployment_csv f = Some idx →
  idx !! ns = entry_of (types_for ns (rows f))
  ∧ idx !! ns ≠ Some [].
Proof.
  unfold load_deployment_csv. destruct (_ || _); [discriminate|].
  intros [= <-].
  assert (E : fold_left load_step (rows f) ∅ !! ns = entry_of (types_for ns (rows f))).
  { rewrite load_fold_lookup.
    - by rewrite lookup_empty.
    - intros n. by rewrite lookup_empty. }
  split; [done|]. rewrite E. by destruct (types_for ns (rows f)).
Qed.

(** A deployment with two storage accounts, a vault, and a row that
    lacks its resource type. *)
Definition mixed_deployment : csv_file :=
  {| fieldnames := ["ProviderNamespace"; "ResourceType"];
     rows := [ {[ "ProviderNamespace" := Some "Microsoft.Storage";
                  "ResourceType" := Some "storageAccounts" ]};
               {[ "ProviderNamespace" := Some "Microsoft.KeyVault";
                  "ResourceType" := Some "vaults" ]};
               {[ "ProviderNamespace" := Some "Microsoft.Network";
                  "ResourceType" := Some EmptyString ]};
               {[ "ProviderNamespace" := Some "Microsoft.Storage";
                  "ResourceType" := Some "storageAccounts" ]} ] |}.

Definition mixed_index : gmap string (list string) :=
  {[ "Microsoft.Storage" := ["storageAccounts"; "storageAccounts"];
     "Microsoft.KeyVault" := ["vaults"] ]}.

Lemma index_lists_types_in_file_order_witness :
  mixed_index !! "Microsoft.Storage"
  = entry_of (types_for "Microsoft.Storage" (rows mixed_deployment))
  ∧ mixed_index !! "Microsoft.Storage" ≠ Some [].
Proof.
  apply (index_lists_types_in_file_order mixed_deployment mixed_index
           "Microsoft.Storage").
  vm_compute. reflexivity.
Defined.

Lemma direct_match_same idx idx' (ns rt : string) :
  (∀ ns rt, indexed idx ns rt ↔ indexed idx' ns rt) →
  direct_match idx ns rt = direct_match idx' ns rt.
Proof.
  intros H. apply eq_true_iff_eq. rewrite !direct_match_spec. apply H.
Qed.

(** X16. The matcher uses the index only to ask whether a resource type
    is listed under a namespace: two indexes that list the same types,
    whatever their order and repetitions, give the same result. *)
Theorem matching_depends_on_membership_only (f : csv_file) idx idx' :
  (∀ ns rt, indexed idx ns rt ↔ indexed idx' ns rt) →
  match_and_filter_modules f idx = match_and_filter_modules f idx'.
Proof.
  intros H. unfold match_and_filter_modules.
  destruct (List.filter _ OUTPUT_COLUMNS); [|done].
  rewrite !match_fold.
  rewrite (List.filter_ext (retained idx) (retained idx')); [done|].
  intros r. unfold retained. by rewrite (direct_match_same idx idx' _ _ H).
Qed.

Definition doubled_storage_index : gmap string (list string) :=
  {[ "Microsoft.Storage" := ["storageAccounts"; "storageAccounts"] ]}.

Lemma matching_depends_on_membership_only_witness :
  match_and_filter_modules storage_reference doubled_storage_index
  = match_and_filter_modules storage_reference storage_index.
Proof.
  apply (matching_depends_on_membership_only storage_reference
           doubled_storage_index storage_index).
  intros ns rt. unfold indexed, doubled_storage_index, storage_index.
  destruct (decide (ns = "Microsoft.Storage")) as [->|Hne].
  - rewrite !lookup_singleton_eq. split.
    + intros (types & [= <-] & Hin). eexists. split; [done|].
      repeat (apply elem_of_cons in Hin as [->|Hin]; [apply list_elem_of_here|]).
      by apply elem_of_nil in Hin.
    + intros (types & [= <-] & Hin). eexists. split; [done|].
      apply list_elem_of_singleton in Hin as ->. apply list_elem_of_here.
  - rewrite !lookup_singleton_ne by done. split; intros (? & [=] & _).
Defined.

(** X17. For a file whose header was read: when a column is missing
    from the header, the matcher raises its ValueError if the column is
    one of the six output columns, and the loader raises its ValueError
    if the column is ProviderNamespace or ResourceType; neither looks at
    a row, and the matcher does not look at the index.  (The failures
    of a file without a header or with bytes that cannot be decoded are
    outside the model; nothing is said about them.) *)
Theorem missing_column_is_refused (f : csv_file) idx (col : string) :
  col ∉ fieldnames f →
  (col ∈ OUTPUT_COLUMNS → match_and_filter_modules f idx = None)
  ∧ (col ∈ ["ProviderNamespace"; "ResourceType"] → load_deployment_csv f = None).
Proof.
  intros Hout. split.
  - intros Hin. unfold match_and_filter_modules.
    assert (Hf : col ∈ List.filter (λ col, negb (mem_str col (fieldnames f)))
                         OUTPUT_COLUMNS).
    { apply list_elem_of_In, filter_In. split; [by apply list_elem_of_In|].
      unfold mem_str. by rewrite bool_decide_eq_false_2. }
    destruct (List.filter _ OUTPUT_COLUMNS); [|done]. by apply elem_of_nil in Hf.
  - intros Hin. unfold load_deployment_csv, mem_str.
    apply elem_of_cons in Hin as [->|Hin].
    + by rewrite (bool_decide_eq_false_2 _ Hout).
    + apply list_elem_of_singleton in Hin as ->.
      rewrite (bool_decide_eq_false_2 _ Hout). by rewrite orb_true_r.
Qed.

Lemma missing_column_is_refused_witness :
  ("ResourceType" ∈ OUTPUT_COLUMNS →
   match_and_filter_modules
     {| fieldnames := ["ProviderNamespace"; "ModuleName"; "ModuleStatus"];
        rows := [storage_row "Available"] |} storage_index = None)
  ∧ ("ResourceType" ∈ ["ProviderNamespace"; "ResourceType"] →
     load_deployment_csv
       {| fieldnames := ["ProviderNamespace"; "ModuleName"; "ModuleStatus"];
          rows := [storage_row "Available"] |} = None).
Proof.
  apply (missing_column_is_refused
           {| fieldnames := ["ProviderNamespace"; "ModuleName"; "ModuleStatus"];
              rows := [storage_row "Available"] |} storage_index "ResourceType").
  apply (bool_decide_unpack _). vm_compute. exact I.
Defined.

Lemma matched_row_columns r (col : string) :
  is_Some (matched_row_of r !! col) ↔ col ∈ OUTPUT_COLUMNS.
Proof.
  split.
  - intros [v Hv]. unfold matched_row_of in Hv.
    apply elem_of_list_to_map_2 in Hv.
    apply list_elem_of_fmap in Hv as (c & [= -> _] & Hc). done.
  - intros Hc. rewrite (matched_row_lookup r col Hc). eauto.
Qed.

(** X18. What the matcher returns: the copies of the retained rows in
    the order of the file, so never more modules than rows; every module
    has the six output columns and no other; and with an empty index
    nothing is matched. *)
Theorem matched_modules_shape (f : csv_file) idx (out : list row) (cols : list string) :
  match_and_filter_modules f idx = Some (out, cols) →
  cols = OUTPUT_COLUMNS
  ∧ out = map matched_row_of (List.filter (retained idx) (rows f))
  ∧ (length out ≤ length (rows f))%nat
  ∧ (∀ m col, m ∈ out → is_Some (m !! col) ↔ col ∈ OUTPUT_COLUMNS)
  ∧ (idx = ∅ → out = []).
Proof.
  intros H. apply match_and_filter_Some in H as [-> ->].
  split; [done|]. split; [done|]. split; [|split].
  - rewrite length_map. apply filter_length_le.
  - intros m col (r & -> & _)%list_elem_of_fmap. apply matched_row_columns.
  - intros ->. induction (rows f) as [|r rs IH]; simpl; [done|].
    assert (E : retained ∅ r = false).
    { unfold retained, direct_match. rewrite lookup_empty.
      by rewrite andb_false_r. }
    by rewrite E.
Qed.

Lemma matched_modules_shape_witness :
  OUTPUT_COLUMNS = OUTPUT_COLUMNS
  ∧ [matched_row_of (storage_row "Available")]
    = map matched_row_of (List.filter (retained storage_index) (rows storage_reference))
  ∧ (length [matched_row_of (storage_row "Available")]
     ≤ length (rows storage_reference))%nat
  ∧ (∀ m col, m ∈ [matched_row_of (storage_row "Available")] →
              is_Some (m !! col) ↔ col ∈ OUTPUT_COLUMNS)
  ∧ (storage_index = ∅ → [matched_row_of (storage_row "Available")] = []).
Proof.
  apply (matched_modules_shape storage_reference storage_index
           [matched_row_of (storage_row "Available")] OUTPUT_COLUMNS).
  vm_compute. reflexivity.
Defined.

End MoreFinderFacts.

(** ** The name of the module in the result *)

Section NameFacts.

Import Py Regex Readme Registry.

Lemma basename_go_free (cur s : string) :
  occurs "/" s = false → OsPath.basename_go cur s = String.rev cur +:+ s.
Proof.
  revert cur. induction s as [|a s IH]; intros cur.
  - intros _. simpl. by rewrite append_empty_r.
  - rewrite occurs_cons. intros [Ha Hs]%orb_false_elim.
    cbn [OsPath.basename_go]. rewrite Ascii.eqb_sym, Ha.
    rewrite IH by done. by rewrite rev_cons, app_assoc_string.
Qed.

Lemma basename_go_after_slash (cur p s : string) :
  occurs "/" s = false → OsPath.basename_go cur (p +:+ "/" +:+ s) = s.
Proof.
  intros Hs. revert cur. induction p as [|a p IH]; intros cur.
  - change (EmptyString +:+ "/" +:+ s) with (String "/" s).
    cbn [OsPath.basename_go]. change (Ascii.eqb "/" "/") with true. cbv iota.
    by rewrite basename_go_free.
  - change (String a p +:+ "/" +:+ s) with (String a (p +:+ "/" +:+ s)).
    cbn [OsPath.basename_go]. destruct (Ascii.eqb a "/"); apply IH.
Qed.

(** The base name of a path that ends with a slash and a text without
    a slash is that text. *)
Lemma basename_after_slash (p s : string) :
  occurs "/" s = false → OsPath.basename (p +:+ "/" +:+ s) = s.
Proof. apply basename_go_after_slash. Qed.

(** The position of the first [c] in [s]; the length of [s] when there
    is none. *)
Fixpoint index_of (c : ascii) (s : string) : nat :=
  match s with
  | EmptyString => 0
  | String a s' => if Ascii.eqb c a then 0 else S (index_of c s')
  end.

Lemma index_of_app_free (c : ascii) (s t : string) :
  occurs c s = false → index_of c (s +:+ t) = String.length s + index_of c t.
Proof.
  induction s as [|a s IH]; [done|].
  rewrite occurs_cons. intros [Ha Hs]%orb_false_elim.
  change (String a s +:+ t) with (String a (s +:+ t)).
  cbn [index_of String.length]. rewrite Ha, IH by done. done.
Qed.

(** In a text without a dot, followed by _README.md, the suffix is the
    only occurrence of _README.md. *)
Lemma readme_suffix_not_inside (a : ascii) (s : string) :
  occurs "." (String a s) = false →
  startswith "_README.md" (String a s +:+ "_README.md") = false.
Proof.
  intros Hfree. unfold startswith.
  destruct (strip_prefix "_README.md" (String a s +:+ "_README.md")) as [r|] eqn:E;
    [|done].
  apply strip_prefix_Some in E.
  assert (H : index_of "." (String a s +:+ "_README.md")
              = index_of "." ("_README.md" +:+ r)) by by rewrite E.
  rewrite index_of_app_free in H by done.
  vm_compute index_of in H at 2.
  change (index_of "." "_README.md") with 7 in H.
  cbn [String.length] in H. lia.
Qed.

Lemma replace_readme_suffix (s : string) :
  occurs "." s = false →
  replace "_README.md" EmptyString (s +:+ "_README.md") = s.
Proof.
  unfold replace. induction s as [|a s IH]; intros Hs; [reflexivity|].
  pose proof (readme_suffix_not_inside a s Hs) as Hn.
  change (String a s +:+ "_README.md") with (String a (s +:+ "_README.md")) in *.
  cbn [replace_go]. rewrite Hn.
  rewrite occurs_cons in Hs. apply orb_false_elim in Hs as [_ Hs].
  by rewrite IH.
Qed.

(** The file in which the README of the module is saved. *)
Definition module_file (f : fetcher) : string :=
  "working/" +:+ replace "-" "_" (f_name f) +:+ "_README.md".

Lemma join_working (dir name : string) :
  ∃ p, OsPath.join dir ("working/" +:+ name) = p +:+ "/" +:+ name.
Proof.
  unfold OsPath.join.
  change (startswith "/" ("working/" +:+ name)) with false. cbv iota.
  destruct (negb (truthy dir) || endswith "/" dir).
  - exists (dir +:+ "working"). by rewrite !app_assoc_string.
  - exists (dir +:+ "/" +:+ "working"). by rewrite !app_assoc_string.
Qed.

(** The parser for the saved README of a module whose name has no dot
    is named after the module, hyphens replaced by underscores. *)
Lemma module_file_name (dir : string) (f : fetcher) :
  occurs "/" (f_name f) = false → occurs "." (f_name f) = false →
  module_name (new_parser (OsPath.join dir (module_file f)))
  = replace "-" "_" (f_name f).
Proof.
  intros Hs Hd. unfold new_parser, module_file. cbn [module_name].
  destruct (join_working dir (replace "-" "_" (f_name f) +:+ "_README.md")) as [p ->].
  rewrite basename_after_slash.
  - apply replace_readme_suffix. by apply (replace_char_keeps_free "." "-" "_").
  - rewrite occurs_app. by rewrite (replace_char_keeps_free "/" "-" "_").
Qed.

Section Run.

Variable w : world.

Lemma fetch_and_save_readme_file (st : rstate) (path : string) (st1 : rstate) :
  fetch_and_save_readme w st = (Some path, st1) → path = module_file (st_fetcher st).
Proof.
  unfold fetch_and_save_readme, bind. cbv beta zeta iota.
  pose proof (fetch_module_source_state w st) as E1.
  destruct (fetch_module_source w st) as [[src|] sa]; [|discriminate].
  simpl in E1.
  pose proof (extract_github_repo_grows w src sa) as (N2 & _).
  destruct (extract_github_repo src sa) as [[repo|] sb]; [|discriminate].
  destruct (negb (truthy repo)); [discriminate|].
  pose proof (fetch_readme_content_grows w repo EmptyString sb) as (N3 & _).
  destruct (fetch_readme_content w repo EmptyString sb) as [[[text b]|] sc];
    [|discriminate].
  simpl in N2, N3. unfold get_fetcher, write_file, ret. cbv beta zeta iota.
  destruct (writable w _); intros [= <- _]. unfold module_file.
  rewrite N3, N2, E1. done.
Qed.

(** X19. When a run in registry mode completes for a module whose name
    has no dot, the result has one key, the name of the module with its
    hyphens replaced by underscores, and the entry under it carries the
    same name. *)
Theorem registry_result_is_keyed_by_module_name
    (module_name : string) (rest : list string) (files : gmap string string)
    (f : fetcher) (parsed_data json_data : gmap string module_doc) (st : rstate) :
  new_fetcher module_name = Some f →
  occurs "." (f_name f) = false →
  main w (module_name :: rest) files = (Completed parsed_data json_data, st) →
  ∃ doc, json_data = {[ replace "-" "_" (f_name f) := doc ]}
         ∧ md_name doc = replace "-" "_" (f_name f).
Proof.
  intros Hf Hdot. unfold main. rewrite Hf.
  apply new_fetcher_parts in Hf as (_ & Hslash & _).
  unfold main_registry, bind. cbv beta zeta iota.
  destruct (fetch_and_save_readme w _) as [[path|] st1] eqn:Hsave;
    [|discriminate].
  apply fetch_and_save_readme_file in Hsave. cbn [st_fetcher] in Hsave. subst path.
  destruct (negb (truthy_opt (Some (module_file f)))); [discriminate|].
  cbn [default]. rewrite parse_and_report_shape. cbv zeta.
  rewrite parse_twice.
  match goal with
  | |- context [parse ?fs (ready ?d ?q)] =>
      destruct (parse_result fs (ready d q)) as (subs & Hres & _);
      assert (Hname : Readme.module_name (ready d q) = replace "-" "_" (f_name f))
  end.
  { match goal with
    | |- Readme.module_name (ready ?d ?q) = _ =>
        destruct (ready_fields d q) as [_ ->]
    end.
    unfold parser_at, read_file. cbn [readme_path new_parser].
    destruct (st_files st1 !! _);
      [change (Readme.module_name (set_content ?c ?p)) with (Readme.module_name p)|];
      by apply module_file_name. }
  rewrite Hname in Hres. revert Hres.
  match goal with
  | |- context [parse ?fs ?p] => generalize (parse fs p).1
  end.
  intros r -> [= <- <- _]. eexists. split; reflexivity.
Qed.

End Run.

Lemma registry_result_is_keyed_by_module_name_witness :
  ∃ doc, json_of sample_run.1 = {[ replace "-" "_" (f_name fresh_fetcher) := doc ]}
         ∧ md_name doc = replace "-" "_" (f_name fresh_fetcher).
Proof.
  apply (registry_result_is_keyed_by_module_name (sample_world "main")
           "acme/widget/azurerm" [] ∅ fresh_fetcher
           (parsed_of sample_run.1) (json_of sample_run.1) sample_run.2).
  - vm_compute. reflexivity.
  - vm_compute. reflexivity.
  - vm_compute. reflexivity.
Defined.

End NameFacts.

(** ** The name of the output file

    The part of [main] that derives the name of the JSON file from the
    path of the README and, for a README that was not saved by the
    fetcher, from its title. *)

Module OutputName.

Import Readme.

(** [str.lower] on one character (code points below 256): the letters
    A to Z and the capital letters of Latin-1. *)
Definition lower_char (a : ascii) : ascii :=
  let n := nat_of_ascii a in
  if (((65 <=? n) && (n <=? 90))
      || ((192 <=? n) && (n <=? 222) && negb (n =? 215)))%nat
  then ascii_of_nat (n + 32) else a.

Fixpoint lower (s : string) : string :=
  match s with
  | EmptyString => EmptyString
  | String a s' => String (lower_char a) (lower s')
  end.

(** [parts[-2:]] *)
Definition last_two (parts : list string) : list string :=
  skipn (length parts - 2) parts.

(** What the title line gives: [None] when the name stays unset. *)
Definition title_name (line : string) : option string :=
  let title := Py.strip (Py.strip_chars ["#"%char; " "%char] line) in
  if Py.contains "terraform" title && Py.contains "-" title
  then
    let parts := Py.split "-" title in
    if (3 <=? length parts)%nat
    then Some (if (3 <? length parts)%nat
               then Py.join "-" (last_two parts)
               else List.last parts EmptyString)
    else None
  else None.

Section WithFiles.

Variable fs : gmap string string.

(** The module name from which [main] makes the output path. *)
Definition module_name_of (readme_path : string) : string :=
  if Py.contains "_README.md" readme_path
  then Py.replace "_README.md" EmptyString (OsPath.basename readme_path)
  else
    let temp_parser := read_file fs (new_parser readme_path) in
    let lines := Py.split Py.NL (content temp_parser) in
    let module_name :=
      match find (Py.startswith "# ") (firstn 10 lines) with
      | Some line => title_name line
      | None => None
      end in
    let module_name :=
      if negb (Py.truthy_opt module_name)
      then
        let base :=
          lower (Py.replace ".md" EmptyString (OsPath.basename readme_path)) in
        if Py.truthy base then base else "terraform_module"
      else default EmptyString module_name in
    Py.replace " " "_" (Py.replace "-" "_" module_name).

(** [output_path] *)
Definition output_path (script_dir readme_path : string) : string :=
  OsPath.join script_dir ("output/" +:+ module_name_of readme_path +:+ ".json").

End WithFiles.

End OutputName.

Section OutputNameFacts.

Import Py Readme Registry OutputName.

Lemma replace_char_nonempty (a b : ascii) (s : string) :
  s ≠ EmptyString →
  replace (String a EmptyString) (String b EmptyString) s ≠ EmptyString.
Proof.
  destruct s as [|x s]; [done|]. intros _. rewrite replace_char_step.
  by destruct (Ascii.eqb a x).
Qed.

Lemma cleaned_name (s : string) :
  s ≠ EmptyString →
  replace " " "_" (replace "-" "_" s) ≠ EmptyString
  ∧ occurs "-" (replace " " "_" (replace "-" "_" s)) = false
  ∧ occurs " " (replace " " "_" (replace "-" "_" s)) = false.
Proof.
  intros Hs. split; [|split].
  - by apply replace_char_nonempty, replace_char_nonempty.
  - apply (replace_char_keeps_free "-" " " "_"); [done|].
    by apply (replace_char_gone "-" "_").
  - by apply (replace_char_gone " " "_").
Qed.

Section Files.

Variable fs : gmap string string.

(** X20. For a README whose path does not contain _README.md, the
    name of the output file is never empty and has neither a hyphen nor
    a space, whatever the README holds and also when it cannot be read:
    without a usable title the name comes from the file name, and at
    last it is terraform_module. *)
Theorem local_output_name_is_usable (readme_path : string) :
  contains "_README.md" readme_path = false →
  module_name_of fs readme_path ≠ EmptyString
  ∧ occurs "-" (module_name_of fs readme_path) = false
  ∧ occurs " " (module_name_of fs readme_path) = false.
Proof.
  intros Hc. unfold module_name_of. rewrite Hc. cbv zeta.
  apply cleaned_name.
  destruct (truthy_opt _) eqn:Et; cbn [negb].
  - apply truthy_opt_Some in Et as (s & -> & Hs). done.
  - destruct (truthy (lower _)) eqn:Eb; [|done].
    by apply truthy_nonempty in Eb.
Qed.

(** X21. For the README that the fetcher saved for a module whose name
    has no dot, the name of the output file is the name of the module
    with its hyphens replaced by underscores, and the file is that name
    with the extension json in the folder output; the content of the
    README plays no part. *)
Theorem registry_output_is_named_after_the_module (script_dir : string) (f : fetcher) :
  occurs "/" (f_name f) = false → occurs "." (f_name f) = false →
  module_name_of fs (OsPath.join script_dir (module_file f))
  = replace "-" "_" (f_name f)
  ∧ output_path fs script_dir (OsPath.join script_dir (module_file f))
    = OsPath.join script_dir ("output/" +:+ replace "-" "_" (f_name f) +:+ ".json").
Proof.
  intros Hs Hd.
  assert (E : module_name_of fs (OsPath.join script_dir (module_file f))
              = replace "-" "_" (f_name f)).
  { unfold module_name_of.
    assert (Hc : contains "_README.md" (OsPath.join script_dir (module_file f)) = true).
    { unfold module_file.
      destruct (join_working script_dir (replace "-" "_" (f_name f) +:+ "_README.md"))
        as [p ->].
      replace (p +:+ "/" +:+ replace "-" "_" (f_name f) +:+ "_README.md")
        with ((p +:+ "/" +:+ replace "-" "_" (f_name f)) +:+ "_README.md"
              +:+ EmptyString)
        by (by rewrite append_empty_r, !app_assoc_string).
      apply contains_app. }
    rewrite Hc. apply (module_file_name script_dir f Hs Hd). }
  split; [done|]. unfold output_path. by rewrite E.
Qed.

End Files.

Lemma local_output_name_is_usable_witness :
  module_name_of ∅ "/opt/avm/working/README.md" ≠ EmptyString
  ∧ occurs "-" (module_name_of ∅ "/opt/avm/working/README.md") = false
  ∧ occurs " " (module_name_of ∅ "/opt/avm/working/README.md") = false.
Proof.
  apply (local_output_name_is_usable ∅ "/opt/avm/working/README.md").
  vm_compute. reflexivity.
Defined.

Lemma registry_output_is_named_after_the_module_witness :
  module_name_of ∅ (OsPath.join "/opt/avm" (module_file fresh_fetcher))
  = replace "-" "_" (f_name fresh_fetcher)
  ∧ output_path ∅ "/opt/avm" (OsPath.join "/opt/avm" (module_file fresh_fetcher))
    = OsPath.join "/opt/avm"
        ("output/" +:+ replace "-" "_" (f_name fresh_fetcher) +:+ ".json").
Proof.
  apply (registry_output_is_named_after_the_module ∅ "/opt/avm" fresh_fetcher).
  - vm_compute. reflexivity.
  - vm_compute. reflexivity.
Defined.

End OutputNameFacts.

(** ** From the two CSV files to the matched modules *)

Section EndToEndFacts.

Import Finder.

Implicit Types (r d : row).

(** Some row of the deployment CSV has the namespace [ns] and the
    resource type [rt], both not empty. *)
Definition deployed (rs : list row) (ns rt : string) : bool :=
  existsb
    (λ d, match row_get d "ProviderNamespace", row_get d "ResourceType" with
          | Some n, Some t =>
              Py.truthy n && Py.truthy t && String.eqb n ns && String.eqb t rt
          | _, _ => false
          end)
    rs.

(** The row of the reference CSV is complete, its resource is deployed
    and its module is available. *)
Definition wanted (rs : list row) r : bool :=
  Py.truthy_opt (row_get r "ProviderNamespace")
  && Py.truthy_opt (row_get r "ResourceType")
  && Py.truthy_opt (row_get r "ModuleStatus")
  && deployed rs (default EmptyString (row_get r "ProviderNamespace"))
       (default EmptyString (row_get r "ResourceType"))
  && String.eqb (default EmptyString (row_get r "ModuleStatus")) "Available".

Lemma deployed_spec (rs : list row) (ns rt : string) :
  deployed rs ns rt = true ↔ ∃ d, d ∈ rs ∧ complete_row d ns rt.
Proof.
  unfold deployed. rewrite existsb_exists. split.
  - intros (d & Hin & Hd). exists d. split; [by apply list_elem_of_In|].
    unfold complete_row.
    destruct (row_get d "ProviderNamespace") as [n|]; [|done].
    destruct (row_get d "ResourceType") as [t|]; [|done].
    apply andb_true_iff in Hd as [Hd Ht]. apply andb_true_iff in Hd as [Hd Hn].
    apply andb_true_iff in Hd as [Tn Tt].
    apply String.eqb_eq in Hn as ->. apply String.eqb_eq in Ht as ->.
    by rewrite <- !truthy_nonempty.
  - intros (d & Hin & Hn & Hn0 & Ht & Ht0). exists d.
    split; [by apply list_elem_of_In|]. rewrite Hn, Ht.
    apply truthy_nonempty in Hn0, Ht0. by rewrite Hn0, Ht0, !String.eqb_refl.
Qed.

Lemma direct_match_deployed (rs : list row) (ns rt : string) :
  direct_match (fold_left load_step rs ∅) ns rt = deployed rs ns rt.
Proof.
  apply eq_true_iff_eq. rewrite direct_match_spec, deployed_spec.
  fold (indexed (fold_left load_step rs ∅) ns rt). rewrite indexed_fold.
  split; [|by right]. intros [(types & H & _)|H]; [|done].
  by rewrite lookup_empty in H.
Qed.

(** X22. The two stages together: when both CSV files have their
    columns, the matched modules are the copies, in the order of the
    reference CSV and one per row, of exactly the rows whose namespace,
    resource type and status are present and not empty, whose status is
    Available, and for which some row of the deployment CSV has the same
    namespace and resource type, both not empty. *)
Theorem matched_modules_from_the_two_files
    (deployment reference : csv_file) (idx : gmap string (list string))
    (out : list row) (cols : list string) :
  load_deployment_csv deployment = Some idx →
  match_and_filter_modules reference idx = Some (out, cols) →
  out = map matched_row_of (List.filter (wanted (rows deployment)) (rows reference)).
Proof.
  unfold load_deployment_csv. destruct (_ || _); [discriminate|].
  intros [= <-] H. apply match_and_filter_Some in H as [-> _].
  f_equal. apply List.filter_ext. intros r.
  unfold retained, wanted. by rewrite direct_match_deployed.
Qed.

Lemma matched_modules_from_the_two_files_witness :
  [matched_row_of (storage_row "Available")]
  = map matched_row_of
      (List.filter (wanted (rows storage_deployment)) (rows storage_reference)).
Proof.
  apply (matched_modules_from_the_two_files storage_deployment storage_reference
           storage_index [matched_row_of (storage_row "Available")] OUTPUT_COLUMNS).
  - vm_compute. reflexivity.
  - vm_compute. reflexivity.
Defined.

End EndToEndFacts.

(** ** Where a section begins and where it ends *)

Section ExtractionFacts.

Import Py Regex Readme.

(** The literal [lit] does not begin at a position inside [pre], in the
    text [pre] followed by [s]. *)
Fixpoint absent_before (lit pre s : string) : bool :=
  match pre with
  | EmptyString => true
  | String a pre' => negb (startswith lit (pre +:+ s)) && absent_before lit pre' s
  end.

(** A section ends where [rest] begins, [prev] being the character
    before: at the end of the text, or at the beginning of a line that
    begins with two hashes and a white-space character. *)
Definition ends_here (prev : option ascii) (rest : string) : bool :=
  match rest with
  | EmptyString => true
  | _ =>
      match prev with Some a => Ascii.eqb a nl | None => false end
      && match strip_prefix "##" rest with
         | Some (String c _) => isspace c
         | _ => false
         end
  end.

(** No section ends at a position inside [body], in the text [body]
    followed by [tail]. *)
Fixpoint no_end_inside (prev : option ascii) (body tail : string) : bool :=
  match body with
  | EmptyString => true
  | String a body' =>
      negb (ends_here prev (body +:+ tail)) && no_end_inside (Some a) body' tail
  end.

Lemma search_from_prefix (lit : string) (r : regex) (prev : option ascii)
    (pos : nat) (pre s : string) :
  absent_before lit pre s = true →
  search_from (RCat (RLit lit) r) prev pos (pre +:+ s)
  = search_from (RCat (RLit lit) r) (last_char pre prev) (pos + String.length pre) s.
Proof.
  revert prev pos. induction pre as [|a pre IH]; intros prev pos H.
  - change (EmptyString +:+ s) with s. unfold last_char. simpl.
    by rewrite Nat.add_0_r.
  - cbn [absent_before] in H. apply andb_true_iff in H as [Hn H].
    apply negb_true_iff in Hn. unfold startswith in Hn.
    change (String a pre +:+ s) with (String a (pre +:+ s)) in *.
    rewrite search_from_skip.
    + rewrite IH by done. rewrite last_char_cons. f_equal. simpl. lia.
    + by destruct (strip_prefix lit (String a (pre +:+ s))).
Qed.

(** The continuation fails at every position inside [body]. *)
Fixpoint fails_inside (k : mstate → option mstate) (prev : option ascii)
    (pos : nat) (caps : list (nat * string)) (body tail : string) : Prop :=
  match body with
  | EmptyString => True
  | String a body' =>
      k (MState prev pos (body +:+ tail) caps) = None
      ∧ fails_inside k (Some a) (S pos) caps body' tail
  end.

(** A lazy repetition of any character reads up to the first position
    at which what follows the repetition matches. *)
Lemma star_lazy_run (k : mstate → option mstate) (prev : option ascii)
    (pos : nat) (caps : list (nat * string)) (body tail : string) :
  fails_inside k prev pos caps body tail →
  is_Some (k (MState (last_char body prev) (pos + String.length body) tail caps)) →
  star true CAny k prev pos caps (body +:+ tail)
  = k (MState (last_char body prev) (pos + String.length body) tail caps).
Proof.
  revert prev pos. induction body as [|a body IH]; intros prev pos Hf Hk.
  - change (EmptyString +:+ tail) with tail. unfold last_char in *. simpl in *.
    rewrite Nat.add_0_r in *. destruct Hk as [r Hk].
    destruct tail; simpl; by rewrite Hk.
  - destruct Hf as [H0 Hf]. rewrite last_char_cons in *.
    replace (pos + String.length (String a body)) with (S pos + String.length body) in *
      by (simpl; lia).
    change (String a body +:+ tail) with (String a (body +:+ tail)) in *.
    simpl. rewrite H0. simpl. by apply IH.
Qed.

(** The end of a section, as the pattern has it. *)
Definition section_stop : regex :=
  RAlt (RSeq [RBol true; RLit "##"; RSet CSpace]) REnd.

Lemma section_stop_spec (st : mstate) :
  m_pos st ≠ 0 →
  if ends_here (m_prev st) (m_rest st)
  then ∃ st', rmatch section_stop Some st = Some st' ∧ m_caps st' = m_caps st
  else rmatch section_stop Some st = None.
Proof.
  intros Hpos. destruct st as [prev pos rest caps]. cbn [m_pos m_prev m_rest] in *.
  unfold section_stop. cbn [RSeq rmatch]. unfold at_bol, at_end, or_else.
  cbn [m_pos m_prev m_rest m_caps].
  destruct (pos =? 0)%nat eqn:E; [by apply Nat.eqb_eq in E|]. cbn [orb andb].
  destruct rest as [|c rest]; [|].
  - cbn [ends_here]. destruct (match prev with Some a => _ | None => _ end);
      cbn [strip_prefix]; eexists; split; reflexivity.
  - unfold ends_here.
    destruct (match prev with Some a => Ascii.eqb a nl | None => false end);
      cbn [andb]; [|done].
    destruct (strip_prefix "##" (String c rest)) as [[|d rest']|]; [done| |done].
    unfold cs_mem. destruct (isspace d); [|done].
    eexists. split; reflexivity.
Qed.

Lemma no_end_fails_inside (k : mstate → option mstate) (n : nat)
    (f : mstate → list (nat * string)) (prev : option ascii) (pos : nat)
    (body tail : string) :
  pos ≠ 0 →
  (∀ st, k st = rmatch section_stop Some
                  (MState (m_prev st) (m_pos st) (m_rest st) (f st))) →
  no_end_inside prev body tail = true →
  fails_inside k prev pos [] body tail.
Proof.
  intros Hpos Hk. revert prev pos Hpos.
  induction body as [|a body IH]; intros prev pos Hpos H; [done|].
  cbn [no_end_inside] in H. apply andb_true_iff in H as [Hn H].
  apply negb_true_iff in Hn. split; [|by apply IH].
  rewrite Hk. cbn [m_prev m_pos m_rest].
  pose proof (section_stop_spec
                (MState prev pos (String a body +:+ tail)
                   (f (MState prev pos (String a body +:+ tail) []))) Hpos) as Hs.
  cbn [m_prev m_rest] in Hs. by rewrite Hn in Hs.
Qed.

(** X23. Where a section begins and ends, for a name without a
    character that is special in a regular expression.  Let the text
    consist of a part [pre], the heading (two hashes, a space, the
    name), a part [body] and a part [tail], such that the heading does
    not begin
    inside [pre], no section ends inside [body], and a section ends
    where [tail] begins: [tail] is empty, or [body] ends with a newline
    and [tail] begins with two hashes and a white-space character.
    Then the section that is extracted is [body], stripped. *)
Theorem section_is_the_text_up_to_the_next_heading (pre name body tail : string) :
  let heading := "## " +:+ name in
  literal_name name = true →
  absent_before heading pre (heading +:+ body +:+ tail) = true →
  no_end_inside (last_char heading None) body tail = true →
  ends_here (last_char body (last_char heading None)) tail = true →
  extract_section (pre +:+ heading +:+ body +:+ tail) name = strip body.
Proof.
  intros heading _ Hpre Hin Hend.
  unfold extract_section, search, section_re.
  change (RSeq [RLit ("## " +:+ name); ?a; ?b])
    with (RCat (RLit heading) (RCat a b)).
  rewrite search_from_prefix by done.
  set (p0 := last_char pre None). set (n0 := 0 + String.length pre).
  set (k := λ st' : mstate,
         rmatch section_stop Some
           (MState (m_prev st') (m_pos st') (m_rest st')
              ((1, Py.take (m_pos st' - (n0 + String.length heading)) (body +:+ tail))
               :: m_caps st'))).
  assert (Hlen : n0 + String.length heading ≠ 0).
  { unfold heading. change (String.length ("## " +:+ name))
      with (S (S (S (String.length name)))). lia. }
  assert (Hprev : last_char heading p0 = last_char heading None).
  { unfold heading. change ("## " +:+ name) with (String "#" ("# " +:+ name)).
    by rewrite !last_char_cons. }
  set (st_end := MState (last_char body (last_char heading p0))
                   (n0 + String.length heading + String.length body) tail []).
  pose proof (section_stop_spec
                (MState (m_prev st_end) (m_pos st_end) (m_rest st_end)
                   ((1, Py.take (m_pos st_end - (n0 + String.length heading))
                          (body +:+ tail)) :: m_caps st_end))) as Hstop.
  cbn [m_prev m_pos m_rest m_caps st_end] in Hstop.
  rewrite Hprev, Hend in Hstop.
  destruct Hstop as (st' & Hst' & Hcaps); [lia|].
  assert (Hm : rmatch (RCat (RLit heading)
                         (RCat (RGroup 1 (RStar true CAny)) section_stop)) Some
                 (MState p0 n0 (heading +:+ body +:+ tail) [])
               = Some st').
  { change (rmatch (RCat ?r1 ?r2) ?k0 ?st) with (rmatch r1 (rmatch r2 k0) st).
    rewrite rmatch_lit_app.
    change (rmatch (RCat ?r1 ?r2) ?k0 ?st) with (rmatch r1 (rmatch r2 k0) st).
    change (rmatch (RGroup 1 (RStar true CAny)) (rmatch section_stop Some)
              (MState ?p ?n ?r []))
      with (star true CAny k p n [] r).
    rewrite star_lazy_run.
    - unfold k. cbn [m_prev m_pos m_rest m_caps]. by rewrite Hprev.
    - apply (no_end_fails_inside k 1
               (λ st', (1, Py.take (m_pos st' - (n0 + String.length heading))
                             (body +:+ tail)) :: m_caps st')); try done.
      by rewrite Hprev.
    - unfold k. cbn [m_prev m_pos m_rest m_caps]. rewrite Hprev, Hst'. eauto. }
  fold section_stop.
  rewrite (search_from_here _ _ _ _ _ Hm).
  unfold group_str, group. cbn [mo_caps]. rewrite Hcaps. cbn [assoc Nat.eqb default].
  replace (n0 + String.length heading + String.length body
           - (n0 + String.length heading)) with (String.length body) by lia.
  by rewrite take_app_length.
Qed.

Lemma section_is_the_text_up_to_the_next_heading_witness :
  extract_section
    (("# widget" +:+ NL +:+ NL) +:+ ("## " +:+ "Optional Inputs")
     +:+ (NL +:+ NL +:+ "See ## Outputs for what is returned." +:+ NL +:+ NL)
     +:+ ("## Resources" +:+ NL +:+ NL +:+ "None." +:+ NL))
    "Optional Inputs"
  = strip (NL +:+ NL +:+ "See ## Outputs for what is returned." +:+ NL +:+ NL).
Proof.
  apply (section_is_the_text_up_to_the_next_heading
           ("# widget" +:+ NL +:+ NL) "Optional Inputs"
           (NL +:+ NL +:+ "See ## Outputs for what is returned." +:+ NL +:+ NL)
           ("## Resources" +:+ NL +:+ NL +:+ "None." +:+ NL)).
  - vm_compute. reflexivity.
  - vm_compute. reflexivity.
  - vm_compute. reflexivity.
  - vm_compute. reflexivity.
Defined.

End ExtractionFacts.
